(** * MindMark (Bookmart): learning analytics and spaced-repetition core

    A shallow embedding of the backend's deterministic core:

    - [Quiz]: [checkAnswer] and the [POST /submit] handler of
      routes/quiz.js (src/unnamed/part_003),
    - [RevisionEngine]: services/revisionEngine.js
      (src/backend/src/services/revisionEngine.js, first document),
    - [Insights]: services/insightEngine.js (same file, second document),
    - [Analytics]: services/analyticsService.js
      (src/frontend/src/App.jsx, third document),
    - [AnalyticsRoutes]: the [GET /weakest] handler of
      src/backend/src/routes/analytics.js.

    The modules whose name ends in [Spec] hold the statements the
    properties are measured against; [Examples] holds sample data.

    Conventions of the embedding.

    - A JavaScript string is a list of code units.  Code units are the
      Latin-1 range (0..255) carried by [ascii]; [toLowerCase], [trim] and
      the regular expression class [\s] are written out for that range.
    - A JavaScript [Date] is its time value, a number of milliseconds since
      the epoch, in [Z].  Local time is a fixed offset [tz] from UTC (no
      daylight-saving transitions), except for the daily series of
      [Analytics], which take the zone of the server as a [Date.Zone]; one
      operation reads the clock once.
    - Scores are JavaScript numbers, that is IEEE 754 doubles.  A double
      is carried by its exact value in [Q], and an arithmetic operation is
      the exact one followed by the rounding [Js.double].  The one place
      where the program can divide zero by zero goes through
      [Js.JsNumber], which has [NaN].
    - The database is the list of its rows.  A Prisma [findMany] is a
      [filter], an [orderBy] a stable sort of the rows, [take] is [firstn].
    - A plain JavaScript object used as a dictionary is an association list
      in insertion order, which is the order [Object.entries] and
      [Object.values] enumerate string keys that are not array indices. *)

From Stdlib Require Import Bool Ascii String ZArith QArith Qround Qpower.
From Stdlib Require Import Arith PeanoNat Lia Lqa List Permutation Sorted.
Import ListNotations.

Local Open Scope Z_scope.

(* ================================================================== *)
(** * Part I: the embedding                                            *)
(* ================================================================== *)

(** ** JavaScript values *)

Module Js.

(** A string, as the sequence of its code units. *)
Definition jsstring := list ascii.

Definition str (s : string) : jsstring := list_ascii_of_string s.

Fixpoint jsstring_eqb (a b : jsstring) : bool :=
  match a, b with
  | [], [] => true
  | c :: a', d :: b' => Ascii.eqb c d && jsstring_eqb a' b'
  | _, _ => false
  end.

(** [WhiteSpace] and [LineTerminator] code units below 256: TAB, LF, VT,
    FF, CR, SP and NBSP.  [String.prototype.trim] and the class [\s] use
    the same set. *)
Definition isWhiteSpace (c : ascii) : bool :=
  let n := N_of_ascii c in
  ((9 <=? n) && (n <=? 13) || (n =? 32) || (n =? 160))%N.

(** [toLowerCase] on one code unit: A-Z, and the Latin-1 capitals
    U+00C0..U+00DE except the multiplication sign U+00D7. *)
Definition toLowerChar (c : ascii) : ascii :=
  let n := N_of_ascii c in
  if ((65 <=? n) && (n <=? 90)
      || (192 <=? n) && (n <=? 222) && negb (n =? 215))%N
  then ascii_of_N (n + 32) else c.

Definition toLowerCase (s : jsstring) : jsstring := map toLowerChar s.

Fixpoint trimStart (s : jsstring) : jsstring :=
  match s with
  | [] => []
  | c :: s' => if isWhiteSpace c then trimStart s' else s
  end.

Definition trimEnd (s : jsstring) : jsstring := rev (trimStart (rev s)).

Definition trim (s : jsstring) : jsstring := trimEnd (trimStart s).

(** [s.split(/\s+/)].  [cur] is the token being read, reversed; [inrun]
    tells that the previous code unit was white space.  Every maximal run
    of white space is one separator; a separator at either end leaves an
    empty token there, and the empty string splits into one empty token. *)
Fixpoint split_ws_from (cur : jsstring) (inrun : bool) (s : jsstring)
  : list jsstring :=
  match s with
  | [] => [rev cur]
  | c :: s' =>
      if isWhiteSpace c then
        if inrun then split_ws_from cur true s'
        else rev cur :: split_ws_from [] true s'
      else split_ws_from (c :: cur) false s'
  end.

Definition split_ws (s : jsstring) : list jsstring :=
  split_ws_from [] false s.

Fixpoint startsWith (s sub : jsstring) {struct sub} : bool :=
  match sub, s with
  | [], _ => true
  | _ :: _, [] => false
  | c :: sub', d :: s' => Ascii.eqb c d && startsWith s' sub'
  end.

(** [s.includes(sub)] *)
Fixpoint includes (s sub : jsstring) : bool :=
  startsWith s sub
  || match s with
     | [] => false
     | _ :: s' => includes s' sub
     end.

(** The numbers a quotient of two array lengths can be. *)
Inductive JsNumber : Type :=
| NaN
| PosInfinity
| Finite (q : Q).

(** [m / n] for two array lengths. *)
Definition div_lengths (m n : nat) : JsNumber :=
  match n with
  | O => match m with O => NaN | S _ => PosInfinity end
  | S _ => Finite (Z.of_nat m # Pos.of_nat n)
  end.

(** [x >= y]; every comparison with [NaN] is false. *)
Definition ge (x : JsNumber) (y : Q) : bool :=
  match x with
  | NaN => false
  | PosInfinity => true
  | Finite q => Qle_bool y q
  end.

(** [a < b] *)
Definition Qlt_bool (a b : Q) : bool := negb (Qle_bool b a).

(** *** Numbers

    A JavaScript number is an IEEE 754 double.  A finite double is
    carried by its exact value in [Q]; an operation of the program is
    the exact operation followed by [double], the rounding to the nearest
    double, ties to the even significand.  Infinities and NaN have no
    value in [Q]: the magnitudes at hand stay far below the largest
    double, and where the program can divide by zero it is said at the
    place. *)

(** [2^e], for any integer [e]. *)
Definition pow2 (e : Z) : Q := (2 ^ e)%Q.

(** The exponent of a positive rational [x]: the [e] with
    [2^e <= x < 2^(e+1)]. *)
Definition exponent (x : Q) : Z :=
  let l := Z.log2 (Qnum x) - Z.log2 (Zpos (Qden x)) in
  if Qle_bool (pow2 l) x then l else l - 1.

(** The nearest integer, a tie going to the even one. *)
Definition nearestEven (y : Q) : Z :=
  let f := Qfloor y in
  match (y - inject_Z f ?= 1 # 2)%Q with
  | Lt => f
  | Gt => f + 1
  | Eq => if Z.even f then f else f + 1
  end.

(** The nearest double of a rational that is not negative: a multiple of
    [2^q] with a significand of 53 bits, [q] not below that of the
    subnormal doubles. *)
Definition nearest (x : Q) : Q :=
  if Qle_bool x 0 then 0%Q
  else
    let q := Z.max (exponent x - 52) (-1074) in
    (inject_Z (nearestEven (x / pow2 q)) * pow2 q)%Q.

(** The nearest double. *)
Definition double (x : Q) : Q :=
  if Qle_bool 0 x then nearest x else (- nearest (- x))%Q.

(** [a + b], [a - b], [a * b] and [a / b] on doubles. *)
Definition fadd (a b : Q) : Q := double (a + b).
Definition fsub (a b : Q) : Q := double (a - b).
Definition fmul (a b : Q) : Q := double (a * b).
Definition fdiv (a b : Q) : Q := double (a / b).

(** [Math.round(y)] of a double: the nearest integer, a tie going up. *)
Definition round (y : Q) : Q := inject_Z (Qfloor (y + (1 # 2))).

(** [Math.round(x * 100) / 100] *)
Definition round2 (x : Q) : Q := fdiv (round (fmul x 100)) 100.

(** [xs.reduce((sum, x) => sum + x, 0) / xs.length] for a non-empty
    array: the scores are added in the order of the array, every partial
    sum a double. *)
Definition mean (xs : list Q) : Q :=
  fdiv (fold_left fadd xs 0%Q) (inject_Z (Z.of_nat (length xs))).

(** The sum and the quotient without any rounding.  The averages of
    [AnalyticsService] are stated on them: what is proved of these
    figures are the bounds of percentages, which [mean] keeps as well on
    an array, whose length is below [2^32] ([mean_range]). *)
Definition sum (xs : list Q) : Q := fold_left Qplus xs 0%Q.

Definition average (xs : list Q) : Q :=
  (sum xs / inject_Z (Z.of_nat (length xs)))%Q.

(** A plain object used as a dictionary, in insertion order. *)
Section Dict.
Context {K V : Type} (keq : K -> K -> bool).

Definition dict := list (K * V).

Fixpoint get (d : dict) (k : K) : option V :=
  match d with
  | [] => None
  | (k', v) :: d' => if keq k k' then Some v else get d' k
  end.

(** [d[k] = v]: an existing key keeps its place. *)
Fixpoint set (d : dict) (k : K) (v : V) : dict :=
  match d with
  | [] => [(k, v)]
  | (k', v') :: d' =>
      if keq k k' then (k', v) :: d' else (k', v') :: set d' k v
  end.

(** [d[k] = f(d[k])] on every entry whose key is [k]. *)
Definition adjust (k : K) (f : V -> V) (d : dict) : dict :=
  map (fun kv => if keq k (fst kv) then (fst kv, f (snd kv)) else kv) d.

Definition entries (d : dict) : list (K * V) := d.
Definition values (d : dict) : list V := map snd d.
Definition keys (d : dict) : list K := map fst d.
End Dict.

(** The property names every plain object inherits from
    [Object.prototype].  Read on an object that does not hold them they
    give a function (or the prototype itself, for [__proto__]), which is
    truthy and has none of the properties the program looks for. *)
Definition inherited (name : string) : bool :=
  existsb (String.eqb name)
    ["constructor"; "__defineGetter__"; "__defineSetter__";
     "hasOwnProperty"; "__lookupGetter__"; "__lookupSetter__";
     "isPrototypeOf"; "propertyIsEnumerable"; "toString"; "valueOf";
     "__proto__"; "toLocaleString"]%string.

(** The value of a decimal digit. *)
Definition digit (c : ascii) : option N :=
  let n := N_of_ascii c in
  if ((48 <=? n) && (n <=? 57))%N then Some (n - 48)%N else None.

Fixpoint numeral (s : string) (acc : N) : option N :=
  match s with
  | EmptyString => Some acc
  | String c s' =>
      match digit c with
      | Some d => numeral s' (10 * acc + d)%N
      | None => None
      end
  end.

(** The array index a property name is, if it is one: a decimal numeral
    without leading zero, below [2^32 - 1]. *)
Definition arrayIndex (name : string) : option N :=
  match name with
  | EmptyString => None
  | String c rest =>
      if Ascii.eqb c "0"
      then match rest with EmptyString => Some 0%N | String _ _ => None end
      else match numeral name 0 with
           | Some n => if (n <? 4294967295)%N then Some n else None
           | None => None
           end
  end.

Definition isIndex (name : string) : bool :=
  match arrayIndex name with Some _ => true | None => false end.

Definition indexLeb {V} (a b : string * V) : bool :=
  match arrayIndex (fst a), arrayIndex (fst b) with
  | Some m, Some n => (m <=? n)%N
  | _, _ => true
  end.

(** A stable sort, by insertion: [Array.prototype.sort] with a
    comparator under which [leb a b] says that [a] need not move behind
    [b], and the order a database gives rows on [ORDER BY]. *)
Section Sort.
Context {A : Type} (leb : A -> A -> bool).

Fixpoint insert (x : A) (l : list A) : list A :=
  match l with
  | [] => [x]
  | y :: l' => if leb x y then x :: y :: l' else y :: insert x l'
  end.

Definition sort (l : list A) : list A := fold_right insert [] l.
End Sort.

(** [Object.entries] of a plain object whose keys are names a user
    chose: the keys that are array indices come first, in ascending
    order, then the other keys in insertion order. *)
Definition ownEntries {V} (d : @dict string V) : list (string * V) :=
  sort indexLeb (filter (fun kv => isIndex (fst kv)) d)
  ++ filter (fun kv => negb (isIndex (fst kv))) d.

End Js.

(** ** Averages, as specified *)

Module NumberSpec.

(** The average of scores in double arithmetic: the scores are added
    one after the other from zero, each sum rounded to the nearest
    double, and the last sum is divided by their number. *)
Fixpoint total (acc : Q) (scores : list Q) : Q :=
  match scores with
  | [] => acc
  | x :: rest => total (Js.double (acc + x)) rest
  end.

Definition averageOf (scores : list Q) : Q :=
  Js.double (total 0 scores / inject_Z (Z.of_nat (length scores))).

End NumberSpec.

(** ** Dates *)

Module Date.

Definition msPerDay : Z := 86400000.
Definition msPerHour : Z := 3600000.
Definition msPerMinute : Z := 60000.
Definition msPerSecond : Z := 1000.

Definition Day (t : Z) : Z := t / msPerDay.
Definition TimeWithinDay (t : Z) : Z := t mod msPerDay.
Definition MakeTime (h m s ms : Z) : Z :=
  h * msPerHour + m * msPerMinute + s * msPerSecond + ms.
Definition MakeDate (day time : Z) : Z := day * msPerDay + time.

Definition LocalTime (tz t : Z) : Z := t + tz.
Definition UTC (tz t : Z) : Z := t - tz.

(** [d.setDate(d.getDate() + n)].  The language defines it as
    [MakeDate(MakeDay(year, month, date + n), TimeWithinDay(t))] on the
    local time [t], and [MakeDay] of a day of the month past either end of
    the month counts days on from the first of the month: the local day
    number moves by [n], the local time of day stays. *)
Definition addDays (tz t n : Z) : Z :=
  let lt := LocalTime tz t in
  UTC tz (MakeDate (Day lt + n) (TimeWithinDay lt)).

(** [d.setHours(h, m, s, ms)] *)
Definition setHours (tz t h m s ms : Z) : Z :=
  let lt := LocalTime tz t in
  UTC tz (MakeDate (Day lt) (MakeTime h m s ms)).

(** A time zone whose offset changes with the date: [offsetAt zone t]
    is the offset of local time from UTC at the time value [t]
    ([LocalTZA(t, true)]), [offsetOf zone lt] the offset in force at the
    local time [lt] ([LocalTZA(lt, false)]). *)
Record Zone : Type := mkZone {
  offsetAt : Z -> Z;
  offsetOf : Z -> Z
}.

(** The zone that keeps the offset [tz] all year. *)
Definition fixed (tz : Z) : Zone := mkZone (fun _ => tz) (fun _ => tz).

(** [setDate] and [setHours] in such a zone. *)
Definition addDaysIn (zone : Zone) (t n : Z) : Z :=
  let lt := t + offsetAt zone t in
  let moved := MakeDate (Day lt + n) (TimeWithinDay lt) in
  moved - offsetOf zone moved.

Definition setHoursIn (zone : Zone) (t h m s ms : Z) : Z :=
  let lt := t + offsetAt zone t in
  let moved := MakeDate (Day lt) (MakeTime h m s ms) in
  moved - offsetOf zone moved.

(** [d.toISOString().split('T')[0]]: the UTC calendar date, named by its
    day number (dates and day numbers correspond one to one). *)
Definition isoDate (t : Z) : Z := Day t.

(** The local calendar day and local time of day of a time value. *)
Definition localDay (tz t : Z) : Z := Day (LocalTime tz t).
Definition localTimeOfDay (tz t : Z) : Z := TimeWithinDay (LocalTime tz t).

End Date.

(** ** The content store *)

Module Store.
Import Js.

Inductive QuestionType : Type :=
| Mcq | Short | Scenario | Flashcard
| OtherType.  (* any other string in the [type] column *)

Definition QuestionType_eqb (a b : QuestionType) : bool :=
  match a, b with
  | Mcq, Mcq | Short, Short | Scenario, Scenario
  | Flashcard, Flashcard | OtherType, OtherType => true
  | _, _ => false
  end.

Record Category : Type := mkCategory {
  c_id : string;
  c_name : string
}.

Record Bookmark : Type := mkBookmark {
  b_id : string;
  b_title : string;
  b_categoryId : option string;
  b_lastReviewedAt : option Z;
  b_nextReviewAt : option Z;
  b_createdAt : Z
}.

Record Question : Type := mkQuestion {
  q_id : string;
  q_bookmarkId : string;
  q_type : QuestionType;
  q_questionText : string;
  q_options : list string;
  q_correctAnswer : jsstring;
  q_explanation : option string
}.

Record QuizAttempt : Type := mkQuizAttempt {
  a_id : string;
  a_bookmarkId : string;
  a_score : Q;
  a_totalQuestions : nat;
  a_timeTaken : Q;
  a_attemptedAt : Z
}.

Record UserAnswer : Type := mkUserAnswer {
  ua_attemptId : string;
  ua_questionId : string;
  ua_selectedAnswer : jsstring;
  ua_isCorrect : bool
}.

Record t : Type := mkStore {
  categories : list Category;
  bookmarks : list Bookmark;
  questions : list Question;
  quizAttempts : list QuizAttempt;
  userAnswers : list UserAnswer
}.

(** Where an ascending [ORDER BY] puts NULL. *)
Inductive NullsOrder : Type := NullsFirst | NullsLast.

(** The database of the deployment is PostgreSQL 15 (README, "Tech
    Stack"), whose ascending order sorts NULL as larger than every
    value. *)
Definition postgres : NullsOrder := NullsLast.

Definition compare_nullable (nulls : NullsOrder) (x y : option Z)
  : comparison :=
  match x, y with
  | None, None => Eq
  | None, Some _ => match nulls with NullsFirst => Lt | NullsLast => Gt end
  | Some _, None => match nulls with NullsFirst => Gt | NullsLast => Lt end
  | Some a, Some b => a ?= b
  end.

Definition leb_of_compare {A} (cmp : A -> A -> comparison) (a b : A)
  : bool :=
  match cmp a b with Gt => false | _ => true end.

Definition is_null {A} (v : option A) : bool :=
  match v with None => true | Some _ => false end.

(** [{ lte: x }] on a nullable column: NULL satisfies no comparison. *)
Definition lte (v : option Z) (x : Z) : bool :=
  match v with Some t => t <=? x | None => false end.

Definition findCategory (st : t) (id : string) : option Category :=
  find (fun c => String.eqb (c_id c) id) (categories st).

Definition findBookmark (st : t) (id : string) : option Bookmark :=
  find (fun b => String.eqb (b_id b) id) (bookmarks st).

Definition findQuestion (st : t) (id : string) : option Question :=
  find (fun q => String.eqb (q_id q) id) (questions st).

(** [include: { category: true }] *)
Definition categoryOf (st : t) (b : Bookmark) : option Category :=
  match b_categoryId b with
  | Some id => findCategory st id
  | None => None
  end.

Definition attemptsOf (st : t) (bookmarkId : string) : list QuizAttempt :=
  filter (fun a => String.eqb (a_bookmarkId a) bookmarkId) (quizAttempts st).

Definition answersOf (st : t) (attemptId : string) : list UserAnswer :=
  filter (fun u => String.eqb (ua_attemptId u) attemptId) (userAnswers st).

(** [orderBy: { attemptedAt: 'desc' }] and ['asc'] *)
Definition byAttemptedAtDesc (l : list QuizAttempt) : list QuizAttempt :=
  sort (fun a b => a_attemptedAt b <=? a_attemptedAt a) l.

Definition byAttemptedAtAsc (l : list QuizAttempt) : list QuizAttempt :=
  sort (fun a b => a_attemptedAt a <=? a_attemptedAt b) l.

End Store.

(** ** The evaluator's rule for short and scenario questions, as specified *)

Module QuizSpec.
Import Js Store.

(** [u] occurs in [v]. *)
Definition Substring (u v : jsstring) : Prop :=
  exists pre suf, v = pre ++ u ++ suf.

(** Lower-cased and trimmed. *)
Definition normalise (s : jsstring) : jsstring := trim (toLowerCase s).

(** The white-space tokens of a text. *)
Definition tokens (s : jsstring) : list jsstring := split_ws (normalise s).

(** The key terms: tokens of the correct answer strictly longer than
    three characters. *)
Definition keyTerms (correctAnswer : jsstring) : list jsstring :=
  filter (fun w => (3 <? length w)%nat) (tokens correctAnswer).

(** A key term is matched when it occurs in a token of the submitted
    answer, or such a token occurs in it. *)
Definition Matched (selectedAnswer w : jsstring) : Prop :=
  exists sw, In sw (tokens selectedAnswer)
             /\ (Substring w sw \/ Substring sw w).

(** [CountOf P l n]: exactly [n] positions of [l] hold an element
    with [P]. *)
Inductive CountOf {A : Type} (P : A -> Prop) : list A -> nat -> Prop :=
| CountOf_nil : CountOf P [] 0
| CountOf_yes x l n : P x -> CountOf P l n -> CountOf P (x :: l) (S n)
| CountOf_no x l n : ~ P x -> CountOf P l n -> CountOf P (x :: l) n.

End QuizSpec.

(** ** services/revisionEngine.js *)

Module RevisionEngine.
Import Js Store.

Definition calculateNextReviewDate (tz now : Z) (score : Q) : Z :=
  let daysToAdd :=
    if Qle_bool 80 score then 5
    else if Qle_bool 50 score then 3
    else 1 in
  let nextReview := Date.addDays tz now daysToAdd in
  Date.setHours tz nextReview 9 0 0 0.

(** [prisma.bookmark.update({ where: { id }, data })]; [None] when no
    row has the id (the client throws). *)
Definition updateBookmark (st : Store.t) (id : string)
           (f : Bookmark -> Bookmark) : option Store.t :=
  match findBookmark st id with
  | None => None
  | Some _ =>
      Some (mkStore (categories st)
              (map (fun b => if String.eqb (b_id b) id then f b else b)
                   (bookmarks st))
              (questions st) (quizAttempts st) (userAnswers st))
  end.

Record Schedule : Type := mkSchedule {
  lastReviewedAt : Z;
  nextReviewAt : Z
}.

Definition updateRevisionSchedule (tz now : Z) (st : Store.t)
           (bookmarkId : string) (score : Q) : option (Store.t * Schedule) :=
  let nextReviewAt := calculateNextReviewDate tz now score in
  match
    updateBookmark st bookmarkId
      (fun b => mkBookmark (b_id b) (b_title b) (b_categoryId b)
                  (Some now) (Some nextReviewAt) (b_createdAt b))
  with
  | None => None
  | Some st' => Some (st', mkSchedule now nextReviewAt)
  end.

(** The [where] clause of [getDueBookmarks]. *)
Definition dueWhere (now : Z) (b : Bookmark) : bool :=
  lte (b_nextReviewAt b) now
  || is_null (b_nextReviewAt b) && is_null (b_lastReviewedAt b).

(** [orderBy: [{ nextReviewAt: 'asc' }, { createdAt: 'asc' }]] *)
Definition dueOrder (nulls : NullsOrder) (a b : Bookmark) : comparison :=
  match compare_nullable nulls (b_nextReviewAt a) (b_nextReviewAt b) with
  | Eq => b_createdAt a ?= b_createdAt b
  | c => c
  end.

(** A row of [getDueBookmarks] with its [include]s. *)
Record DueBookmark : Type := mkDue {
  d_bookmark : Bookmark;
  d_category : option Category;
  d_questions : list Question;
  d_quizAttempts : list QuizAttempt
}.

Definition loadDue (st : Store.t) (b : Bookmark) : DueBookmark :=
  mkDue b (categoryOf st b)
    (firstn 5
       (filter (fun q => String.eqb (q_bookmarkId q) (b_id b)
                         && QuestionType_eqb (q_type q) Mcq)
               (questions st)))
    (firstn 1 (byAttemptedAtDesc (attemptsOf st (b_id b)))).

Definition getDueBookmarks (nulls : NullsOrder) (now : Z) (st : Store.t)
           (limit : nat) : list DueBookmark :=
  map (loadDue st)
      (firstn limit
         (sort (leb_of_compare (dueOrder nulls))
               (filter (dueWhere now) (bookmarks st)))).

(** A row of [getWeakestBookmarks]: the bookmark, its [include]s and the
    two computed properties. *)
Record WeakBookmark : Type := mkWeak {
  w_bookmark : Bookmark;
  w_category : option Category;
  w_quizAttempts : list QuizAttempt;
  w_avgRecentScore : Q;
  w_attemptCount : nat
}.

Definition scoreBookmark (st : Store.t) (b : Bookmark) : WeakBookmark :=
  let attempts := firstn 3 (byAttemptedAtDesc (attemptsOf st (b_id b))) in
  let avgScore :=
    if (0 <? length attempts)%nat then mean (map a_score attempts)
    else 0%Q in
  mkWeak b (categoryOf st b) attempts avgScore (length attempts).

(** [(a, b) => a.avgRecentScore - b.avgRecentScore] is not positive. *)
Definition weakLeb (a b : WeakBookmark) : bool :=
  Qle_bool (w_avgRecentScore a) (w_avgRecentScore b).

Definition getWeakestBookmarks (st : Store.t) (limit : nat)
  : list WeakBookmark :=
  let scored := map (scoreBookmark st) (bookmarks st) in
  firstn limit
    (sort weakLeb (filter (fun b => (0 <? w_attemptCount b)%nat) scored)).

(** An element of the combined array of [createDailyReviewSet]. *)
Inductive ReviewBookmark : Type :=
| Due (d : DueBookmark)
| Weak (w : WeakBookmark).

Definition rb_bookmark (r : ReviewBookmark) : Bookmark :=
  match r with Due d => d_bookmark d | Weak w => w_bookmark w end.

Definition rb_id (r : ReviewBookmark) : string := b_id (rb_bookmark r).

(** [bookmark.questions]: rows of [getWeakestBookmarks] were loaded
    without that property. *)
Definition rb_questions (r : ReviewBookmark) : option (list Question) :=
  match r with Due d => Some (d_questions d) | Weak _ => None end.

(** A question of the quick test, with its [bookmarkTitle]. *)
Record ReviewQuestion : Type := mkReviewQuestion {
  rq_question : Question;
  rq_bookmarkTitle : string
}.

Record DailyReviewSet : Type := mkDailyReviewSet {
  rs_bookmarks : list ReviewBookmark;
  rs_questions : list ReviewQuestion;
  rs_totalDue : nat
}.

Definition createDailyReviewSet (nulls : NullsOrder) (now : Z) (st : Store.t)
  : DailyReviewSet :=
  let dueBookmarks := getDueBookmarks nulls now st 5 in
  let weakBookmarks := getWeakestBookmarks st 3 in
  let dueIds := map (fun d => b_id (d_bookmark d)) dueBookmarks in
  let combined :=
    map Due dueBookmarks
    ++ map Weak
         (filter
            (fun w => negb (existsb (String.eqb (b_id (w_bookmark w))) dueIds))
            weakBookmarks) in
  let questions :=
    flat_map
      (fun bookmark =>
         match rb_questions bookmark with
         | Some (q :: _) =>
             [mkReviewQuestion q (b_title (rb_bookmark bookmark))]
         | _ => []
         end)
      (firstn 5 combined) in
  mkDailyReviewSet (firstn 5 combined) (firstn 5 questions) (length combined).

End RevisionEngine.

(** ** The scheduler's selections, as specified *)

Module RevisionSpec.
Import Js Store RevisionEngine.

(** A bookmark is due when its next review is not after [now], or when it
    was never reviewed. *)
Definition IsDue (now : Z) (b : Bookmark) : Prop :=
  (exists t, b_nextReviewAt b = Some t /\ t <= now)
  \/ (b_nextReviewAt b = None /\ b_lastReviewedAt b = None).

(** [x] comes strictly before [y] in ascending order, NULL placed first
    or last. *)
Definition NullableLt (nulls : NullsOrder) (x y : option Z) : Prop :=
  match x, y with
  | Some a, Some b => a < b
  | None, Some _ => nulls = NullsFirst
  | Some _, None => nulls = NullsLast
  | None, None => False
  end.

(** Ascending [nextReviewAt], ties broken by ascending creation time. *)
Definition DueBefore (nulls : NullsOrder) (a b : Bookmark) : Prop :=
  NullableLt nulls (b_nextReviewAt a) (b_nextReviewAt b)
  \/ (b_nextReviewAt a = b_nextReviewAt b /\ b_createdAt a <= b_createdAt b).

(** [result] is the first [limit] of the due bookmarks of the store,
    ranked by [DueBefore]. *)
Definition DueList (nulls : NullsOrder) (now : Z) (st : Store.t)
           (limit : nat) (result : list Bookmark) : Prop :=
  exists (due : Bookmark -> bool) (ranked : list Bookmark),
    (forall b, due b = true <-> IsDue now b)
    /\ Permutation ranked (filter due (bookmarks st))
    /\ StronglySorted (DueBefore nulls) ranked
    /\ result = firstn limit ranked.

(** The attempts of a bookmark, most recent first. *)
Definition MostRecentFirst (st : Store.t) (id : string)
           (recent : list QuizAttempt) : Prop :=
  Permutation recent (attemptsOf st id)
  /\ StronglySorted (fun a b => a_attemptedAt b <= a_attemptedAt a) recent.

(** The representative question of a bookmark: the first available,
    a multiple-choice one if there is any. *)
Definition representative (qs : list Question) : option Question :=
  match filter (fun q => QuestionType_eqb (q_type q) Mcq) qs with
  | q :: _ => Some q
  | [] => match qs with q :: _ => Some q | [] => None end
  end.

Definition questionsOf (st : Store.t) (id : string) : list Question :=
  filter (fun q => String.eqb (q_bookmarkId q) id) (questions st).

Definition mcqOf (st : Store.t) (id : string) : list Question :=
  filter (fun q => QuestionType_eqb (q_type q) Mcq) (questionsOf st id).

Definition hasAttempts (st : Store.t) (b : Bookmark) : bool :=
  match attemptsOf st (b_id b) with [] => false | _ :: _ => true end.

(** What [weakestBookmarks] says of one row: the bookmark is in the
    store, it is ranked on its three most recent attempts (fewer when it
    has fewer), it has at least one, and its rank is their average
    score. *)
Definition RankedOnRecent (st : Store.t) (bookmark : Bookmark)
           (ranked_on : list QuizAttempt) (avg : Q) : Prop :=
  In bookmark (bookmarks st)
  /\ (exists recent,
         MostRecentFirst st (b_id bookmark) recent
         /\ ranked_on = firstn 3 recent)
  /\ ranked_on <> []
  /\ avg = NumberSpec.averageOf (map a_score ranked_on).

(** The claim read on a review set: each selected bookmark contributes
    exactly its representative question, when it has one. *)
Definition OneRepresentativeEach (st : Store.t)
           (selected : list Bookmark) (quiz : list Question) : Prop :=
  forall b, In b selected ->
    filter (fun q => String.eqb (q_bookmarkId q) (b_id b)) quiz
    = match representative (questionsOf st (b_id b)) with
      | Some q => [q]
      | None => []
      end.

Definition dueId (d : DueBookmark) : string := b_id (d_bookmark d).
Definition weakId (w : WeakBookmark) : string := b_id (w_bookmark w).

(** The weak bookmarks that [createDailyReviewSet] appends. *)
Definition fresh (dueIds : list string) (weak : list WeakBookmark)
  : list WeakBookmark :=
  filter (fun w => if in_dec string_dec (weakId w) dueIds then false else true)
         weak.

(** The question a row of the combined array contributes. *)
Definition pick (bookmark : ReviewBookmark) : list ReviewQuestion :=
  match rb_questions bookmark with
  | Some (q :: _) => [mkReviewQuestion q (b_title (rb_bookmark bookmark))]
  | _ => []
  end.

Definition ofBookmark (id : string) (rq : ReviewQuestion) : bool :=
  String.eqb (q_bookmarkId (rq_question rq)) id.

End RevisionSpec.

(** ** routes/quiz.js *)

Module Quiz.
Import Js Store.

(** One element of [answers] in a request body. *)
Record Answer : Type := mkAnswer {
  questionId : string;
  selectedAnswer : jsstring
}.

(** A request body of [POST /submit] whose fields have the types the
    schema asks for. *)
Record SubmitBody : Type := mkSubmitBody {
  bookmarkId : string;
  answers : list Answer;
  timeTaken : Q
}.

(** [submitQuizSchema.parse] succeeds.  [is_uuid] is the validator's test
    behind [z.string().uuid()].  The array of answers carries no length
    constraint. *)
Definition submitQuizSchema (is_uuid : string -> bool) (body : SubmitBody)
  : bool :=
  is_uuid (bookmarkId body)
  && forallb (fun a => is_uuid (questionId a)) (answers body)
  && Qle_bool 0 (timeTaken body).

(** Helper function to check answer correctness *)
Definition checkAnswer (question : Question) (selectedAnswer : jsstring)
  : bool :=
  let correct := trim (toLowerCase (q_correctAnswer question)) in
  let selected := trim (toLowerCase selectedAnswer) in
  match q_type question with
  | Mcq => jsstring_eqb correct selected
  | Short | Scenario =>
      let correctWords :=
        filter (fun w => (3 <? length w)%nat) (split_ws correct) in
      let selectedWords := split_ws selected in
      let matchCount :=
        length
          (filter
             (fun w =>
                existsb (fun sw => includes sw w || includes w sw)
                        selectedWords)
             correctWords) in
      ge (div_lengths matchCount (length correctWords)) (1 # 2)
  | Flashcard =>
      includes correct selected || includes selected correct
      || jsstring_eqb correct selected
  | OtherType => false
  end.

(** An element of [results]. *)
Record Result : Type := mkResult {
  r_questionId : string;
  r_questionText : string;
  r_selectedAnswer : jsstring;
  r_correctAnswer : jsstring;
  r_isCorrect : bool;
  r_explanation : option string
}.

(** The body of the loop over [data.answers], on the pair of [results]
    and [correctCount]. *)
Definition gradeStep (st : Store.t) (acc : list Result * nat)
           (answer : Answer) : list Result * nat :=
  let (results, correctCount) := acc in
  match findQuestion st (questionId answer) with
  | None => (results, correctCount)
  | Some question =>
      let isCorrect := checkAnswer question (selectedAnswer answer) in
      (results
         ++ [mkResult (q_id question) (q_questionText question)
                      (selectedAnswer answer) (q_correctAnswer question)
                      isCorrect (q_explanation question)],
       if isCorrect then S correctCount else correctCount)
  end.

Definition grade (st : Store.t) (answers : list Answer)
  : list Result * nat :=
  fold_left (gradeStep st) answers ([], 0%nat).

(** [totalQuestions > 0 ? (correctCount / totalQuestions) * 100 : 0] *)
Definition scoreOf (correctCount totalQuestions : nat) : Q :=
  if (0 <? totalQuestions)%nat
  then fmul (fdiv (inject_Z (Z.of_nat correctCount))
                  (inject_Z (Z.of_nat totalQuestions))) 100
  else 0%Q.

(** The JSON body of a successful reply. *)
Record SubmitResponse : Type := mkSubmitResponse {
  res_attemptId : string;
  res_score : Q;
  res_correct : nat;
  res_total : nat;
  res_timeTaken : Q;
  res_results : list Result;
  res_weakQuestions : list Result;
  res_nextReviewAt : Z
}.

Inductive Reply : Type :=
| Json (r : SubmitResponse)
| ValidationError            (* status 400 *)
| BookmarkNotFound           (* status 404 *)
| Failed.                    (* an exception handed to [next] *)

Definition createQuizAttempt (st : Store.t) (a : QuizAttempt) : Store.t :=
  mkStore (categories st) (bookmarks st) (questions st)
          (quizAttempts st ++ [a]) (userAnswers st).

Definition createUserAnswer (st : Store.t) (u : UserAnswer) : Store.t :=
  mkStore (categories st) (bookmarks st) (questions st)
          (quizAttempts st) (userAnswers st ++ [u]).

(** The handler of [POST /submit].  [now] is the clock, [newId] the id
    the database gives the new attempt. *)
Definition submit (is_uuid : string -> bool) (tz now : Z) (newId : string)
           (st : Store.t) (body : SubmitBody) : Store.t * Reply :=
  if negb (submitQuizSchema is_uuid body) then (st, ValidationError)
  else
    match findBookmark st (bookmarkId body) with
    | None => (st, BookmarkNotFound)
    | Some _ =>
        let (results, correctCount) := grade st (answers body) in
        let totalQuestions := length results in
        let score := scoreOf correctCount totalQuestions in
        let attempt :=
          mkQuizAttempt newId (bookmarkId body) score totalQuestions
                        (timeTaken body) now in
        let st1 := createQuizAttempt st attempt in
        let st2 :=
          fold_left
            (fun s result =>
               createUserAnswer s
                 (mkUserAnswer (a_id attempt) (r_questionId result)
                               (r_selectedAnswer result) (r_isCorrect result)))
            results st1 in
        match
          RevisionEngine.updateRevisionSchedule tz now st2
            (bookmarkId body) score
        with
        | None => (st2, Failed)
        | Some (st3, revisionUpdate) =>
            let weakQuestions :=
              filter (fun r => negb (r_isCorrect r)) results in
            (st3,
             Json (mkSubmitResponse (a_id attempt) (round2 score)
                     correctCount totalQuestions (timeTaken body)
                     results weakQuestions
                     (RevisionEngine.nextReviewAt revisionUpdate)))
        end
    end.

End Quiz.

(** ** The submission, as specified *)

Module SubmitSpec.
Import Js Store Quiz.

(** The answer refers to a question of the store. *)
Definition known (st : Store.t) (a : Answer) : bool :=
  match findQuestion st (questionId a) with
  | Some _ => true
  | None => false
  end.

(** The answers that are scored, and the number of those skipped. *)
Definition scored (st : Store.t) (answers : list Answer) : list Answer :=
  filter (known st) answers.

Definition skipped (st : Store.t) (answers : list Answer) : nat :=
  length (filter (fun a => negb (known st a)) answers).

Definition judgedCorrect (st : Store.t) (a : Answer) : bool :=
  match findQuestion st (questionId a) with
  | Some q => checkAnswer q (selectedAnswer a)
  | None => false
  end.

(** The claim of a validation error on an empty set of answers: the
    reply is the error and the store is as it was. *)
Definition RejectsEmpty (is_uuid : string -> bool) (tz now : Z)
           (newId : string) (st : Store.t) (body : SubmitBody) : Prop :=
  answers body = [] ->
  submit is_uuid tz now newId st body = (st, ValidationError).

(** The claim that the reply reports the number of skipped answers: it
    can be read off the reply, whatever the answers submitted. *)
Definition ReportsSkipped (reply_to : list Answer -> Reply)
           (skipped_of : list Answer -> nat) : Prop :=
  exists reported : SubmitResponse -> nat,
    forall answers r,
      reply_to answers = Json r -> reported r = skipped_of answers.

(** The schedule fields of a bookmark after a review at [now]. *)
Definition reviewed (now next : Z) (b : Bookmark) : Bookmark :=
  mkBookmark (b_id b) (b_title b) (b_categoryId b)
             (Some now) (Some next) (b_createdAt b).

(** The element of [results] an answer gives rise to. *)
Definition resultOf (st : Store.t) (a : Answer) : list Result :=
  match findQuestion st (questionId a) with
  | Some q =>
      [mkResult (q_id q) (q_questionText q) (selectedAnswer a)
                (q_correctAnswer q) (checkAnswer q (selectedAnswer a))
                (q_explanation q)]
  | None => []
  end.

(** The stored answer of an element of [results]. *)
Definition answerRow (attemptId : string) (r : Result) : UserAnswer :=
  mkUserAnswer attemptId (r_questionId r) (r_selectedAnswer r) (r_isCorrect r).

End SubmitSpec.

(** ** services/analyticsService.js *)

Module Analytics.
Import Js Store.

(** An element of a daily series. *)
Record TrendEntry : Type := mkTrendEntry {
  t_date : Z;
  t_avgScore : option Q;     (* [None] is [null] *)
  t_attempts : nat
}.

(** A value of the [dailyData] object. *)
Record DayBucket : Type := mkDayBucket {
  d_date : Z;
  d_scores : list Q;
  d_attempts : nat
}.

(** The values [i] takes in [for (let i = n - 1; i >= 0; i--)]. *)
Definition countdown (n : Z) : list Z :=
  map Z.of_nat (rev (seq 0 (Z.to_nat n))).

Definition getPerformanceTrend (zone : Date.Zone) (now : Z) (st : Store.t)
           (days : Z)
  : list TrendEntry :=
  let startDate := Date.addDaysIn zone now (- days) in
  let attempts :=
    byAttemptedAtAsc
      (filter (fun a => startDate <=? a_attemptedAt a) (quizAttempts st)) in
  let dailyData0 :=
    fold_left
      (fun dailyData i =>
         let date := Date.addDaysIn zone now (- i) in
         let key := Date.isoDate date in
         set Z.eqb dailyData key (mkDayBucket key [] 0))
      (countdown days) [] in
  let dailyData :=
    fold_left
      (fun dailyData attempt =>
         let key := Date.isoDate (a_attemptedAt attempt) in
         match get Z.eqb dailyData key with
         | Some day =>
             set Z.eqb dailyData key
                 (mkDayBucket (d_date day)
                              (d_scores day ++ [a_score attempt])
                              (S (d_attempts day)))
         | None => dailyData
         end)
      attempts dailyData0 in
  map (fun day =>
         mkTrendEntry (d_date day)
           (if (0 <? length (d_scores day))%nat
            then Some (round2 (mean (d_scores day)))
            else None)
           (d_attempts day))
      (values dailyData).

Record WeakRef : Type := mkWeakRef {
  wr_id : string;
  wr_title : string
}.

Record CategoryAnalytics : Type := mkCategoryAnalytics {
  ca_id : string;
  ca_name : string;
  ca_totalBookmarks : nat;
  ca_totalAttempts : nat;
  ca_avgScore : Q;
  ca_weakBookmarks : list WeakRef;
  ca_retentionTrend : list TrendEntry
}.

(** [include: { bookmarks: { include: { quizAttempts: { orderBy:
    { attemptedAt: 'desc' } } } } }] *)
Definition bookmarksIn (st : Store.t) (categoryId : string) : list Bookmark :=
  filter (fun b => match b_categoryId b with
                   | Some c => String.eqb c categoryId
                   | None => false
                   end)
         (bookmarks st).

Definition quizAttemptsOf (st : Store.t) (b : Bookmark) : list QuizAttempt :=
  byAttemptedAtDesc (attemptsOf st (b_id b)).

Definition getCategoryAnalytics (zone : Date.Zone) (now : Z) (st : Store.t)
           (categoryId : string) : option CategoryAnalytics :=
  match findCategory st categoryId with
  | None => None
  | Some category =>
      let bookmarks := bookmarksIn st categoryId in
      let allAttempts := flat_map (quizAttemptsOf st) bookmarks in
      let avgScore :=
        if (0 <? length allAttempts)%nat
        then mean (map a_score allAttempts) else 0%Q in
      let weakBookmarks :=
        filter
          (fun bookmark =>
             if (length (quizAttemptsOf st bookmark) =? 0)%nat then false
             else Qlt_bool
                    (mean (map a_score (quizAttemptsOf st bookmark))) 60)
          bookmarks in
      let retentionTrend :=
        map
          (fun i =>
             let date :=
               Date.setHoursIn zone (Date.addDaysIn zone now (- i)) 0 0 0 0 in
             let nextDay := Date.addDaysIn zone date 1 in
             let dayAttempts :=
               filter (fun a => (date <=? a_attemptedAt a)
                                && (a_attemptedAt a <? nextDay))
                      allAttempts in
             mkTrendEntry (Date.isoDate date)
               (if (0 <? length dayAttempts)%nat
                then Some (mean (map a_score dayAttempts))
                else None)
               (length dayAttempts))
          (countdown 30) in
      Some (mkCategoryAnalytics (c_id category) (c_name category)
              (length bookmarks) (length allAttempts) (round2 avgScore)
              (map (fun b => mkWeakRef (b_id b) (b_title b)) weakBookmarks)
              retentionTrend)
  end.

End Analytics.

(** ** The daily series, as specified *)

Module AnalyticsSpec.
Import Js Store Analytics.

(** The scores of the attempts made on a UTC calendar day. *)
Definition scoresOn (day : Z) (attempts : list QuizAttempt) : list Q :=
  map a_score
      (filter (fun a => Date.isoDate (a_attemptedAt a) =? day) attempts).

(** The scores of the attempts made on a local calendar day. *)
Definition scoresOnLocal (tz day : Z) (attempts : list QuizAttempt) : list Q :=
  map a_score
      (filter (fun a => Date.localDay tz (a_attemptedAt a) =? day) attempts).

(** [null] on a day without attempts, else what [f] makes of the
    average. *)
Definition averageOrNull (f : Q -> Q) (scores : list Q) : option Q :=
  match scores with
  | [] => None
  | _ :: _ => Some (f (NumberSpec.averageOf scores))
  end.

(** The entry of the performance trend for a day: the average of the
    scores of the day, oldest attempt first, rounded to two decimals. *)
Definition trendEntry (st : Store.t) (day : Z) : TrendEntry :=
  let scores := scoresOn day (byAttemptedAtAsc (quizAttempts st)) in
  mkTrendEntry day (averageOrNull round2 scores) (length scores).

(** The entry of a retention series for a local day, labelled with the
    UTC date of its local midnight. *)
Definition retentionEntry (tz : Z) (attempts : list QuizAttempt) (day : Z)
  : TrendEntry :=
  let scores := scoresOnLocal tz day attempts in
  mkTrendEntry (Date.isoDate (Date.UTC tz (Date.MakeDate day 0)))
               (averageOrNull (fun q => q) scores) (length scores).

(** The days of a window of [n] days that ends on [last], oldest first. *)
Definition window (last : Z) (n : nat) : list Z :=
  map (fun k => last - Z.of_nat n + 1 + Z.of_nat k) (seq 0 n).

(** The claim read on a series: the score of a day with attempts is
    their average. *)
Definition ExactAverages (st : Store.t) (series : list TrendEntry) : Prop :=
  forall e, In e series ->
    scoresOn (t_date e) (byAttemptedAtAsc (quizAttempts st)) <> [] ->
    exists avg,
      t_avgScore e = Some avg
      /\ (avg == NumberSpec.averageOf (scoresOn (t_date e)
                                     (byAttemptedAtAsc (quizAttempts st))))%Q.

(** The attempts on the bookmarks of a category. *)
Definition categoryAttempts (st : Store.t) (categoryId : string)
  : list QuizAttempt :=
  flat_map (quizAttemptsOf st) (bookmarksIn st categoryId).

(** An entry keeps [null] apart from a score: it has no score exactly
    when it counts no attempt. *)
Definition NullWhenEmpty (e : TrendEntry) : Prop :=
  t_attempts e = 0%nat <-> t_avgScore e = None.

End AnalyticsSpec.

(** ** services/insightEngine.js *)

Module Insights.
Import Js Store.

Inductive InsightType : Type :=
| Improvement | Decline | MissedReviews | WeakCategory
| RetentionDecay | QuestionTypeWeakness | Consistency | Streak.

Inductive Priority : Type := Critical | Warning | Info | Positive.

(** [priorityOrder] *)
Definition priorityOrder (p : Priority) : Z :=
  match p with Critical => 0 | Warning => 1 | Info => 2 | Positive => 3 end.

(** An insight record.  The [message] is a rendering of the other
    fields and is left out. *)
Record Insight : Type := mkInsight {
  i_type : InsightType;
  i_priority : Priority;
  i_metric : Q;
  i_category : option string;
  i_questionType : option QuestionType;
  i_bookmarks : list (string * string)
}.

(** [attempt.bookmark?.category?.name || 'Uncategorized'] *)
Definition categoryOfAttempt (st : Store.t) (a : QuizAttempt)
  : option Category :=
  match findBookmark st (a_bookmarkId a) with
  | Some b => categoryOf st b
  | None => None
  end.

Definition categoryName (st : Store.t) (a : QuizAttempt) : string :=
  match categoryOfAttempt st a with
  | Some c => if String.eqb (c_name c) "" then "Uncategorized" else c_name c
  | None => "Uncategorized"
  end.

(** A value of the [categoryStats] object. *)
Record CategoryStats : Type := mkCategoryStats {
  cs_scores : list Q;
  cs_category : option Category
}.

(** The body of the loop that fills [categoryStats], for a name the
    object does not inherit; on an inherited name see [throws]. *)
Definition collect (st : Store.t) (categoryStats : dict) (attempt : QuizAttempt)
  : dict :=
  let name := categoryName st attempt in
  let categoryStats :=
    match get String.eqb categoryStats name with
    | Some _ => categoryStats
    | None =>
        set String.eqb categoryStats name
            (mkCategoryStats [] (categoryOfAttempt st attempt))
    end in
  match get String.eqb categoryStats name with
  | Some data =>
      set String.eqb categoryStats name
          (mkCategoryStats (cs_scores data ++ [a_score attempt])
                           (cs_category data))
  | None => categoryStats
  end.

(** 1. Weekly improvement insight *)
Definition weekly (tz now : Z) (allAttempts : list QuizAttempt)
  : list Insight :=
  let oneWeekAgo := Date.addDays tz now (- 7) in
  let twoWeeksAgo := Date.addDays tz now (- 14) in
  let thisWeekAttempts :=
    filter (fun a => oneWeekAgo <=? a_attemptedAt a) allAttempts in
  let lastWeekAttempts :=
    filter (fun a => (twoWeeksAgo <=? a_attemptedAt a)
                     && (a_attemptedAt a <? oneWeekAgo)) allAttempts in
  if (0 <? length thisWeekAttempts)%nat && (0 <? length lastWeekAttempts)%nat
  then
    let thisWeekAvg := mean (map a_score thisWeekAttempts) in
    let lastWeekAvg := mean (map a_score lastWeekAttempts) in
    let improvement := fsub thisWeekAvg lastWeekAvg in
    if Qlt_bool 0 improvement
    then [mkInsight Improvement Positive improvement None None []]
    else if Qlt_bool improvement (- (5))
         then [mkInsight Decline Warning improvement None None []]
         else []
  else [].

(** 2. Missed reviews insight *)
Definition missed (now : Z) (bookmarks : list Bookmark) : list Insight :=
  let missedReviews :=
    filter
      (fun b =>
         match b_nextReviewAt b with
         | None => false
         | Some next =>
             (next <? now)
             && match b_lastReviewedAt b with
                | None => true
                | Some last => last <? next
                end
         end)
      bookmarks in
  if (0 <? length missedReviews)%nat
  then [mkInsight MissedReviews Warning
          (inject_Z (Z.of_nat (length missedReviews))) None None
          (map (fun b => (b_id b, b_title b)) (firstn 5 missedReviews))]
  else [].

(** 3. Category weakness insight *)
Definition weakCategories (categoryStats : dict) : list Insight :=
  flat_map
    (fun entry : string * CategoryStats =>
       let (name, data) := entry in
       if (3 <=? length (cs_scores data))%nat
       then
         let avgScore := mean (cs_scores data) in
         if Qlt_bool avgScore 50
         then [mkInsight WeakCategory Critical avgScore (Some name) None []]
         else []
       else [])
    (ownEntries categoryStats).

(** [xs.slice(-3)] *)
Definition lastThree {A} (xs : list A) : list A := skipn (length xs - 3) xs.

(** [Math.ceil(x / d)] for integers, [d] positive. *)
Definition ceilDiv (x d : Z) : Z := - ((- x) / d).

(** 4. Retention decay insight *)
Definition retentionDecay (allAttempts : list QuizAttempt)
           (categoryStats : dict) : list Insight :=
  flat_map
    (fun entry : string * CategoryStats =>
       let (name, data) := entry in
       if (5 <=? length (cs_scores data))%nat
       then
         let recentAvg := mean (firstn 3 (cs_scores data)) in
         let olderAvg := mean (lastThree (cs_scores data)) in
         if Qlt_bool 15 (fsub olderAvg recentAvg)
         then
           let first := hd 0 (map a_attemptedAt allAttempts) in
           let last := List.last (map a_attemptedAt allAttempts) 0 in
           let daysBetween := ceilDiv (first - last) Date.msPerDay in
           [mkInsight RetentionDecay Warning (inject_Z daysBetween)
                      (Some name) None []]
         else []
       else [])
    (ownEntries categoryStats).

(** [answer.question?.type || 'mcq'] *)
Definition typeOfAnswer (st : Store.t) (u : UserAnswer) : QuestionType :=
  match findQuestion st (ua_questionId u) with
  | Some q => q_type q
  | None => Mcq
  end.

(** 5. Question type weakness insight.  [questionTypeStats] has the four
    types as keys, in this order; an answer of any other type is not
    counted. *)
Definition questionTypes (st : Store.t) (allAttempts : list QuizAttempt)
  : list Insight :=
  let answers := flat_map (fun a => answersOf st (a_id a)) allAttempts in
  flat_map
    (fun type =>
       let ofType :=
         filter (fun u => QuestionType_eqb (typeOfAnswer st u) type) answers in
       let total := length ofType in
       let correct := length (filter ua_isCorrect ofType) in
       if (10 <=? total)%nat
       then
         let correctRate :=
           fmul (fdiv (inject_Z (Z.of_nat correct))
                      (inject_Z (Z.of_nat total))) 100 in
         if Qlt_bool correctRate 50
         then [mkInsight QuestionTypeWeakness Info correctRate None
                         (Some type) []]
         else []
       else [])
    [Mcq; Short; Scenario; Flashcard].

(** 6. Consistency insight *)
Definition consistent (tz now : Z) (allAttempts : list QuizAttempt)
  : list Insight :=
  let oneWeekAgo := Date.addDays tz now (- 7) in
  let activeDays :=
    nodup Z.eq_dec
          (map (fun a => Date.isoDate (a_attemptedAt a))
               (filter (fun a => oneWeekAgo <=? a_attemptedAt a) allAttempts)) in
  let size := length activeDays in
  if (5 <=? size)%nat
  then [mkInsight Consistency Positive (inject_Z (Z.of_nat size)) None None []]
  else if (size <=? 2)%nat && (0 <? length allAttempts)%nat
       then [mkInsight Consistency Warning (inject_Z (Z.of_nat size))
                       None None []]
       else [].

(** The loop of the streak: [todo] are the values of [i] still to
    visit. *)
Fixpoint streakLoop (hasAttempt : Z -> bool) (todo : list Z) (n : nat) : nat :=
  match todo with
  | [] => n
  | i :: rest =>
      if hasAttempt i then streakLoop hasAttempt rest (S n)
      else if 0 <? i then n
           else streakLoop hasAttempt rest n
  end.

(** 7. Streak insight *)
Definition studyStreak (tz now : Z) (allAttempts : list QuizAttempt)
  : list Insight :=
  let hasAttempt i :=
    let dateStr := Date.isoDate (Date.addDays tz now (- i)) in
    existsb (fun a => Date.isoDate (a_attemptedAt a) =? dateStr) allAttempts in
  let n := streakLoop hasAttempt (map Z.of_nat (seq 0 30)) 0 in
  if (3 <=? n)%nat
  then [mkInsight Streak Positive (inject_Z (Z.of_nat n)) None None []]
  else [].

(** The array that [generateInsights] returns, when it returns. *)
Definition generateInsights (tz now : Z) (st : Store.t) : list Insight :=
  let allAttempts := byAttemptedAtDesc (quizAttempts st) in
  let categoryStats := fold_left (collect st) allAttempts [] in
  let insights :=
    weekly tz now allAttempts
    ++ missed now (bookmarks st)
    ++ weakCategories categoryStats
    ++ retentionDecay allAttempts categoryStats
    ++ questionTypes st allAttempts
    ++ consistent tz now allAttempts
    ++ studyStreak tz now allAttempts in
  sort (fun a b => priorityOrder (i_priority a) <=? priorityOrder (i_priority b))
       insights.

(** The loop that fills [categoryStats] fails on an attempt filed under
    a name that the object inherits: [categoryStats[name]] is then truthy
    without having been set, its [scores] is undefined and [push] raises
    a [TypeError]. *)
Definition throws (st : Store.t) : bool :=
  existsb (fun a => inherited (categoryName st a)) (quizAttempts st).

(** What a call of [generateInsights] comes to: [None] when it raises
    the error. *)
Definition generateInsightsOutcome (tz now : Z) (st : Store.t)
  : option (list Insight) :=
  if throws st then None else Some (generateInsights tz now st).

End Insights.

(** ** The weak-category rule, as specified *)

Module InsightsSpec.
Import Js Store Insights.

(** The scores of the attempts filed under a name, newest attempt
    first: the attempts on the bookmarks of the category of that name
    and, under ["Uncategorized"], those on bookmarks without category. *)
Definition scoresOfCategory (st : Store.t) (name : string) : list Q :=
  map a_score
      (filter (fun a => String.eqb (categoryName st a) name)
              (byAttemptedAtDesc (quizAttempts st))).

(** The attempts on the bookmarks of a category. *)
Definition attemptsOfCategory (st : Store.t) (c : Category)
  : list QuizAttempt :=
  filter (fun a => match categoryOfAttempt st a with
                   | Some c' => String.eqb (c_id c') (c_id c)
                   | None => false
                   end)
         (quizAttempts st).

(** The list holds a critical weak-category insight for [name]. *)
Definition FlaggedWeak (insights : list Insight) (name : string) : Prop :=
  exists i, In i insights
            /\ i_type i = WeakCategory
            /\ i_priority i = Critical
            /\ i_category i = Some name.

(** The claim read on a category: it is flagged exactly when it has
    three attempts or more and they average below 50. *)
Definition FlagsCategory (st : Store.t) (insights : list Insight)
           (c : Category) : Prop :=
  FlaggedWeak insights (c_name c)
  <-> ((3 <= length (attemptsOfCategory st c))%nat
       /\ (NumberSpec.averageOf
             (map a_score (byAttemptedAtDesc (attemptsOfCategory st c)))
           < 50)%Q).

Definition FlagsCategories (st : Store.t) (insights : list Insight) : Prop :=
  forall c, In c (categories st) -> FlagsCategory st insights c.

(** A category that has its name to itself: the name is not empty, is
    not the one under which attempts without category are filed, and no
    category of another id carries it. *)
Definition OwnName (st : Store.t) (c : Category) : Prop :=
  c_name c <> ""%string
  /\ c_name c <> "Uncategorized"%string
  /\ forall c', In c' (categories st) ->
                (c_name c' = c_name c <-> c_id c' = c_id c).

(** The scores held under a key of [categoryStats]. *)
Definition scoresAt (categoryStats : dict) (name : string) : list Q :=
  match get String.eqb categoryStats name with
  | Some data => cs_scores data
  | None => []
  end.

End InsightsSpec.

(** ** routes/analytics.js: the [GET /weakest] handler *)

Module AnalyticsRoutes.
Import Js Store.

Record WeakestRow : Type := mkWeakestRow {
  wk_id : string;
  wk_title : string;
  wk_category : option string;
  wk_avgScore : option Q;       (* [None] is [null] *)
  wk_attemptCount : nat;
  wk_lastAttempt : option Z
}.

Definition scoreRow (st : Store.t) (bookmark : Bookmark) : WeakestRow :=
  let attempts := firstn 5 (byAttemptedAtDesc (attemptsOf st (b_id bookmark))) in
  let avgScore :=
    if (0 <? length attempts)%nat
    then Some (mean (map a_score attempts)) else None in
  mkWeakestRow (b_id bookmark) (b_title bookmark)
    (option_map c_name (categoryOf st bookmark))
    (option_map round2 avgScore)
    (length attempts)
    (hd_error (map a_attemptedAt attempts)).

(** [(a, b) => a.avgScore - b.avgScore] is not positive, on rows that
    passed the filter. *)
Definition rowLeb (a b : WeakestRow) : bool :=
  match wk_avgScore a, wk_avgScore b with
  | Some x, Some y => Qle_bool x y
  | _, _ => true
  end.

Definition weakest (st : Store.t) (limit : nat) : list WeakestRow :=
  let scored := map (scoreRow st) (bookmarks st) in
  firstn limit
    (sort rowLeb
       (filter (fun b => negb (is_null (wk_avgScore b))) scored)).

End AnalyticsRoutes.

(** ** Sample data *)

Module Examples.
Import Js Store.
Local Open Scope string_scope.

Definition question (ty : QuestionType) (correct : string) : Question :=
  mkQuestion "q-1" "b-1" ty "?" [] (str correct) None.

Definition q_photo : Question :=
  question Short "Photosynthesis converts Light energy".

Definition q_paris : Question := question Flashcard "Paris".

Definition id_b1 : string := "11111111-1111-4111-8111-111111111111".
Definition id_b2 : string := "22222222-2222-4222-8222-222222222222".
Definition id_q1 : string := "aaaaaaaa-aaaa-4aaa-8aaa-aaaaaaaaaaaa".
Definition id_gone1 : string := "dddddddd-dddd-4ddd-8ddd-dddddddddddd".
Definition id_gone2 : string := "eeeeeeee-eeee-4eee-8eee-eeeeeeeeeeee".
Definition id_a1 : string := "99999999-9999-4999-8999-999999999999".

(** Reviewed once, and due again since time 1000. *)
Definition b_reviewed : Bookmark :=
  mkBookmark id_b1 "Reviewed" None (Some 500) (Some 1000) 10.

(** Saved later and never reviewed. *)
Definition b_new : Bookmark :=
  mkBookmark id_b2 "New" None None None 20.

Definition st_due : Store.t := mkStore [] [b_new; b_reviewed] [] [] [].

Definition id_b3 : string := "33333333-3333-4333-8333-333333333333".
Definition id_q2 : string := "bbbbbbbb-bbbb-4bbb-8bbb-bbbbbbbbbbbb".
Definition id_q3 : string := "cccccccc-cccc-4ccc-8ccc-cccccccccccc".
Definition id_a2 : string := "88888888-8888-4888-8888-888888888888".
Definition id_a3 : string := "77777777-7777-4777-8777-777777777777".
Definition id_a4 : string := "66666666-6666-4666-8666-666666666666".

(** Reviewed at time 600 and not due before time 9000. *)
Definition b_later : Bookmark :=
  mkBookmark id_b3 "Later" None (Some 600) (Some 9000) 30.

Definition q_capital : Question :=
  mkQuestion id_q1 id_b1 Mcq "Capital of France?" ["Paris"; "Rome"]
             (str "Paris") None.

Definition q_essay : Question :=
  mkQuestion id_q2 id_b2 Short "What do plants do?" []
             (str "Plants convert light into chemical energy") None.

Definition q_later : Question :=
  mkQuestion id_q3 id_b3 Mcq "Largest planet?" ["Jupiter"; "Mars"]
             (str "Jupiter") None.

Definition a_first : QuizAttempt := mkQuizAttempt id_a1 id_b1 40 2 30 400.
Definition a_second : QuizAttempt := mkQuizAttempt id_a2 id_b1 20 2 25 500.
Definition a_third : QuizAttempt := mkQuizAttempt id_a3 id_b3 10 1 12 600.

(** Two due bookmarks (one of them never reviewed, holding only a
    short-answer question) and a weak bookmark that is not due. *)
Definition st_review : Store.t :=
  mkStore [] [b_new; b_reviewed; b_later]
          [q_capital; q_essay; q_later]
          [a_first; a_second; a_third] [].

(** One never-reviewed bookmark whose only question is a short answer. *)
Definition st_essay : Store.t := mkStore [] [b_new] [q_essay] [] [].

(** A validator for [z.string().uuid()]: eight, four, four, four and
    twelve hexadecimal digits, joined by hyphens. *)
Definition isHex (c : ascii) : bool :=
  let n := N_of_ascii c in
  ((48 <=? n) && (n <=? 57) || (65 <=? n) && (n <=? 70)
   || (97 <=? n) && (n <=? 102))%N.

Fixpoint shaped (groups : list nat) (run : nat) (s : list ascii) : bool :=
  match run, s with
  | S run', c :: s' => isHex c && shaped groups run' s'
  | O, [] => match groups with [] => true | _ :: _ => false end
  | O, c :: s' =>
      match groups with
      | g :: groups' => Ascii.eqb c "-" && shaped groups' g s'
      | [] => false
      end
  | S _, [] => false
  end.

Definition uuid_shape (s : string) : bool :=
  shaped [4; 4; 4; 12]%nat 8 (list_ascii_of_string s).

(** A submission without any answer. *)
Definition body_empty : Quiz.SubmitBody :=
  Quiz.mkSubmitBody id_b1 [] 30.

(** One answer to a question of the store, then one or two answers to
    questions that are gone. *)
Definition answers_one_gone : list Quiz.Answer :=
  [Quiz.mkAnswer id_q1 (str " paris");
   Quiz.mkAnswer id_gone1 (str "x")].

Definition answers_two_gone : list Quiz.Answer :=
  [Quiz.mkAnswer id_q1 (str " paris");
   Quiz.mkAnswer id_gone1 (str "x");
   Quiz.mkAnswer id_gone2 (str "y")].

Definition id_c1 : string := "c1c1c1c1-c1c1-4c1c-8c1c-c1c1c1c1c1c1".

Definition b_filed : Bookmark :=
  mkBookmark id_b1 "Filed" (Some id_c1) (Some 5000) (Some 9000) 10.

(** One attempt with one answer right out of three, made at time 5000. *)
Definition a_one_third : QuizAttempt :=
  mkQuizAttempt id_a1 id_b1 (Quiz.scoreOf 1 3) 3 40 5000.

Definition st_third : Store.t :=
  mkStore [mkCategory id_c1 "Botany"] [b_filed] [] [a_one_third] [].

Definition id_c2 : string := "c2c2c2c2-c2c2-4c2c-8c2c-c2c2c2c2c2c2".
Definition id_c3 : string := "c3c3c3c3-c3c3-4c3c-8c3c-c3c3c3c3c3c3".

Definition attemptOn (bookmark : string) (score : Q) (at_ : Z) : QuizAttempt :=
  mkQuizAttempt id_a1 bookmark score 4 60 at_.

(** Botany scored 30, 40 and 45; History scored 90 and 85; Maths scored
    10 and 20. *)
Definition st_insights : Store.t :=
  mkStore
    [mkCategory id_c1 "Botany"; mkCategory id_c2 "History";
     mkCategory id_c3 "Maths"]
    [mkBookmark id_b1 "Ferns" (Some id_c1) (Some 300) (Some 9000) 10;
     mkBookmark id_b2 "Rome" (Some id_c2) (Some 500) (Some 9000) 20;
     mkBookmark id_b3 "Primes" (Some id_c3) (Some 700) (Some 9000) 30]
    []
    [attemptOn id_b1 30 100; attemptOn id_b2 90 200; attemptOn id_b1 40 300;
     attemptOn id_b3 10 400; attemptOn id_b2 85 500; attemptOn id_b1 45 600;
     attemptOn id_b3 20 700]
    [].

(** A category that the user named "Uncategorized", with two attempts on
    its bookmark, and one attempt on a bookmark without category. *)
Definition st_named : Store.t :=
  mkStore
    [mkCategory id_c1 "Uncategorized"]
    [mkBookmark id_b1 "Ferns" (Some id_c1) (Some 300) (Some 9000) 10;
     mkBookmark id_b2 "Loose" None (Some 500) (Some 9000) 20]
    []
    [attemptOn id_b1 10 100; attemptOn id_b1 20 200; attemptOn id_b2 30 300]
    [].

(** A zone on UTC until the clocks go forward by one hour, at 02:00 on
    day 10. *)
Definition zone_spring : Date.Zone :=
  let moves := 10 * Date.msPerDay + 2 * Date.msPerHour in
  Date.mkZone (fun t => if (t <? moves)%Z then 0 else Date.msPerHour)
              (fun lt => if (lt <? moves)%Z then 0 else Date.msPerHour).

(** Half past midnight, local time, on the day after. *)
Definition after_spring : Z := 10 * Date.msPerDay + 23 * Date.msPerHour
                               + 30 * Date.msPerMinute.

(** One bookmark with four attempts: a perfect one, then three failed. *)
Definition st_four : Store.t :=
  mkStore [] [b_reviewed] []
          [attemptOn id_b1 100 100; attemptOn id_b1 0 200;
           attemptOn id_b1 0 300; attemptOn id_b1 0 400] [].

End Examples.

(** ** The tiers of the schedule *)

Module ScheduleSpec.

(** The days [calculateNextReviewDate] adds for a score. *)
Definition tierDays (score : Q) : Z :=
  if Qle_bool 80 score then 5 else if Qle_bool 50 score then 3 else 1.

End ScheduleSpec.


(** ** routes/analytics.js: the [GET /reviews] handler *)

Module ReviewStats.
Import Js Store.

(** [{ lt: x }] and [{ gte: x }] on a nullable column. *)
Definition lt (v : option Z) (x : Z) : bool :=
  match v with Some t => t <? x | None => false end.

Definition gte (v : option Z) (x : Z) : bool :=
  match v with Some t => x <=? t | None => false end.

(** [prisma.bookmark.count({ where })] *)
Definition count (where_ : Bookmark -> bool) (st : Store.t) : nat :=
  length (filter where_ (bookmarks st)).

Record t : Type := mkReviewStats {
  dueToday : nat;
  overdue : nat;
  neverReviewed : nat;
  reviewedThisWeek : nat
}.

Definition reviews (tz now : Z) (st : Store.t) : t :=
  let today := Date.setHours tz now 23 59 59 999 in
  mkReviewStats
    (count (fun b => lte (b_nextReviewAt b) today) st)
    (count (fun b => lt (b_nextReviewAt b) now) st)
    (count (fun b => is_null (b_lastReviewedAt b)) st)
    (count (fun b => gte (b_lastReviewedAt b) (now - 7 * 24 * 60 * 60 * 1000)) st).

End ReviewStats.

(** ** services/analyticsService.js: global and bookmark analytics *)

Module AnalyticsService.
Import Js Store.

(** A value of the [categoryScores] object. *)
Record CategoryScore : Type := mkCategoryScore {
  cs_total : Q;
  cs_count : nat
}.

Record WeakestCategory : Type := mkWeakestCategory {
  wc_name : string;
  wc_avgScore : Q;
  wc_attempts : nat
}.

Record GlobalAnalytics : Type := mkGlobalAnalytics {
  totalBookmarks : nat;
  totalCategories : nat;
  totalAttempts : nat;
  globalAvgScore : Q;
  weakestCategory : option WeakestCategory;
  dueReviewsCount : nat;
  improvementTrend : Q;
  reviewComplianceRate : Q;
  thisWeekAttempts : nat;
  lastWeekAttempts : nat
}.

(** The body of the loop that fills [categoryScores]; the name of the
    category of an attempt is computed as in the insight engine.  Under a
    name that the object inherits the two additions are made on the
    inherited value and no key is added. *)
Definition tally (st : Store.t) (categoryScores : dict) (attempt : QuizAttempt)
  : dict :=
  let categoryName := Insights.categoryName st attempt in
  if inherited categoryName then categoryScores
  else
    let categoryScores :=
      match get String.eqb categoryScores categoryName with
      | Some _ => categoryScores
      | None => set String.eqb categoryScores categoryName (mkCategoryScore 0 0)
      end in
    match get String.eqb categoryScores categoryName with
    | Some data =>
        set String.eqb categoryScores categoryName
            (mkCategoryScore (fadd (cs_total data) (a_score attempt))
                             (S (cs_count data)))
    | None => categoryScores
    end.

(** The body of the loop that finds the weakest category, on the pair of
    [lowestAvg] ([None] is [Infinity]) and [weakestCategory]. *)
Definition weaker (acc : option Q * option WeakestCategory)
           (entry : string * CategoryScore)
  : option Q * option WeakestCategory :=
  let (name, data) := entry in
  let avg := fdiv (cs_total data) (inject_Z (Z.of_nat (cs_count data))) in
  let below :=
    match fst acc with
    | None => true
    | Some lowestAvg => Qlt_bool avg lowestAvg
    end in
  if below
  then (Some avg, Some (mkWeakestCategory name avg (cs_count data)))
  else acc.

Definition getGlobalAnalytics (tz now : Z) (st : Store.t) : GlobalAnalytics :=
  let totalBookmarks := length (bookmarks st) in
  let totalCategories := length (categories st) in
  let allAttempts := quizAttempts st in
  let globalAvgScore :=
    if (0 <? length allAttempts)%nat
    then average (map a_score allAttempts) else 0%Q in
  let categoryScores := fold_left (tally st) allAttempts [] in
  let weakestCategory :=
    snd (fold_left weaker (ownEntries categoryScores) (None, None)) in
  let dueReviewsCount :=
    length (filter (RevisionEngine.dueWhere now) (bookmarks st)) in
  let oneWeekAgo := Date.addDays tz now (- 7) in
  let twoWeeksAgo := Date.addDays tz now (- 14) in
  let thisWeekAttempts :=
    filter (fun a => oneWeekAgo <=? a_attemptedAt a) allAttempts in
  let lastWeekAttempts :=
    filter (fun a => (twoWeeksAgo <=? a_attemptedAt a)
                     && (a_attemptedAt a <? oneWeekAgo)) allAttempts in
  let thisWeekAvg :=
    if (0 <? length thisWeekAttempts)%nat
    then average (map a_score thisWeekAttempts) else 0%Q in
  let lastWeekAvg :=
    if (0 <? length lastWeekAttempts)%nat
    then average (map a_score lastWeekAttempts) else 0%Q in
  let improvementTrend := (thisWeekAvg - lastWeekAvg)%Q in
  let scheduledReviews :=
    length (filter (fun b => negb (is_null (b_nextReviewAt b))) (bookmarks st)) in
  let completedReviews :=
    length (filter (fun b => negb (is_null (b_lastReviewedAt b))) (bookmarks st)) in
  let complianceRate :=
    if (0 <? scheduledReviews)%nat
    then fmul (fdiv (inject_Z (Z.of_nat completedReviews))
                    (inject_Z (Z.of_nat scheduledReviews))) 100
    else 100%Q in
  mkGlobalAnalytics totalBookmarks totalCategories (length allAttempts)
    (round2 globalAvgScore) weakestCategory dueReviewsCount
    (round2 improvementTrend) (round2 complianceRate)
    (length thisWeekAttempts) (length lastWeekAttempts).

(** An element of [scoreProgression]. *)
Record Progress : Type := mkProgress {
  p_date : Z;
  p_score : Q;
  p_timeTaken : Q
}.

(** A value of the [questionStats] object.  Its keys are ids of
    questions, which the database draws as UUIDs: none is an array index
    or a name that a plain object inherits, so the values are listed in
    the order in which their keys were first used. *)
Record QuestionStat : Type := mkQuestionStat {
  qs_questionId : string;
  qs_questionText : option string;
  qs_correct : nat;
  qs_incorrect : nat
}.

(** An element of [weakQuestions]: the statistics with their
    [correctRate]. *)
Record WeakQuestion : Type := mkWeakQuestion {
  wq_stat : QuestionStat;
  wq_correctRate : Q
}.

Record BookmarkAnalytics : Type := mkBookmarkAnalytics {
  ba_id : string;
  ba_title : string;
  ba_category : option string;
  ba_totalAttempts : nat;
  ba_avgScore : Q;
  ba_scoreProgression : list Progress;
  ba_lastReviewedAt : option Z;
  ba_nextReviewAt : option Z;
  ba_daysSinceLastReview : option Z;
  ba_totalQuestions : nat;
  ba_weakQuestions : list WeakQuestion
}.

(** The body of the loop over the answers of the attempts. *)
Definition countAnswer (st : Store.t) (questionStats : dict) (answer : UserAnswer)
  : dict :=
  let id := ua_questionId answer in
  let questionStats :=
    match get String.eqb questionStats id with
    | Some _ => questionStats
    | None =>
        set String.eqb questionStats id
            (mkQuestionStat id
               (option_map q_questionText (findQuestion st id)) 0 0)
    end in
  match get String.eqb questionStats id with
  | Some q =>
      set String.eqb questionStats id
          (if ua_isCorrect answer
           then mkQuestionStat (qs_questionId q) (qs_questionText q)
                               (S (qs_correct q)) (qs_incorrect q)
           else mkQuestionStat (qs_questionId q) (qs_questionText q)
                               (qs_correct q) (S (qs_incorrect q)))
  | None => questionStats
  end.

(** [q.correct / (q.correct + q.incorrect)] *)
Definition correctRate (q : QuestionStat) : Q :=
  fdiv (inject_Z (Z.of_nat (qs_correct q)))
       (inject_Z (Z.of_nat (qs_correct q + qs_incorrect q))).

Definition getBookmarkAnalytics (now : Z) (st : Store.t) (bookmarkId : string)
  : option BookmarkAnalytics :=
  match findBookmark st bookmarkId with
  | None => None
  | Some bookmark =>
      let attempts := byAttemptedAtAsc (attemptsOf st (b_id bookmark)) in
      let avgScore :=
        if (0 <? length attempts)%nat
        then average (map a_score attempts) else 0%Q in
      let scoreProgression :=
        map (fun a => mkProgress (a_attemptedAt a) (a_score a) (a_timeTaken a))
            attempts in
      let daysSinceLastReview :=
        match b_lastReviewedAt bookmark with
        | Some last => Some ((now - last) / (1000 * 60 * 60 * 24))
        | None => None
        end in
      let questionStats :=
        fold_left (countAnswer st)
                  (flat_map (fun a => answersOf st (a_id a)) attempts) [] in
      let weakQuestions :=
        sort (fun a b => Qle_bool (wq_correctRate a) (wq_correctRate b))
             (filter (fun q => Qlt_bool (wq_correctRate q) (1 # 2))
                     (map (fun q => mkWeakQuestion q (correctRate q))
                          (values questionStats))) in
      Some (mkBookmarkAnalytics (b_id bookmark) (b_title bookmark)
              (option_map c_name (categoryOf st bookmark))
              (length attempts) (round2 avgScore) scoreProgression
              (b_lastReviewedAt bookmark) (b_nextReviewAt bookmark)
              daysSinceLastReview
              (length (filter (fun q => String.eqb (q_bookmarkId q)
                                                   (b_id bookmark))
                              (questions st)))
              weakQuestions)
  end.

End AnalyticsService.

(** ** services/insightEngine.js: the insights of a category and of a
    bookmark *)

Module ScopedInsights.
Import Js Store.

Inductive InsightType : Type :=
| NoData | StrongCategory | WeakCategory | Improving
| NoAttempts | Declining | Overdue | WeakQuestions.

(** An insight record; the [message] is left out. *)
Record Insight : Type := mkInsight {
  i_type : InsightType;
  i_priority : Insights.Priority
}.

(** [category.bookmarks.flatMap(b => b.quizAttempts)] *)
Definition attemptsIn (st : Store.t) (categoryId : string) : list QuizAttempt :=
  flat_map (fun b => attemptsOf st (b_id b)) (Analytics.bookmarksIn st categoryId).

(** [xs.reduce((s, a) => s + a.score, 0) / 3] *)
Definition thirdOfSum (xs : list QuizAttempt) : Q :=
  fdiv (fold_left fadd (map a_score xs) 0%Q) 3.

Definition getCategoryInsights (st : Store.t) (categoryId : string)
  : list Insight :=
  match findCategory st categoryId with
  | None => []
  | Some category =>
      let allAttempts := attemptsIn st categoryId in
      if (length allAttempts =? 0)%nat
      then [mkInsight NoData Insights.Info]
      else
        let avgScore := mean (map a_score allAttempts) in
        (if Qle_bool 80 avgScore
         then [mkInsight StrongCategory Insights.Positive]
         else if Qlt_bool avgScore 50
              then [mkInsight WeakCategory Insights.Critical]
              else [])
        ++ (if (5 <=? length allAttempts)%nat
            then
              let recentAvg := thirdOfSum (firstn 3 allAttempts) in
              let olderAvg := thirdOfSum (Insights.lastThree allAttempts) in
              if Qlt_bool (fadd olderAvg 10) recentAvg
              then [mkInsight Improving Insights.Positive]
              else []
            else [])
  end.

(** A value of the [questionStats] object of [getBookmarkInsights]. *)
Record Tally : Type := mkTally {
  t_correct : nat;
  t_total : nat;
  t_questionText : option string
}.

Definition countAnswer (st : Store.t) (questionStats : dict) (answer : UserAnswer)
  : dict :=
  let id := ua_questionId answer in
  let questionStats :=
    match get String.eqb questionStats id with
    | Some _ => questionStats
    | None =>
        set String.eqb questionStats id
            (mkTally 0 0 (option_map q_questionText (findQuestion st id)))
    end in
  match get String.eqb questionStats id with
  | Some q =>
      set String.eqb questionStats id
          (mkTally (if ua_isCorrect answer then S (t_correct q) else t_correct q)
                   (S (t_total q)) (t_questionText q))
  | None => questionStats
  end.

Definition getBookmarkInsights (now : Z) (st : Store.t) (bookmarkId : string)
  : list Insight :=
  match findBookmark st bookmarkId with
  | None => []
  | Some bookmark =>
      let attempts := byAttemptedAtDesc (attemptsOf st (b_id bookmark)) in
      match attempts with
      | [] => [mkInsight NoAttempts Insights.Info]
      | latest :: _ =>
          let avgScore := mean (map a_score attempts) in
          let latestScore := a_score latest in
          (if Qle_bool (fadd avgScore 10) latestScore
           then [mkInsight Improving Insights.Positive]
           else if Qlt_bool latestScore (fsub avgScore 10)
                then [mkInsight Declining Insights.Warning]
                else [])
          ++ match b_lastReviewedAt bookmark with
             | Some last =>
                 let daysSinceReview := (now - last) / (1000 * 60 * 60 * 24) in
                 if 7 <? daysSinceReview
                 then [mkInsight Overdue Insights.Warning]
                 else []
             | None => []
             end
          ++ (let questionStats :=
                fold_left (countAnswer st)
                          (flat_map (fun a => answersOf st (a_id a)) attempts) [] in
              let weakQuestions :=
                filter (fun q =>
                          (2 <=? t_total q)%nat
                          && Qlt_bool (fdiv (inject_Z (Z.of_nat (t_correct q)))
                                            (inject_Z (Z.of_nat (t_total q))))
                                      (1 # 2))
                       (values questionStats) in
              if (0 <? length weakQuestions)%nat
              then [mkInsight WeakQuestions Insights.Info]
              else [])
      end
  end.

End ScopedInsights.


(** ** The insights, as a user reads them *)

Module InsightsMore.
Import Js Store Insights.

(** The priority a rule gives, by the type of the insight. *)
Definition priorityByType (i : Insight) : Prop :=
  match i_type i with
  | WeakCategory => i_priority i = Critical
  | Decline | MissedReviews | RetentionDecay => i_priority i = Warning
  | QuestionTypeWeakness => i_priority i = Info
  | Improvement | Streak => i_priority i = Positive
  | Consistency => i_priority i = Positive \/ i_priority i = Warning
  end.

(** A bookmark is either never reviewed, or reviewed and scheduled for a
    later date: what [updateRevisionSchedule] writes. *)
Definition Scheduled (b : Bookmark) : Prop :=
  match b_lastReviewedAt b, b_nextReviewAt b with
  | None, None => True
  | Some last, Some next => last < next
  | _, _ => False
  end.

End InsightsMore.


(** ** The study streak, as a user reads it *)

Module StreakSpec.
Import Js Store.

(** Some attempt was made on that UTC calendar day. *)
Definition studiedOn (st : Store.t) (day : Z) : bool :=
  existsb (fun a => Date.isoDate (a_attemptedAt a) =? day) (quizAttempts st).

(** The number of days at the head of [days] that are all studied. *)
Fixpoint run (studied : Z -> bool) (days : list Z) : nat :=
  match days with
  | [] => 0
  | d :: rest => if studied d then S (run studied rest) else 0
  end.

(** Yesterday, the day before, ... back to 29 days ago. *)
Definition daysBefore (today : Z) : list Z :=
  map (fun k => today - Z.of_nat k) (seq 1 29).

(** Today if it is studied, and the unbroken run of studied days that
    ends yesterday. *)
Definition streakLength (now : Z) (st : Store.t) : nat :=
  let today := Date.isoDate now in
  ((if studiedOn st today then 1 else 0)
   + run (studiedOn st) (daysBefore today))%nat.

End StreakSpec.



(** ** routes/quiz.js: the daily review quiz *)

Module DailyQuiz.
Import Js Store.

(** A request body of [POST /daily-review/submit] whose fields have the
    types the schema asks for. *)
Record DailyBody : Type := mkDailyBody {
  answers : list Quiz.Answer;
  timeTaken : Q
}.

(** [submitDailyQuizSchema.parse] succeeds. *)
Definition submitDailyQuizSchema (is_uuid : string -> bool) (body : DailyBody)
  : bool :=
  forallb (fun a => is_uuid (Quiz.questionId a)) (answers body)
  && Qle_bool 0 (timeTaken body).

(** A value of the [bookmarkScores] object.  Its keys are ids of
    bookmarks, which the database draws as UUIDs: none is an array index
    or a name that a plain object inherits, so the keys are listed in the
    order of their first use. *)
Record Scores : Type := mkScores {
  correct : nat;
  total : nat
}.

(** An element of [results]. *)
Record DailyResult : Type := mkDailyResult {
  dr_result : Quiz.Result;
  dr_bookmarkTitle : option string
}.

(** The variables of the loop over [data.answers]. *)
Record Graded : Type := mkGraded {
  g_results : list DailyResult;
  g_correctCount : nat;
  g_bookmarkScores : @dict string Scores
}.

(** The lines that track the score of a bookmark. *)
Definition track (bookmarkScores : dict) (bookmarkId : string)
           (isCorrect : bool) : dict :=
  let bookmarkScores :=
    match get String.eqb bookmarkScores bookmarkId with
    | Some _ => bookmarkScores
    | None => set String.eqb bookmarkScores bookmarkId (mkScores 0 0)
    end in
  let bookmarkScores :=
    match get String.eqb bookmarkScores bookmarkId with
    | Some s =>
        set String.eqb bookmarkScores bookmarkId
            (mkScores (correct s) (S (total s)))
    | None => bookmarkScores
    end in
  if isCorrect
  then match get String.eqb bookmarkScores bookmarkId with
       | Some s =>
           set String.eqb bookmarkScores bookmarkId
               (mkScores (S (correct s)) (total s))
       | None => bookmarkScores
       end
  else bookmarkScores.

(** The body of the loop over [data.answers]. *)
Definition gradeStep (st : Store.t) (acc : Graded) (answer : Quiz.Answer)
  : Graded :=
  match findQuestion st (Quiz.questionId answer) with
  | None => acc
  | Some question =>
      let isCorrect :=
        Quiz.checkAnswer question (Quiz.selectedAnswer answer) in
      mkGraded
        (g_results acc
           ++ [mkDailyResult
                 (Quiz.mkResult (q_id question) (q_questionText question)
                    (Quiz.selectedAnswer answer) (q_correctAnswer question)
                    isCorrect (q_explanation question))
                 (option_map b_title
                             (findBookmark st (q_bookmarkId question)))])
        (if isCorrect then S (g_correctCount acc) else g_correctCount acc)
        (track (g_bookmarkScores acc) (q_bookmarkId question) isCorrect)
  end.

Definition grade (st : Store.t) (answers : list Quiz.Answer) : Graded :=
  fold_left (gradeStep st) answers (mkGraded [] 0 []).

(** [(scores.correct / scores.total) * 100]; every entry has counted an
    answer, so [total] is not zero. *)
Definition bookmarkScore (scores : Scores) : Q :=
  fmul (fdiv (inject_Z (Z.of_nat (correct scores)))
             (inject_Z (Z.of_nat (total scores)))) 100.

(** The loop over [Object.entries(bookmarkScores)]: the updates made
    before one fails stay, and the flag says whether all were made.  One
    reading [now] of the clock stands for the request. *)
Fixpoint reschedule (tz now : Z) (st : Store.t)
         (entries : list (string * Scores)) : Store.t * bool :=
  match entries with
  | [] => (st, true)
  | (bookmarkId, scores) :: rest =>
      match
        RevisionEngine.updateRevisionSchedule tz now st bookmarkId
          (bookmarkScore scores)
      with
      | None => (st, false)
      | Some (st', _) => reschedule tz now st' rest
      end
  end.

(** The JSON body of a successful reply. *)
Record DailyResponse : Type := mkDailyResponse {
  res_score : Q;
  res_correct : nat;
  res_total : nat;
  res_timeTaken : Q;
  res_results : list DailyResult;
  res_bookmarksReviewed : nat
}.

Inductive Reply : Type :=
| Json (r : DailyResponse)
| ValidationError            (* status 400 *)
| Failed.                    (* an exception handed to [next] *)

(** The handler of [POST /daily-review/submit]. *)
Definition submit (is_uuid : string -> bool) (tz now : Z) (st : Store.t)
           (body : DailyBody) : Store.t * Reply :=
  if negb (submitDailyQuizSchema is_uuid body) then (st, ValidationError)
  else
    let graded := grade st (answers body) in
    let totalQuestions := length (g_results graded) in
    let overallScore := Quiz.scoreOf (g_correctCount graded) totalQuestions in
    match reschedule tz now st (entries (g_bookmarkScores graded)) with
    | (st', false) => (st', Failed)
    | (st', true) =>
        (st',
         Json (mkDailyResponse (round2 overallScore) (g_correctCount graded)
                 totalQuestions (timeTaken body) (g_results graded)
                 (length (keys (g_bookmarkScores graded)))))
    end.

End DailyQuiz.


(** ** The daily review quiz, as a user reads it *)

Module DailyQuizSpec.
Import Js Store.

(** The entry of a key of [bookmarkScores], or the entry a first use
    starts from. *)
Definition entryOf (d : @dict string DailyQuiz.Scores) (k : string)
  : DailyQuiz.Scores :=
  match get String.eqb d k with
  | Some s => s
  | None => DailyQuiz.mkScores 0 0
  end.

(** The answers given to questions of a bookmark. *)
Definition answered (st : Store.t) (answers : list Quiz.Answer)
           (bookmarkId : string) : list Quiz.Answer :=
  filter (fun a => match findQuestion st (Quiz.questionId a) with
                   | Some q => String.eqb (q_bookmarkId q) bookmarkId
                   | None => false
                   end) answers.

(** The share of right answers among those given to questions of a
    bookmark, in percent. *)
Definition scoreOn (st : Store.t) (answers : list Quiz.Answer)
           (bookmarkId : string) : Q :=
  let given := answered st answers bookmarkId in
  fmul (fdiv (inject_Z
                (Z.of_nat (length (filter (SubmitSpec.judgedCorrect st) given))))
             (inject_Z (Z.of_nat (length given)))) 100.

(** The row of a bookmark after the quiz: reviewed and rescheduled on its
    own score when a question of it was answered, as it was otherwise. *)
Definition after (tz now : Z) (st : Store.t) (answers : list Quiz.Answer)
           (b : Bookmark) : Bookmark :=
  match answered st answers (b_id b) with
  | [] => b
  | _ :: _ =>
      SubmitSpec.reviewed now
        (RevisionEngine.calculateNextReviewDate tz now
           (scoreOn st answers (b_id b))) b
  end.

End DailyQuizSpec.


(** ** The analytics of a bookmark, as a user reads them *)

Module BookmarkAnalyticsSpec.
Import Js Store.

(** The answers stored with the attempts on a bookmark, oldest attempt
    first. *)
Definition answersOn (st : Store.t) (bookmarkId : string) : list UserAnswer :=
  flat_map (fun a => answersOf st (a_id a))
           (byAttemptedAtAsc (attemptsOf st bookmarkId)).

(** Those given to one question. *)
Definition answersTo (questionId : string) (l : list UserAnswer)
  : list UserAnswer :=
  filter (fun u => String.eqb (ua_questionId u) questionId) l.

Definition right (l : list UserAnswer) : nat :=
  length (filter ua_isCorrect l).

Definition wrong (l : list UserAnswer) : nat :=
  length (filter (fun u => negb (ua_isCorrect u)) l).

(** The entry of a key of [questionStats], or the entry a first use
    starts from. *)
Definition entryOf (st : Store.t) (d : @dict string AnalyticsService.QuestionStat)
           (k : string) : AnalyticsService.QuestionStat :=
  match get String.eqb d k with
  | Some q => q
  | None =>
      AnalyticsService.mkQuestionStat k
        (option_map q_questionText (findQuestion st k)) 0 0
  end.

(** The question of an element of [weakQuestions]. *)
Definition idOf (w : AnalyticsService.WeakQuestion) : string :=
  AnalyticsService.qs_questionId (AnalyticsService.wq_stat w).

(** The report on a question, from the answers given to it: its text,
    the numbers of right and of wrong answers, and the quotient of the
    number of right answers by the number of answers. *)
Definition reportOn (st : Store.t) (l : list UserAnswer) (k : string)
  : AnalyticsService.WeakQuestion :=
  let to := answersTo k l in
  AnalyticsService.mkWeakQuestion
    (AnalyticsService.mkQuestionStat k
       (option_map q_questionText (findQuestion st k)) (right to) (wrong to))
    (fdiv (inject_Z (Z.of_nat (right to))) (inject_Z (Z.of_nat (length to)))).

(** An element of [scoreProgression], from its attempt. *)
Definition progressOf (a : QuizAttempt) : AnalyticsService.Progress :=
  AnalyticsService.mkProgress (a_attemptedAt a) (a_score a) (a_timeTaken a).

End BookmarkAnalyticsSpec.


(** ** A bookmark as the scheduler leaves it *)

Module MoreExamples.
Import Js Store.

(** Reviewed at time 5000 with a score of 40: the next review is on the
    following day at nine. *)
Definition b_scheduled : Bookmark :=
  mkBookmark Examples.id_b1 "Scheduled" None (Some 5000)
             (Some (RevisionEngine.calculateNextReviewDate 0 5000 40)) 10.

Definition st_scheduled : Store.t :=
  mkStore [] [b_scheduled] []
          [mkQuizAttempt Examples.id_a1 Examples.id_b1 40 5 60 5000] [].

End MoreExamples.


(** ** Scores as percentages *)

Module ScoreSpec.
Import Js Store.

(** The score of every stored attempt lies between 0 and 100. *)
Definition Percentages (st : Store.t) : Prop :=
  Forall (fun a => (0 <= a_score a <= 100)%Q) (quizAttempts st).

End ScoreSpec.


(** ** The daily review, from the set of questions to the reply *)

Module DailyRoundSpec.
Import Js Store.

(** The body that answers every question of a review set, each with the
    answer [reply] gives. *)
Definition answerAll (reply : RevisionEngine.ReviewQuestion -> jsstring)
           (set : RevisionEngine.DailyReviewSet) (timeTaken : Q)
  : DailyQuiz.DailyBody :=
  DailyQuiz.mkDailyBody
    (map (fun rq => Quiz.mkAnswer (q_id (RevisionEngine.rq_question rq))
                                  (reply rq))
         (RevisionEngine.rs_questions set))
    timeTaken.

End DailyRoundSpec.

(* ================================================================== *)
(** * Part II: properties                                              *)
(* ================================================================== *)

(** ** Doubles *)

Section DoubleFacts.
Import Js.
Local Open Scope Q_scope.

Lemma pow2_pos (e : Z) : 0 < pow2 e.
Proof. apply Qpower_0_lt. reflexivity. Qed.

Lemma pow2_le (a b : Z) : (a <= b)%Z -> pow2 a <= pow2 b.
Proof. intros H. apply Qpower_le_compat_l; [exact H | discriminate]. Qed.

Lemma pow2_lt_inv (a b : Z) : pow2 a < pow2 b -> (a < b)%Z.
Proof. intros H. apply (Qpower_lt_compat_l_inv 2); [exact H | reflexivity]. Qed.

Lemma pow2_plus (a b : Z) : pow2 (a + b) == pow2 a * pow2 b.
Proof. apply Qpower_plus. discriminate. Qed.

Lemma pow2_inject (k : Z) : (0 <= k)%Z -> pow2 k == inject_Z (2 ^ k).
Proof. intros H. symmetry. apply (Zpower_Qpower 2 k H). Qed.

Lemma log2_bounds (n : Z) :
  (0 < n)%Z ->
  pow2 (Z.log2 n) <= inject_Z n /\ inject_Z n < pow2 (Z.log2 n + 1).
Proof.
  intros Hn. destruct (Z.log2_spec n Hn) as [H1 H2].
  pose proof (Z.log2_nonneg n) as H0.
  rewrite !pow2_inject by lia. split.
  - rewrite <- Zle_Qle. exact H1.
  - rewrite <- Zlt_Qlt. exact H2.
Qed.

Lemma Q_as_quotient (x : Q) :
  x * inject_Z (Zpos (Qden x)) == inject_Z (Qnum x).
Proof.
  destruct x as [n d]. unfold Qeq, Qmult, inject_Z. cbn [Qnum Qden]. lia.
Qed.

(** The exponent of a positive number. *)
Lemma exponent_spec (x : Q) :
  0 < x -> pow2 (exponent x) <= x /\ x < pow2 (exponent x + 1).
Proof.
  intros Hx.
  assert (Hn : (0 < Qnum x)%Z).
  { unfold Qlt in Hx. cbn in Hx. lia. }
  destruct (log2_bounds (Qnum x) Hn) as [Na Nb].
  destruct (log2_bounds (Zpos (Qden x)) eq_refl) as [Da Db].
  pose proof (Q_as_quotient x) as Hq.
  set (a := Z.log2 (Qnum x)) in *. set (b := Z.log2 (Zpos (Qden x))) in *.
  assert (Hup : x < pow2 (a - b + 1)).
  { apply Qmult_lt_r with (pow2 b); [apply pow2_pos |].
    rewrite <- pow2_plus. replace (a - b + 1 + b)%Z with (a + 1)%Z by lia.
    apply Qle_lt_trans with (inject_Z (Qnum x)); [| exact Nb].
    rewrite <- Hq. apply Qmult_le_l; [exact Hx | exact Da]. }
  assert (Hlo : pow2 (a - b - 1) < x).
  { apply Qmult_lt_r with (pow2 (b + 1)); [apply pow2_pos |].
    rewrite <- pow2_plus. replace (a - b - 1 + (b + 1))%Z with a by lia.
    apply Qle_lt_trans with (inject_Z (Qnum x)); [exact Na |].
    rewrite <- Hq. apply Qmult_lt_l; [exact Hx | exact Db]. }
  unfold exponent. cbv zeta. fold a b.
  destruct (Qle_bool (pow2 (a - b)) x) eqn:E.
  - apply Qle_bool_iff in E. split; [exact E | exact Hup].
  - split; [now apply Qlt_le_weak |].
    replace (a - b - 1 + 1)%Z with (a - b)%Z by lia.
    apply Qnot_le_lt. intros H. apply Qle_bool_iff in H. congruence.
Qed.

Lemma exponent_unique (x : Q) (e : Z) :
  pow2 e <= x -> x < pow2 (e + 1) -> 0 < x -> exponent x = e.
Proof.
  intros H1 H2 Hx. destruct (exponent_spec x Hx) as [E1 E2].
  assert (A : (e < exponent x + 1)%Z)
    by (apply pow2_lt_inv; now apply Qle_lt_trans with x).
  assert (B : (exponent x < e + 1)%Z)
    by (apply pow2_lt_inv; now apply Qle_lt_trans with x).
  lia.
Qed.

Lemma exponent_comp (x y : Q) : x == y -> 0 < x -> exponent x = exponent y.
Proof.
  intros E Hx. symmetry. destruct (exponent_spec x Hx) as [H1 H2].
  apply exponent_unique; rewrite <- ?E; trivial.
Qed.

Lemma exponent_mono (x y : Q) :
  0 < x -> x <= y -> (exponent x <= exponent y)%Z.
Proof.
  intros Hx Hxy.
  assert (Hy : 0 < y) by now apply Qlt_le_trans with x.
  destruct (exponent_spec x Hx) as [X1 _].
  destruct (exponent_spec y Hy) as [_ Y2].
  assert (A : (exponent x < exponent y + 1)%Z).
  { apply pow2_lt_inv. apply Qle_lt_trans with x; trivial.
    now apply Qle_lt_trans with y. }
  lia.
Qed.

Lemma nearestEven_comp (x y : Q) : x == y -> nearestEven x = nearestEven y.
Proof.
  intros E. unfold nearestEven. cbv zeta.
  rewrite (Qfloor_comp _ _ E).
  assert (E' : x - inject_Z (Qfloor y) == y - inject_Z (Qfloor y))
    by now rewrite E.
  now rewrite (Qcompare_comp _ _ E' (1 # 2) (1 # 2) (Qeq_refl _)).
Qed.

Lemma nearestEven_near (y : Q) :
  (Qfloor y <= nearestEven y <= Qfloor y + 1)%Z.
Proof.
  unfold nearestEven. cbv zeta.
  destruct (y - inject_Z (Qfloor y) ?= 1 # 2); [destruct (Z.even _) | |]; lia.
Qed.

Lemma nearestEven_Z (k : Z) : nearestEven (inject_Z k) = k.
Proof.
  unfold nearestEven. cbv zeta. rewrite Qfloor_Z.
  assert (E : inject_Z k - inject_Z k == 0) by ring.
  rewrite (Qcompare_comp _ _ E (1 # 2) (1 # 2) (Qeq_refl _)). reflexivity.
Qed.

Lemma nearestEven_mono (x y : Q) : x <= y -> (nearestEven x <= nearestEven y)%Z.
Proof.
  intros H. pose proof (Qfloor_resp_le _ _ H) as Hf.
  pose proof (nearestEven_near x) as Nx. pose proof (nearestEven_near y) as Ny.
  destruct (Z.eq_dec (Qfloor x) (Qfloor y)) as [E | E]; [| lia].
  unfold nearestEven in *. cbv zeta in *. rewrite E in *.
  assert (Hr : x - inject_Z (Qfloor y) <= y - inject_Z (Qfloor y))
    by (apply Qplus_le_l; exact H).
  destruct (Qcompare_spec (x - inject_Z (Qfloor y)) (1 # 2)) as [Ex | Lx | Gx];
    destruct (Qcompare_spec (y - inject_Z (Qfloor y)) (1 # 2)) as [Ey | Ly | Gy];
    try (exfalso; lra); try destruct (Z.even (Qfloor y)); lia.
Qed.

Lemma nearestEven_ge (k : Z) (y : Q) : inject_Z k <= y -> (k <= nearestEven y)%Z.
Proof. intros H. rewrite <- (nearestEven_Z k). now apply nearestEven_mono. Qed.

Lemma nearestEven_le (k : Z) (y : Q) : y <= inject_Z k -> (nearestEven y <= k)%Z.
Proof. intros H. rewrite <- (nearestEven_Z k). now apply nearestEven_mono. Qed.

Lemma Qle_bool_comp (a b c d : Q) :
  a == b -> c == d -> Qle_bool a c = Qle_bool b d.
Proof.
  intros E1 E2. destruct (Qle_bool b d) eqn:E.
  - apply Qle_bool_iff. apply Qle_bool_iff in E. now rewrite E1, E2.
  - destruct (Qle_bool a c) eqn:F; [| reflexivity].
    apply Qle_bool_iff in F. rewrite E1, E2 in F.
    apply Qle_bool_iff in F. congruence.
Qed.

Lemma nearest_comp (x y : Q) : x == y -> nearest x = nearest y.
Proof.
  intros E. unfold nearest.
  rewrite (Qle_bool_comp x y 0 0 E (Qeq_refl 0)).
  destruct (Qle_bool y 0) eqn:Hy; [reflexivity |].
  assert (Hx : 0 < x).
  { rewrite E. apply Qnot_le_lt. intros H. apply Qle_bool_iff in H. congruence. }
  cbv zeta. rewrite (exponent_comp x y E Hx).
  set (q := Z.max (exponent y - 52) (-1074)).
  assert (E' : x / pow2 q == y / pow2 q) by now rewrite E.
  now rewrite (nearestEven_comp _ _ E').
Qed.

Lemma double_comp (x y : Q) : x == y -> double x = double y.
Proof.
  intros E. unfold double.
  rewrite (Qle_bool_comp 0 0 x y (Qeq_refl 0) E).
  destruct (Qle_bool 0 y).
  - now apply nearest_comp.
  - f_equal. apply nearest_comp. now rewrite E.
Qed.

Lemma nearest_nonneg (x : Q) : 0 <= nearest x.
Proof.
  unfold nearest. destruct (Qle_bool x 0) eqn:E; [apply Qle_refl |].
  assert (Hx : 0 < x).
  { apply Qnot_le_lt. intros H. apply Qle_bool_iff in H. congruence. }
  cbv zeta. set (q := Z.max (exponent x - 52) (-1074)).
  apply Qmult_le_0_compat; [| apply Qlt_le_weak, pow2_pos].
  rewrite <- (Zle_Qle 0). apply nearestEven_ge.
  apply Qlt_le_weak. apply Qlt_shift_div_l; [apply pow2_pos |].
  now rewrite Qmult_0_l.
Qed.

Lemma nearest_zero (x : Q) : x <= 0 -> nearest x = 0.
Proof.
  intros H. unfold nearest. apply Qle_bool_iff in H. now rewrite H.
Qed.

(** On the grid of [x]. *)
Lemma nearest_pos (x : Q) :
  0 < x ->
  nearest x
  = inject_Z (nearestEven (x / pow2 (Z.max (exponent x - 52) (-1074))))
    * pow2 (Z.max (exponent x - 52) (-1074)).
Proof.
  intros Hx. unfold nearest. destruct (Qle_bool x 0) eqn:E; [| reflexivity].
  apply Qle_bool_iff in E. exfalso. apply (Qlt_irrefl 0).
  now apply Qlt_le_trans with x.
Qed.

Lemma scaled_le (x : Q) (q e : Z) :
  x <= pow2 e -> (q <= e)%Z ->
  inject_Z (nearestEven (x / pow2 q)) * pow2 q <= pow2 e.
Proof.
  intros Hx Hq.
  assert (He : pow2 e == inject_Z (2 ^ (e - q)) * pow2 q).
  { rewrite <- pow2_inject by lia. rewrite <- pow2_plus.
    now replace (e - q + q)%Z with e by lia. }
  rewrite He. apply Qmult_le_compat_r; [| apply Qlt_le_weak, pow2_pos].
  rewrite <- Zle_Qle. apply nearestEven_le.
  apply Qle_shift_div_r; [apply pow2_pos |]. now rewrite <- He.
Qed.

Lemma scaled_ge (x : Q) (q e : Z) :
  pow2 e <= x -> (q <= e)%Z ->
  pow2 e <= inject_Z (nearestEven (x / pow2 q)) * pow2 q.
Proof.
  intros Hx Hq.
  assert (He : pow2 e == inject_Z (2 ^ (e - q)) * pow2 q).
  { rewrite <- pow2_inject by lia. rewrite <- pow2_plus.
    now replace (e - q + q)%Z with e by lia. }
  rewrite He. apply Qmult_le_compat_r; [| apply Qlt_le_weak, pow2_pos].
  rewrite <- Zle_Qle. apply nearestEven_ge.
  apply Qle_shift_div_l; [apply pow2_pos |]. now rewrite <- He.
Qed.

Lemma nearest_mono_pos (x y : Q) : 0 < x -> x <= y -> nearest x <= nearest y.
Proof.
  intros Hx Hxy.
  assert (Hy : 0 < y) by now apply Qlt_le_trans with x.
  rewrite (nearest_pos x Hx), (nearest_pos y Hy).
  pose proof (exponent_mono x y Hx Hxy) as He.
  destruct (exponent_spec x Hx) as [_ X2].
  destruct (exponent_spec y Hy) as [Y1 _].
  set (qx := Z.max (exponent x - 52) (-1074)).
  set (qy := Z.max (exponent y - 52) (-1074)).
  destruct (Z.eq_dec qx qy) as [E | E].
  - rewrite E. apply Qmult_le_compat_r; [| apply Qlt_le_weak, pow2_pos].
    rewrite <- Zle_Qle. apply nearestEven_mono.
    apply Qmult_le_compat_r; [exact Hxy |].
    apply Qlt_le_weak, Qinv_lt_0_compat, pow2_pos.
  - assert (Hlt : (exponent x < exponent y)%Z) by lia.
    apply Qle_trans with (pow2 (exponent y)).
    + apply scaled_le; [| lia].
      apply Qle_trans with (pow2 (exponent x + 1));
        [now apply Qlt_le_weak | apply pow2_le; lia].
    + apply scaled_ge; [exact Y1 | lia].
Qed.

Lemma nearest_mono (x y : Q) : x <= y -> nearest x <= nearest y.
Proof.
  intros H. destruct (Qlt_le_dec 0 x) as [Hx | Hx].
  - now apply nearest_mono_pos.
  - rewrite (nearest_zero x Hx). apply nearest_nonneg.
Qed.

(** Rounding keeps the order. *)
Lemma double_mono (x y : Q) : x <= y -> double x <= double y.
Proof.
  intros H. unfold double.
  destruct (Qle_bool 0 x) eqn:Ex; destruct (Qle_bool 0 y) eqn:Ey.
  - now apply nearest_mono.
  - apply Qle_bool_iff in Ex. exfalso.
    assert (Hy : 0 <= y) by now apply Qle_trans with x.
    apply Qle_bool_iff in Hy. congruence.
  - apply Qle_trans with 0; [| apply nearest_nonneg].
    rewrite <- (Qopp_involutive 0). apply Qopp_le_compat.
    apply nearest_nonneg.
  - apply Qopp_le_compat. apply nearest_mono. now apply Qopp_le_compat.
Qed.

(** The scale of a percentage. *)
Lemma double_0 : double 0 = 0.
Proof. reflexivity. Qed.

Lemma double_1 : double 1 == 1.
Proof. vm_compute. reflexivity. Qed.

Lemma double_100 : double 100 == 100.
Proof. vm_compute. reflexivity. Qed.

Lemma double_10000 : double 10000 == 10000.
Proof. vm_compute. reflexivity. Qed.

Lemma double_range (x lo hi : Q) :
  double lo == lo -> double hi == hi -> lo <= x <= hi ->
  lo <= double x <= hi.
Proof.
  intros Hlo Hhi [H1 H2]. split.
  - apply Qle_trans with (double lo); [rewrite Hlo; apply Qle_refl |].
    now apply double_mono.
  - apply Qle_trans with (double hi); [| rewrite Hhi; apply Qle_refl].
    now apply double_mono.
Qed.

Lemma round_mono (x y : Q) : x <= y -> round x <= round y.
Proof.
  intros H. unfold round. rewrite <- Zle_Qle. apply Qfloor_resp_le.
  now apply Qplus_le_l.
Qed.

Lemma round_Z (k : Z) (x : Q) : x == inject_Z k -> round x == inject_Z k.
Proof.
  intros E. unfold round.
  assert (E' : x + (1 # 2) == inject_Z k + (1 # 2)) by now rewrite E.
  rewrite (Qfloor_comp _ _ E').
  assert (Hk : Qfloor (inject_Z k + (1 # 2)) = k).
  { pose proof (Qfloor_le (inject_Z k + (1 # 2))) as H1.
    pose proof (Qlt_floor (inject_Z k + (1 # 2))) as H2.
    set (f := Qfloor (inject_Z k + (1 # 2))) in *.
    unfold Qle, Qlt, Qplus, inject_Z in H1, H2. cbn [Qnum Qden] in H1, H2.
    change (Z.pos (1 * 2)) with 2%Z in H1, H2. lia. }
  now rewrite Hk.
Qed.

Lemma round2_comp (x y : Q) : x == y -> round2 x = round2 y.
Proof.
  intros E. unfold round2, fmul.
  assert (E' : x * 100 == y * 100) by now rewrite E.
  now rewrite (double_comp _ _ E').
Qed.

(** Rounding to two decimals keeps a value between whole bounds that
    are doubles, and so are their hundredfolds. *)
Lemma round2_between (x : Q) (lo hi : Z) :
  double (inject_Z lo) == inject_Z lo ->
  double (inject_Z hi) == inject_Z hi ->
  double (inject_Z (lo * 100)) == inject_Z (lo * 100) ->
  double (inject_Z (hi * 100)) == inject_Z (hi * 100) ->
  inject_Z lo <= x <= inject_Z hi ->
  inject_Z lo <= round2 x <= inject_Z hi.
Proof.
  intros Dlo Dhi Dlo' Dhi' [H1 H2]. unfold round2, fmul, fdiv.
  assert (A : inject_Z (lo * 100) <= double (x * 100) <= inject_Z (hi * 100)).
  { apply double_range; trivial. rewrite !inject_Z_mult. split;
      (apply Qmult_le_compat_r; [assumption | discriminate]). }
  destruct A as [A1 A2].
  assert (B1 : inject_Z (lo * 100) <= round (double (x * 100))).
  { rewrite <- (round_Z (lo * 100) (inject_Z (lo * 100)) (Qeq_refl _)).
    now apply round_mono. }
  assert (B2 : round (double (x * 100)) <= inject_Z (hi * 100)).
  { rewrite <- (round_Z (hi * 100) (inject_Z (hi * 100)) (Qeq_refl _)).
    now apply round_mono. }
  apply double_range; trivial. rewrite !inject_Z_mult in B1, B2. split.
  - apply Qle_shift_div_l; [reflexivity | exact B1].
  - apply Qle_shift_div_r; [reflexivity | exact B2].
Qed.

Lemma round2_range (x : Q) : 0 <= x <= 100 -> 0 <= round2 x <= 100.
Proof.
  intros H. apply (round2_between x 0 100); trivial;
    try (vm_compute; reflexivity).
Qed.

Lemma round2_trend (x : Q) : - (100) <= x <= 100 -> - (100) <= round2 x <= 100.
Proof.
  intros H. apply (round2_between x (-100) 100); trivial;
    try (vm_compute; reflexivity).
Qed.

(** A share of a whole, as a percentage. *)
Lemma percent_range (c t : Q) :
  0 <= c <= t -> 0 < t -> 0 <= fmul (fdiv c t) 100 <= 100.
Proof.
  intros [H0 H1] Ht.
  assert (Hq : 0 <= fdiv c t <= 1).
  { unfold fdiv. apply double_range; [reflexivity | apply double_1 |]. split.
    - apply Qle_shift_div_l; [exact Ht |]. now rewrite Qmult_0_l.
    - apply Qle_shift_div_r; [exact Ht |]. now rewrite Qmult_1_l. }
  unfold fmul. apply double_range; [reflexivity | apply double_100 |].
  destruct Hq as [Hq0 Hq1]. split.
  - apply Qmult_le_0_compat; [exact Hq0 | discriminate].
  - setoid_replace (100 : Q) with (1 * 100) at 2 by reflexivity.
    apply Qmult_le_compat_r; [exact Hq1 | discriminate].
Qed.

Lemma percent_count_range (c t : nat) :
  (c <= t)%nat -> (0 < t)%nat ->
  0 <= fmul (fdiv (inject_Z (Z.of_nat c)) (inject_Z (Z.of_nat t))) 100 <= 100.
Proof.
  intros Hc Ht. apply percent_range.
  - split; [rewrite <- (Zle_Qle 0) | rewrite <- Zle_Qle]; lia.
  - rewrite <- (Zlt_Qlt 0). lia.
Qed.

(** A share of a whole against one half: the quotient of two counts
    falls below one half exactly when the exact ratio does, as long as the
    counts are integers that a double holds. *)
Lemma half_above (c n : Z) :
  (0 < n)%Z -> (n <= 2 * c)%Z -> 1 # 2 <= fdiv (inject_Z c) (inject_Z n).
Proof.
  intros Hn Hc. unfold fdiv.
  apply Qle_trans with (double (1 # 2)); [vm_compute; discriminate |].
  apply double_mono. apply Qle_shift_div_l.
  - rewrite <- (Zlt_Qlt 0). exact Hn.
  - unfold Qle, Qmult, inject_Z. cbn [Qnum Qden]. lia.
Qed.

Lemma half_below (c n : Z) :
  (0 <= c)%Z -> (2 * c < n)%Z -> (n <= 2 ^ 53)%Z ->
  fdiv (inject_Z c) (inject_Z n) < 1 # 2.
Proof.
  intros H0 Hc Hn. unfold fdiv.
  set (p := (9007199254740991 # 18014398509481984)%Q).
  apply Qle_lt_trans with (double p).
  - apply double_mono. apply Qle_shift_div_r.
    + rewrite <- (Zlt_Qlt 0). lia.
    + unfold p, Qle, Qmult, inject_Z. cbn [Qnum Qden].
      change (2 ^ 53)%Z with 9007199254740992%Z in Hn. lia.
  - vm_compute. reflexivity.
Qed.

(** The loop of [reduce] is the sum as specified. *)
Lemma fold_fadd_total (xs : list Q) (acc : Q) :
  fold_left fadd xs acc = NumberSpec.total acc xs.
Proof.
  revert acc. induction xs as [|x xs IH]; intros acc; [reflexivity |].
  cbn [fold_left NumberSpec.total]. now rewrite IH.
Qed.

Lemma mean_averageOf (xs : list Q) : mean xs = NumberSpec.averageOf xs.
Proof. unfold mean, NumberSpec.averageOf, fdiv. now rewrite fold_fadd_total. Qed.

(** An integer below [2^53] is a double. *)
Lemma double_Z (k : Z) :
  (0 <= k < 2 ^ 53)%Z -> double (inject_Z k) == inject_Z k.
Proof.
  intros [H0 H1].
  destruct (Z.eq_dec k 0) as [-> | Hk]; [reflexivity |].
  assert (Hpos : 0 < inject_Z k) by (rewrite <- (Zlt_Qlt 0); lia).
  assert (Hle : Qle_bool 0 (inject_Z k) = true)
    by (apply Qle_bool_iff; now apply Qlt_le_weak).
  unfold double. rewrite Hle, (nearest_pos _ Hpos).
  set (e := exponent (inject_Z k)).
  destruct (exponent_spec _ Hpos) as [E1 E2]. fold e in E1, E2.
  assert (He : (e < 53)%Z).
  { apply pow2_lt_inv. apply Qle_lt_trans with (inject_Z k); [exact E1 |].
    rewrite (pow2_inject 53) by lia. rewrite <- Zlt_Qlt. exact H1. }
  assert (He0 : (0 < e + 1)%Z).
  { apply pow2_lt_inv. apply Qle_lt_trans with (inject_Z k); [| exact E2].
    rewrite (pow2_inject 0) by lia. rewrite <- Zle_Qle. change (2 ^ 0)%Z with 1%Z. lia. }
  rewrite Z.max_l by lia.
  assert (Hone : pow2 (52 - e) * pow2 (e - 52) == 1).
  { rewrite <- pow2_plus. replace (52 - e + (e - 52))%Z with 0%Z by lia.
    reflexivity. }
  assert (Hs : inject_Z k / pow2 (e - 52) == inject_Z (k * 2 ^ (52 - e))).
  { rewrite inject_Z_mult, <- (pow2_inject (52 - e)) by lia.
    assert (Hb : ~ pow2 (e - 52) == 0).
    { pose proof (pow2_pos (e - 52)) as P. intros E. rewrite E in P.
      discriminate P. }
    apply (Qmult_inj_r _ _ (pow2 (e - 52)) Hb).
    rewrite <- Qmult_assoc, Hone, Qmult_comm, Qmult_div_r by exact Hb.
    ring. }
  rewrite (nearestEven_comp _ _ Hs), nearestEven_Z.
  rewrite inject_Z_mult, <- (pow2_inject (52 - e)) by lia.
  rewrite <- Qmult_assoc, Hone. ring.
Qed.

(** The sum of percentages, and their average, in an array: the
    rounding does not take them out of range. *)
Lemma total_range (xs : list Q) (acc : Q) (k : Z) :
  Forall (fun x => 0 <= x <= 100) xs ->
  (0 <= k)%Z -> (100 * (k + Z.of_nat (length xs)) < 2 ^ 53)%Z ->
  0 <= acc <= inject_Z (100 * k) ->
  0 <= NumberSpec.total acc xs
  <= inject_Z (100 * (k + Z.of_nat (length xs))).
Proof.
  intros Hxs. revert acc k.
  induction Hxs as [|x xs [Hx0 Hx1] _ IH]; intros acc k Hk Hn [Ha0 Ha1].
  - cbn [NumberSpec.total length]. rewrite Z.add_0_r. now split.
  - cbn [NumberSpec.total]. cbn [length] in Hn.
    replace (k + Z.of_nat (length (x :: xs)))%Z
      with (k + 1 + Z.of_nat (length xs))%Z by (cbn [length]; lia).
    apply IH; [lia | lia |].
    apply double_range; [reflexivity | apply double_Z; lia |].
    split.
    + rewrite <- (Qplus_0_r 0). now apply Qplus_le_compat.
    + replace (100 * (k + 1))%Z with (100 * k + 100)%Z by lia.
      rewrite inject_Z_plus. now apply Qplus_le_compat.
Qed.

Lemma mean_range (xs : list Q) :
  Forall (fun x => 0 <= x <= 100) xs ->
  (0 < length xs)%nat -> (Z.of_nat (length xs) < 2 ^ 32)%Z ->
  0 <= mean xs <= 100.
Proof.
  intros Hxs Hpos Hlen. rewrite mean_averageOf. unfold NumberSpec.averageOf.
  assert (Hn : (100 * (0 + Z.of_nat (length xs)) < 2 ^ 53)%Z).
  { change (2 ^ 32)%Z with 4294967296%Z in Hlen.
    change (2 ^ 53)%Z with 9007199254740992%Z. lia. }
  destruct (total_range xs 0 0 Hxs (Z.le_refl 0) Hn) as [T0 T1];
    [split; apply Qle_refl |].
  assert (Hq : 0 < inject_Z (Z.of_nat (length xs)))
    by (rewrite <- (Zlt_Qlt 0); lia).
  apply double_range; [reflexivity | apply double_100 |]. split.
  - apply Qle_shift_div_l; [exact Hq |]. now rewrite Qmult_0_l.
  - apply Qle_shift_div_r; [exact Hq |].
    rewrite Z.add_0_l, inject_Z_mult in T1. exact T1.
Qed.

End DoubleFacts.

(** ** Strings *)

Section StringFacts.
Import Js.

Lemma startsWith_prefix (s sub : jsstring) :
  startsWith s sub = true <-> exists suf, s = sub ++ suf.
Proof.
  revert s; induction sub as [|c sub IH]; intros s; simpl.
  - split; [intros _; now exists s | reflexivity].
  - destruct s as [|d s]; simpl.
    + split; [discriminate | intros [suf H]; discriminate].
    + rewrite andb_true_iff, Ascii.eqb_eq, IH. split.
      * intros [-> [suf ->]]. now exists suf.
      * intros [suf H]. injection H as -> ->. split; [reflexivity | now exists suf].
Qed.

Lemma includes_nil (s : jsstring) : includes s [] = true.
Proof. destruct s; reflexivity. Qed.

End StringFacts.

Section EvaluatorFacts.
Import Js Store Quiz QuizSpec.

Lemma includes_Substring (s sub : jsstring) :
  includes s sub = true <-> Substring sub s.
Proof.
  unfold Substring. induction s as [|d s IH]; simpl.
  - rewrite orb_false_r, startsWith_prefix. split.
    + intros [suf ->]. now exists [], suf.
    + intros [pre [suf H]]. destruct pre; [| discriminate].
      now exists suf.
  - rewrite orb_true_iff, startsWith_prefix, IH. split.
    + intros [[suf H] | [pre [suf ->]]].
      * exists [], suf. exact H.
      * now exists (d :: pre), suf.
    + intros [pre [suf H]]. destruct pre as [|e pre]; simpl in H.
      * left. now exists suf.
      * right. injection H as _ ->. now exists pre, suf.
Qed.

(** The test the evaluator runs on a key term decides [Matched]. *)
Lemma matched_test (selectedAnswer w : jsstring) :
  existsb (fun sw => includes sw w || includes w sw)
          (tokens selectedAnswer) = true
  <-> Matched selectedAnswer w.
Proof.
  unfold Matched. rewrite existsb_exists.
  split; intros [sw [Hin H]]; exists sw; split; trivial.
  - apply orb_true_iff in H.
    destruct H as [H | H]; apply includes_Substring in H; tauto.
  - apply orb_true_iff.
    destruct H as [H | H]; apply includes_Substring in H; tauto.
Qed.

Lemma CountOf_filter {A} (P : A -> Prop) (p : A -> bool) (l : list A) (n : nat) :
  (forall x, p x = true <-> P x) ->
  CountOf P l n -> n = length (filter p l).
Proof.
  intros Hp H. induction H as [|x l n Hx _ IH|x l n Hx _ IH]; simpl.
  - reflexivity.
  - apply Hp in Hx. rewrite Hx. simpl. now f_equal.
  - destruct (p x) eqn:E; [apply Hp in E; contradiction | exact IH].
Qed.

(** Every list has a count, so the hypothesis of the theorem below can
    always be met. *)
Lemma CountOf_total {A} (P : A -> Prop) (p : A -> bool) (l : list A) :
  (forall x, p x = true <-> P x) ->
  CountOf P l (length (filter p l)).
Proof.
  intros Hp. induction l as [|x l IH]; simpl.
  - constructor.
  - destruct (p x) eqn:E; simpl.
    + apply CountOf_yes; [now apply Hp | exact IH].
    + apply CountOf_no; [| exact IH].
      intros HP. apply Hp in HP. congruence.
Qed.

(** [m / k >= 0.5] on two array lengths: false when both are zero. *)
Lemma ge_half_div_lengths (m k : nat) :
  (m <= k)%nat ->
  ge (div_lengths m k) (1 # 2) = true <-> (k <> 0 /\ k <= 2 * m)%nat.
Proof.
  intros Hmk. destruct k as [|k]; cbn [div_lengths ge].
  - assert (m = 0%nat) as -> by lia. split; [discriminate | lia].
  - rewrite Qle_bool_iff. unfold Qle; cbn [Qnum Qden].
    rewrite <- Pos.of_nat_succ, Zpos_P_of_succ_nat. split; intros H.
    + split; [discriminate | lia].
    + lia.
Qed.

End EvaluatorFacts.

(** C1.  On a question of type short or scenario the evaluator answers true
    exactly when the correct answer has at least one key term and at least
    half of its key terms are matched; the key terms are the white-space
    tokens of the lower-cased, trimmed correct answer that are longer than
    three characters, and a key term is matched when it occurs in a token of
    the submitted answer or such a token occurs in it.  With no key term the
    answer is false. *)
Theorem checkAnswer_short_scenario
  (question : Store.Question) (selectedAnswer : Js.jsstring) (n : nat) :
  Store.q_type question = Store.Short \/ Store.q_type question = Store.Scenario ->
  QuizSpec.CountOf (QuizSpec.Matched selectedAnswer)
                   (QuizSpec.keyTerms (Store.q_correctAnswer question)) n ->
  Quiz.checkAnswer question selectedAnswer = true
  <-> (QuizSpec.keyTerms (Store.q_correctAnswer question) <> []
       /\ (length (QuizSpec.keyTerms (Store.q_correctAnswer question)) <= 2 * n)%nat).
Proof.
  intros Hty Hn.
  apply (CountOf_filter _ _ _ _ (matched_test selectedAnswer)) in Hn.
  set (terms := QuizSpec.keyTerms (Store.q_correctAnswer question)) in *.
  assert (Hcode : Quiz.checkAnswer question selectedAnswer
                  = Js.ge (Js.div_lengths n (length terms)) (1 # 2)).
  { unfold Quiz.checkAnswer. rewrite Hn.
    destruct Hty as [-> | ->]; reflexivity. }
  rewrite Hcode, ge_half_div_lengths.
  - split; intros [H1 H2]; split; trivial.
    + intros E. rewrite E in H1. now apply H1.
    + intros E. apply H1. now apply length_zero_iff_nil.
  - rewrite Hn. apply filter_length_le.
Qed.

Lemma checkAnswer_short_scenario_witness :
  (Store.q_type Examples.q_photo = Store.Short
   \/ Store.q_type Examples.q_photo = Store.Scenario)
  /\ QuizSpec.CountOf (QuizSpec.Matched (Js.str " LIGHT  energy "))
       (QuizSpec.keyTerms (Store.q_correctAnswer Examples.q_photo)) 2
  /\ (Quiz.checkAnswer Examples.q_photo (Js.str " LIGHT  energy ") = true
      <-> (QuizSpec.keyTerms (Store.q_correctAnswer Examples.q_photo) <> []
           /\ (length (QuizSpec.keyTerms (Store.q_correctAnswer Examples.q_photo))
               <= 2 * 2)%nat)).
Proof.
  assert (Hty : Store.q_type Examples.q_photo = Store.Short
                \/ Store.q_type Examples.q_photo = Store.Scenario)
    by (left; reflexivity).
  assert (Hn : QuizSpec.CountOf (QuizSpec.Matched (Js.str " LIGHT  energy "))
                 (QuizSpec.keyTerms (Store.q_correctAnswer Examples.q_photo)) 2)
    by exact (CountOf_total _ _ _ (matched_test (Js.str " LIGHT  energy "))).
  split; [exact Hty | split; [exact Hn |]].
  exact (checkAnswer_short_scenario Examples.q_photo
           (Js.str " LIGHT  energy ") 2 Hty Hn).
Defined.

(** The case the specification leaves open: a correct answer without any
    key term divides zero by zero, and the comparison with [NaN] fails. *)
Lemma checkAnswer_no_key_term (question : Store.Question) (selectedAnswer : Js.jsstring) :
  Store.q_type question = Store.Short \/ Store.q_type question = Store.Scenario ->
  QuizSpec.keyTerms (Store.q_correctAnswer question) = [] ->
  Quiz.checkAnswer question selectedAnswer = false.
Proof.
  intros Hty H. unfold Quiz.checkAnswer.
  unfold QuizSpec.keyTerms, QuizSpec.tokens, QuizSpec.normalise in H.
  destruct Hty as [-> | ->]; rewrite H; reflexivity.
Qed.

(** C10.  On a flashcard question, a submitted answer that is empty once
    lower-cased and trimmed is judged correct: the empty string occurs in
    every correct answer. *)
Theorem checkAnswer_flashcard_blank
  (question : Store.Question) (selectedAnswer : Js.jsstring) :
  Store.q_type question = Store.Flashcard ->
  Js.trim (Js.toLowerCase selectedAnswer) = [] ->
  Quiz.checkAnswer question selectedAnswer = true.
Proof.
  intros Hty Hblank. unfold Quiz.checkAnswer.
  rewrite Hty, Hblank, includes_nil. reflexivity.
Qed.

Lemma checkAnswer_flashcard_blank_witness :
  Store.q_type Examples.q_paris = Store.Flashcard
  /\ Js.trim (Js.toLowerCase (Js.str "   ")) = []
  /\ Quiz.checkAnswer Examples.q_paris (Js.str "   ") = true.
Proof.
  split; [reflexivity | split; [reflexivity |]].
  apply (checkAnswer_flashcard_blank Examples.q_paris (Js.str "   "));
    reflexivity.
Defined.

(** ** Dates *)

Section DateFacts.
Import Date.

Lemma msPerDay_pos : 0 < msPerDay.
Proof. reflexivity. Qed.

Lemma Day_MakeDate (d t : Z) :
  0 <= t < msPerDay -> Day (MakeDate d t) = d.
Proof.
  intros Ht. unfold Day, MakeDate.
  rewrite Z.add_comm, Z.div_add by (pose proof msPerDay_pos; lia).
  rewrite Z.div_small by exact Ht. reflexivity.
Qed.

Lemma TimeWithinDay_MakeDate (d t : Z) :
  0 <= t < msPerDay -> TimeWithinDay (MakeDate d t) = t.
Proof.
  intros Ht. unfold TimeWithinDay, MakeDate.
  rewrite Z.add_comm, Z.mod_add by (pose proof msPerDay_pos; lia).
  now apply Z.mod_small.
Qed.

Lemma TimeWithinDay_range (t : Z) : 0 <= TimeWithinDay t < msPerDay.
Proof. apply Z.mod_pos_bound, msPerDay_pos. Qed.

Lemma MakeDate_Day (t : Z) : MakeDate (Day t) (TimeWithinDay t) = t.
Proof.
  unfold MakeDate, Day, TimeWithinDay.
  pose proof (Z.div_mod t msPerDay) as H.
  pose proof msPerDay_pos. lia.
Qed.

(** With a fixed offset, moving the day of the month by [n] moves the
    time value by [n] days. *)
Lemma addDays_shift (tz t n : Z) : addDays tz t n = t + n * msPerDay.
Proof.
  unfold addDays, UTC.
  pose proof (MakeDate_Day (LocalTime tz t)) as H.
  unfold MakeDate, LocalTime in *. lia.
Qed.

Lemma Day_shift (t n : Z) : Day (t + n * msPerDay) = Day t + n.
Proof. unfold Day. apply Z.div_add. pose proof msPerDay_pos. lia. Qed.

Lemma localDay_addDays (tz t n : Z) :
  localDay tz (addDays tz t n) = localDay tz t + n.
Proof.
  unfold localDay. rewrite addDays_shift. unfold LocalTime.
  replace (t + n * msPerDay + tz) with (t + tz + n * msPerDay) by lia.
  apply Day_shift.
Qed.

Lemma localDay_setHours (tz t h m s ms : Z) :
  0 <= MakeTime h m s ms < msPerDay ->
  localDay tz (setHours tz t h m s ms) = localDay tz t.
Proof.
  intros H. unfold localDay, setHours, UTC, LocalTime.
  replace (MakeDate (Day (t + tz)) (MakeTime h m s ms) - tz + tz)
    with (MakeDate (Day (t + tz)) (MakeTime h m s ms)) by lia.
  now apply Day_MakeDate.
Qed.

Lemma localTimeOfDay_setHours (tz t h m s ms : Z) :
  0 <= MakeTime h m s ms < msPerDay ->
  localTimeOfDay tz (setHours tz t h m s ms) = MakeTime h m s ms.
Proof.
  intros H. unfold localTimeOfDay, setHours, UTC, LocalTime.
  replace (MakeDate (Day (t + tz)) (MakeTime h m s ms) - tz + tz)
    with (MakeDate (Day (t + tz)) (MakeTime h m s ms)) by lia.
  now apply TimeWithinDay_MakeDate.
Qed.

Lemma nine_oclock : 0 <= MakeTime 9 0 0 0 < msPerDay.
Proof. split; [discriminate | reflexivity]. Qed.

End DateFacts.

(** The three tiers of the schedule. *)
Lemma calculateNextReviewDate_days (tz now : Z) (score : Q) :
  Date.localDay tz (RevisionEngine.calculateNextReviewDate tz now score)
  = Date.localDay tz now
    + (if Qle_bool 80 score then 5 else if Qle_bool 50 score then 3 else 1).
Proof.
  unfold RevisionEngine.calculateNextReviewDate. cbv zeta.
  now rewrite localDay_setHours, localDay_addDays by apply nine_oclock.
Qed.

Lemma calculateNextReviewDate_day1 (tz now : Z) :
  Date.localDay tz (RevisionEngine.calculateNextReviewDate tz now 0)
  = Date.localDay tz now + 1.
Proof. apply calculateNextReviewDate_days. Qed.

(** C2.  The next review falls on the local calendar day of the attempt
    plus 5 days for a score of at least 80, plus 3 days for a score from 50
    up to (not including) 80, and plus 1 day for a score below 50; its local
    time of day is 09:00:00.000 whatever the time of the attempt. *)
Theorem calculateNextReviewDate_schedule (tz now : Z) (score : Q) :
  let next := RevisionEngine.calculateNextReviewDate tz now score in
  Date.localTimeOfDay tz next = Date.MakeTime 9 0 0 0
  /\ ((80 <= score)%Q -> Date.localDay tz next = Date.localDay tz now + 5)
  /\ ((50 <= score)%Q /\ (score < 80)%Q ->
      Date.localDay tz next = Date.localDay tz now + 3)
  /\ ((score < 50)%Q -> Date.localDay tz next = Date.localDay tz now + 1).
Proof.
  unfold RevisionEngine.calculateNextReviewDate. cbv zeta.
  split; [apply localTimeOfDay_setHours, nine_oclock |].
  fold (RevisionEngine.calculateNextReviewDate tz now score).
  rewrite calculateNextReviewDate_days.
  destruct (Qle_bool 80 score) eqn:E80; [| destruct (Qle_bool 50 score) eqn:E50].
  - apply Qle_bool_iff in E80. repeat split; trivial.
    + intros [_ H]. exfalso. exact (Qlt_not_le _ _ H E80).
    + intros H. exfalso. apply (Qlt_not_le _ _ H).
      apply Qle_trans with (2 := E80). discriminate.
  - apply Qle_bool_iff in E50. repeat split; trivial.
    + intros H. apply Qle_bool_iff in H. congruence.
    + intros H. exfalso. exact (Qlt_not_le _ _ H E50).
  - repeat split; trivial.
    + intros H. apply Qle_bool_iff in H. congruence.
    + intros [H _]. apply Qle_bool_iff in H. congruence.
Qed.

Lemma calculateNextReviewDate_schedule_witness :
  let tz := 19800000 in
  let now := 1767285000123 in
  ((80 <= 95)%Q
   /\ Date.localDay tz (RevisionEngine.calculateNextReviewDate tz now 95)
      = Date.localDay tz now + 5)
  /\ (((50 <= 65)%Q /\ (65 < 80)%Q)
      /\ Date.localDay tz (RevisionEngine.calculateNextReviewDate tz now 65)
         = Date.localDay tz now + 3)
  /\ ((30 < 50)%Q
      /\ Date.localDay tz (RevisionEngine.calculateNextReviewDate tz now 30)
         = Date.localDay tz now + 1).
Proof.
  intros tz now.
  assert (H95 : (80 <= 95)%Q) by discriminate.
  assert (H65 : (50 <= 65)%Q /\ (65 < 80)%Q) by (split; [discriminate | reflexivity]).
  assert (H30 : (30 < 50)%Q) by reflexivity.
  split; [split; [exact H95 |] | split; [split; [exact H65 |] | split; [exact H30 |]]].
  - exact (proj1 (proj2 (calculateNextReviewDate_schedule tz now 95)) H95).
  - exact (proj1 (proj2 (proj2 (calculateNextReviewDate_schedule tz now 65))) H65).
  - exact (proj2 (proj2 (proj2 (calculateNextReviewDate_schedule tz now 30))) H30).
Defined.

(** ** Sorting *)

Section SortFacts.
Context {A : Type} (leb : A -> A -> bool).

Lemma insert_Permutation (x : A) (l : list A) :
  Permutation (Js.insert leb x l) (x :: l).
Proof.
  induction l as [|y l IH]; simpl; [reflexivity |].
  destruct (leb x y); [reflexivity |].
  rewrite IH. apply perm_swap.
Qed.

Lemma sort_Permutation (l : list A) : Permutation (Js.sort leb l) l.
Proof.
  induction l as [|x l IH]; simpl; [reflexivity |].
  rewrite insert_Permutation. now constructor.
Qed.

Lemma sort_length (l : list A) : length (Js.sort leb l) = length l.
Proof. apply Permutation_length, sort_Permutation. Qed.

Lemma sort_In (l : list A) (x : A) : In x (Js.sort leb l) <-> In x l.
Proof.
  split; apply Permutation_in;
    [| apply Permutation_sym]; apply sort_Permutation.
Qed.

Hypothesis leb_total : forall a b, leb a b = false -> leb b a = true.
Hypothesis leb_trans :
  forall a b c, leb a b = true -> leb b c = true -> leb a c = true.

Let le (a b : A) : Prop := leb a b = true.

Lemma insert_sorted (x : A) (l : list A) :
  StronglySorted le l -> StronglySorted le (Js.insert leb x l).
Proof.
  induction 1 as [|y l Hl IH Hy]; simpl.
  - repeat constructor.
  - destruct (leb x y) eqn:E.
    + constructor; [now constructor |].
      constructor; [exact E |].
      eapply Forall_impl; [| exact Hy].
      intros z Hz. exact (leb_trans _ _ _ E Hz).
    + constructor; [exact IH |].
      apply (Permutation_Forall (Permutation_sym (insert_Permutation x l))).
      constructor; [apply leb_total, E | exact Hy].
Qed.

Lemma sort_sorted (l : list A) : StronglySorted le (Js.sort leb l).
Proof.
  induction l as [|x l IH]; simpl; [constructor | now apply insert_sorted].
Qed.

(** Selecting rows before or after ordering them makes no difference. *)
Lemma filter_insert (p : A -> bool) (x : A) (l : list A) :
  StronglySorted le l ->
  filter p (Js.insert leb x l)
  = if p x then Js.insert leb x (filter p l) else filter p l.
Proof.
  induction 1 as [|y l Hl IH Hy]; simpl.
  - now destruct (p x).
  - destruct (leb x y) eqn:E; simpl.
    + destruct (p x) eqn:Px, (p y) eqn:Py; simpl; rewrite ?E; try reflexivity.
      assert (Hx : Forall (fun z => leb x z = true) (filter p l)).
      { apply Forall_forall. intros z Hz. apply filter_In in Hz.
        rewrite Forall_forall in Hy.
        exact (leb_trans _ _ _ E (Hy z (proj1 Hz))). }
      destruct (filter p l) as [|z l']; simpl; [reflexivity |].
      inversion Hx as [|? ? Hz _]; subst. now rewrite Hz.
    + rewrite IH.
      destruct (p x), (p y); simpl; rewrite ?E; reflexivity.
Qed.

Lemma filter_sort (p : A -> bool) (l : list A) :
  filter p (Js.sort leb l) = Js.sort leb (filter p l).
Proof.
  induction l as [|x l IH]; simpl; [reflexivity |].
  rewrite filter_insert by apply sort_sorted.
  rewrite IH. now destruct (p x).
Qed.

End SortFacts.

Lemma StronglySorted_impl {A} (R S : A -> A -> Prop) (l : list A) :
  (forall a b, R a b -> S a b) -> StronglySorted R l -> StronglySorted S l.
Proof.
  intros HRS. induction 1 as [|x l _ IH Hx]; constructor; trivial.
  eapply Forall_impl; [| exact Hx]. intros; now apply HRS.
Qed.

Lemma In_firstn {A} (n : nat) (l : list A) (x : A) :
  In x (firstn n l) -> In x l.
Proof.
  intros H. rewrite <- (firstn_skipn n l). apply in_or_app. now left.
Qed.

(** ** Due bookmarks *)

Section DueFacts.
Import Js Store RevisionEngine RevisionSpec.

Lemma dueWhere_IsDue (now : Z) (b : Bookmark) :
  dueWhere now b = true <-> IsDue now b.
Proof.
  unfold dueWhere, IsDue, lte, is_null.
  destruct (b_nextReviewAt b) as [t|], (b_lastReviewedAt b) as [r|]; simpl.
  - rewrite orb_false_r, Z.leb_le. split.
    + intros H. left. now exists t.
    + intros [[t' [E H]] | [E _]]; [now injection E as -> | discriminate].
  - rewrite orb_false_r, Z.leb_le. split.
    + intros H. left. now exists t.
    + intros [[t' [E H]] | [E _]]; [now injection E as -> | discriminate].
  - split; [discriminate |].
    intros [[t' [E _]] | [_ E]]; discriminate.
  - split; [intros _; now right | reflexivity].
Qed.

Ltac order_cases :=
  unfold leb_of_compare, dueOrder, compare_nullable;
  repeat match goal with
         | |- context [b_nextReviewAt ?x] =>
             destruct (b_nextReviewAt x) as [?|]
         | |- context [match ?n with NullsFirst => _ | NullsLast => _ end] =>
             destruct n
         | |- context [?x ?= ?y] => destruct (Z.compare_spec x y)
         end;
  intros; subst; try reflexivity; try discriminate; try lia.

Lemma dueOrder_total (nulls : NullsOrder) (a b : Bookmark) :
  leb_of_compare (dueOrder nulls) a b = false ->
  leb_of_compare (dueOrder nulls) b a = true.
Proof. order_cases. Qed.

Lemma dueOrder_trans (nulls : NullsOrder) (a b c : Bookmark) :
  leb_of_compare (dueOrder nulls) a b = true ->
  leb_of_compare (dueOrder nulls) b c = true ->
  leb_of_compare (dueOrder nulls) a c = true.
Proof. order_cases. Qed.

Lemma dueOrder_DueBefore (nulls : NullsOrder) (a b : Bookmark) :
  leb_of_compare (dueOrder nulls) a b = true <-> DueBefore nulls a b.
Proof.
  unfold DueBefore, NullableLt, leb_of_compare, dueOrder, compare_nullable.
  destruct (b_nextReviewAt a) as [x|], (b_nextReviewAt b) as [y|], nulls;
    try destruct (Z.compare_spec x y);
    try destruct (Z.compare_spec (b_createdAt a) (b_createdAt b));
    split; intros HH; subst; try reflexivity; try discriminate;
    try (left; (reflexivity || lia)); try (right; split; (reflexivity || lia));
    try (destruct HH as [HH | [HH1 HH2]];
         try discriminate; try injection HH1 as HH1; lia).
Qed.

Lemma bookmarks_of_loadDue (st : Store.t) (l : list Bookmark) :
  map d_bookmark (map (loadDue st) l) = l.
Proof. rewrite map_map. simpl. apply map_id. Qed.

(** The rows [getDueBookmarks] returns, whatever the placement of NULL. *)
Lemma getDueBookmarks_DueList (nulls : NullsOrder) (now : Z) (st : Store.t)
      (limit : nat) :
  DueList nulls now st limit
          (map d_bookmark (getDueBookmarks nulls now st limit)).
Proof.
  exists (dueWhere now),
    (sort (leb_of_compare (dueOrder nulls))
          (filter (dueWhere now) (bookmarks st))).
  split; [apply dueWhere_IsDue |].
  split; [apply sort_Permutation |].
  split.
  - eapply StronglySorted_impl.
    + intros a b. apply dueOrder_DueBefore.
    + apply sort_sorted; [apply dueOrder_total | apply dueOrder_trans].
  - unfold getDueBookmarks. apply bookmarks_of_loadDue.
Qed.

Lemma getDueBookmarks_length (nulls : NullsOrder) (now : Z) (st : Store.t)
      (limit : nat) :
  (length (getDueBookmarks nulls now st limit) <= limit)%nat.
Proof.
  unfold getDueBookmarks. rewrite length_map. apply firstn_le_length.
Qed.

End DueFacts.

(** C3, as the code has it.  On PostgreSQL, [getDueBookmarks] returns the
    first [limit] of the bookmarks that are due (next review not after
    [now], or never reviewed), ranked by ascending [nextReviewAt] with the
    bookmarks without a next review placed last, ties broken by ascending
    creation time; the list has at most [limit] elements. *)
Theorem getDueBookmarks_postgres (now : Z) (st : Store.t) (limit : nat) :
  let result :=
    map RevisionEngine.d_bookmark
        (RevisionEngine.getDueBookmarks Store.postgres now st limit) in
  RevisionSpec.DueList Store.NullsLast now st limit result
  /\ (length result <= limit)%nat.
Proof.
  split.
  - apply (getDueBookmarks_DueList Store.NullsLast).
  - rewrite length_map. apply getDueBookmarks_length.
Qed.

(** C3, as the claim has it, fails: with one bookmark due since time 1000
    and one never reviewed, the reviewed one comes first. *)
Lemma getDueBookmarks_nulls_first_fails :
  map RevisionEngine.d_bookmark
      (RevisionEngine.getDueBookmarks Store.postgres 5000 Examples.st_due 10)
  = [Examples.b_reviewed; Examples.b_new]
  /\ ~ RevisionSpec.DueList Store.NullsFirst 5000 Examples.st_due 10
         (map RevisionEngine.d_bookmark
            (RevisionEngine.getDueBookmarks Store.postgres 5000
               Examples.st_due 10)).
Proof.
  split; [reflexivity |].
  intros [due [ranked [_ [Hperm [Hsorted Heq]]]]].
  assert (Hlen : (length ranked <= 10)%nat).
  { rewrite (Permutation_length Hperm).
    etransitivity; [apply filter_length_le | simpl; lia]. }
  rewrite (firstn_all2 _ Hlen) in Heq.
  change (map RevisionEngine.d_bookmark
            (RevisionEngine.getDueBookmarks Store.postgres 5000
               Examples.st_due 10))
    with [Examples.b_reviewed; Examples.b_new] in Heq.
  subst ranked. inversion Hsorted as [|x l _ Hhd]; subst.
  inversion Hhd as [|y l' Hbefore _]; subst.
  destruct Hbefore as [H | [H _]]; discriminate H.
Qed.

(** ** Weakest bookmarks *)

Section WeakestFacts.
Import Js Store RevisionEngine RevisionSpec.

Lemma weakLeb_total (a b : WeakBookmark) :
  weakLeb a b = false -> weakLeb b a = true.
Proof.
  unfold weakLeb. intros H. apply Qle_bool_iff.
  destruct (Qlt_le_dec (w_avgRecentScore b) (w_avgRecentScore a)) as [L | L].
  - now apply Qlt_le_weak.
  - apply Qle_bool_iff in L. congruence.
Qed.

Lemma weakLeb_trans (a b c : WeakBookmark) :
  weakLeb a b = true -> weakLeb b c = true -> weakLeb a c = true.
Proof.
  unfold weakLeb. rewrite !Qle_bool_iff. apply Qle_trans.
Qed.

Lemma byAttemptedAtDesc_recent (st : Store.t) (id : string) :
  MostRecentFirst st id (byAttemptedAtDesc (attemptsOf st id)).
Proof.
  split; [apply sort_Permutation |].
  eapply StronglySorted_impl.
  - intros a b H. apply Z.leb_le. exact H.
  - apply sort_sorted.
    + intros a b H. apply Z.leb_gt in H. apply Z.leb_le. lia.
    + intros a b c H1 H2. apply Z.leb_le in H1, H2. apply Z.leb_le. lia.
Qed.

Lemma insert_not_nil {A} (leb : A -> A -> bool) (x : A) (l : list A) :
  insert leb x l <> [].
Proof. destruct l; simpl; [| destruct (leb x a)]; discriminate. Qed.

Lemma recent_attempts_nil (st : Store.t) (b : Bookmark) :
  firstn 3 (byAttemptedAtDesc (attemptsOf st (b_id b))) = []
  <-> attemptsOf st (b_id b) = [].
Proof.
  unfold byAttemptedAtDesc.
  destruct (attemptsOf st (b_id b)) as [|a l]; simpl; [tauto |].
  split; [| discriminate].
  destruct (insert _ a _) eqn:E; [| discriminate].
  now apply insert_not_nil in E.
Qed.

Lemma attemptCount_hasAttempts (st : Store.t) (b : Bookmark) :
  (0 <? w_attemptCount (scoreBookmark st b))%nat = hasAttempts st b.
Proof.
  unfold hasAttempts.
  change (w_attemptCount (scoreBookmark st b))
    with (length (firstn 3 (byAttemptedAtDesc (attemptsOf st (b_id b))))).
  pose proof (recent_attempts_nil st b) as H.
  destruct (firstn 3 (byAttemptedAtDesc (attemptsOf st (b_id b)))) as [|x r].
  - rewrite (proj1 H eq_refl). reflexivity.
  - destruct (attemptsOf st (b_id b)); [| reflexivity].
    destruct H as [_ H]. discriminate (H eq_refl).
Qed.

(** The rows that pass the filter are the scored bookmarks that have an
    attempt. *)
Lemma scored_with_attempts (st : Store.t) :
  filter (fun w => (0 <? w_attemptCount w)%nat)
         (map (scoreBookmark st) (bookmarks st))
  = map (scoreBookmark st) (filter (hasAttempts st) (bookmarks st)).
Proof.
  rewrite filter_map_swap. f_equal.
  apply filter_ext. intros b. apply attemptCount_hasAttempts.
Qed.

Lemma scoreBookmark_RankedOnRecent (st : Store.t) (b : Bookmark) :
  In b (bookmarks st) -> hasAttempts st b = true ->
  let w := scoreBookmark st b in
  RankedOnRecent st (w_bookmark w) (w_quizAttempts w) (w_avgRecentScore w)
  /\ w_attemptCount w = length (w_quizAttempts w).
Proof.
  intros Hin Hhas. cbv zeta.
  assert (Hne : firstn 3 (byAttemptedAtDesc (attemptsOf st (b_id b))) <> []).
  { intros E. apply recent_attempts_nil in E.
    unfold hasAttempts in Hhas. rewrite E in Hhas. discriminate. }
  unfold scoreBookmark.
  cbn [w_bookmark w_quizAttempts w_avgRecentScore w_attemptCount].
  split; [| reflexivity].
  split; [exact Hin |]. split; [| split; [exact Hne |]].
  - exists (byAttemptedAtDesc (attemptsOf st (b_id b))).
    split; [apply byAttemptedAtDesc_recent | reflexivity].
  - destruct (firstn 3 (byAttemptedAtDesc (attemptsOf st (b_id b))));
      [contradiction | apply mean_averageOf].
Qed.

End WeakestFacts.


(** ** The daily review set *)

Section DailyReviewFacts.
Import Js Store RevisionEngine RevisionSpec.

Lemma NoDup_map_filter {Row Key} (key : Row -> Key) (keep : Row -> bool)
      (rows : list Row) :
  NoDup (map key rows) -> NoDup (map key (filter keep rows)).
Proof.
  induction rows as [|x l IH]; simpl; intros H; [constructor |].
  inversion H as [|y l' Hx Hl]; subst.
  destruct (keep x); simpl; [| now apply IH].
  constructor; [| now apply IH].
  intros Hin. apply Hx. apply in_map_iff in Hin.
  destruct Hin as [z [Hz Hin]]. apply filter_In in Hin.
  apply in_map_iff. exists z. tauto.
Qed.

Lemma NoDup_firstn {A} (n : nat) (l : list A) :
  NoDup l -> NoDup (firstn n l).
Proof.
  intros H. rewrite <- (firstn_skipn n l) in H.
  exact (NoDup_app_remove_r _ _ H).
Qed.

Lemma NoDup_map_sort {A B} (f : A -> B) (leb : A -> A -> bool) (l : list A) :
  NoDup (map f l) -> NoDup (map f (sort leb l)).
Proof.
  apply Permutation_NoDup, Permutation_map, Permutation_sym, sort_Permutation.
Qed.

Lemma due_ids_NoDup (nulls : NullsOrder) (now : Z) (st : Store.t) (limit : nat) :
  NoDup (map b_id (bookmarks st)) ->
  NoDup (map dueId (getDueBookmarks nulls now st limit)).
Proof.
  intros H. unfold getDueBookmarks. rewrite map_map. unfold dueId. simpl.
  rewrite <- firstn_map. apply NoDup_firstn, NoDup_map_sort.
  now apply NoDup_map_filter.
Qed.

Lemma weak_ids_NoDup (st : Store.t) (limit : nat) :
  NoDup (map b_id (bookmarks st)) ->
  NoDup (map weakId (getWeakestBookmarks st limit)).
Proof.
  intros H. unfold getWeakestBookmarks.
  rewrite <- firstn_map. apply NoDup_firstn, NoDup_map_sort.
  rewrite scored_with_attempts, map_map. unfold weakId. simpl.
  now apply NoDup_map_filter.
Qed.

Lemma existsb_eqb_In (x : string) (l : list string) :
  existsb (String.eqb x) l = true <-> In x l.
Proof.
  rewrite existsb_exists. split.
  - intros [y [Hin E]]. apply String.eqb_eq in E. now subst.
  - intros H. exists x. split; [exact H | apply String.eqb_refl].
Qed.

Lemma fresh_code (dueIds : list string) (weak : list WeakBookmark) :
  filter (fun w => negb (existsb (String.eqb (b_id (w_bookmark w))) dueIds)) weak
  = fresh dueIds weak.
Proof.
  apply filter_ext. intros w. unfold weakId.
  destruct (in_dec string_dec (b_id (w_bookmark w)) dueIds) as [Hin | Hin].
  - apply existsb_eqb_In in Hin. now rewrite Hin.
  - destruct (existsb _ dueIds) eqn:E; [| reflexivity].
    apply existsb_eqb_In in E. contradiction.
Qed.

Lemma combined_ids_NoDup (due : list DueBookmark) (weak : list WeakBookmark) :
  NoDup (map dueId due) -> NoDup (map weakId weak) ->
  NoDup (map rb_id (map Due due ++ map Weak (fresh (map dueId due) weak))).
Proof.
  intros Hd Hw. rewrite map_app, !map_map.
  change (fun x => rb_id (Due x)) with dueId.
  change (fun x => rb_id (Weak x)) with weakId.
  apply NoDup_app; [exact Hd | now apply NoDup_map_filter |].
  intros id Hin Hin'. apply in_map_iff in Hin'.
  destruct Hin' as [w [<- Hw']]. apply filter_In in Hw'.
  destruct Hw' as [_ Hw'].
  destruct (in_dec string_dec (weakId w) (map dueId due));
    [discriminate | contradiction].
Qed.

Lemma flat_map_pick_length (l : list ReviewBookmark) :
  (length (flat_map pick l) <= length l)%nat.
Proof.
  induction l as [|x l IH]; simpl; [lia |].
  rewrite length_app. unfold pick at 1.
  destruct (rb_questions x) as [[|q qs]|]; simpl; lia.
Qed.

Lemma flat_map_pick_weak (l : list WeakBookmark) :
  flat_map pick (map Weak l) = [].
Proof. induction l; simpl; trivial. Qed.

Lemma firstn_map_weak (n : nat) (l : list WeakBookmark) :
  firstn n (map Weak l) = map Weak (firstn n l).
Proof. apply firstn_map. Qed.

(** Only the rows of [getDueBookmarks] contribute questions. *)
Lemma questions_of_combined (due : list DueBookmark) (more : list WeakBookmark) :
  (length due <= 5)%nat ->
  flat_map pick (firstn 5 (map Due due ++ map Weak more))
  = flat_map pick (map Due due).
Proof.
  intros Hlen. rewrite firstn_app, length_map, flat_map_app.
  rewrite (firstn_all2 (map Due due)) by now rewrite length_map.
  rewrite firstn_map_weak, flat_map_pick_weak. apply app_nil_r.
Qed.

Lemma filter_filter {A} (p q : A -> bool) (l : list A) :
  filter p (filter q l) = filter (fun x => q x && p x) l.
Proof.
  induction l as [|x l IH]; simpl; [reflexivity |].
  destruct (q x); simpl; [destruct (p x) |]; now rewrite IH.
Qed.

(** The question of a row of [getDueBookmarks]: the first multiple-choice
    question of its bookmark. *)
Lemma pick_loadDue (st : Store.t) (b : Bookmark) :
  pick (Due (loadDue st b))
  = match mcqOf st (b_id b) with
    | q :: _ => [mkReviewQuestion q (b_title b)]
    | [] => []
    end.
Proof.
  unfold pick, mcqOf, questionsOf. simpl. rewrite filter_filter.
  destruct (filter _ (questions st)); reflexivity.
Qed.

Lemma pick_bookmarkId (st : Store.t) (b : Bookmark) (rq : ReviewQuestion) :
  In rq (pick (Due (loadDue st b))) ->
  q_bookmarkId (rq_question rq) = b_id b
  /\ q_type (rq_question rq) = Mcq.
Proof.
  rewrite pick_loadDue. unfold mcqOf, questionsOf.
  destruct (filter _ (filter _ _)) as [|q qs] eqn:E; [contradiction |].
  intros [<- | []]. simpl.
  assert (Hq : In q (q :: qs)) by now left.
  rewrite <- E in Hq. apply filter_In in Hq. destruct Hq as [Hq Hty].
  apply filter_In in Hq. destruct Hq as [_ Hid].
  apply String.eqb_eq in Hid. split; [exact Hid |].
  destruct (q_type q); try discriminate. reflexivity.
Qed.

Lemma filter_all_false {A} (p : A -> bool) (l : list A) :
  (forall x, In x l -> p x = false) -> filter p l = [].
Proof.
  induction l as [|x l IH]; simpl; intros H; [reflexivity |].
  rewrite (H x) by now left. apply IH. intros; apply H; now right.
Qed.

Lemma filter_all_true {A} (p : A -> bool) (l : list A) :
  (forall x, In x l -> p x = true) -> filter p l = l.
Proof.
  induction l as [|x l IH]; simpl; intros H; [reflexivity |].
  rewrite (H x) by now left. f_equal. apply IH. intros; apply H; now right.
Qed.

(** Among the questions picked for bookmarks with distinct ids, those of
    one bookmark are the ones picked for it. *)
Lemma questions_of_one (st : Store.t) (l : list Bookmark) (b : Bookmark) :
  NoDup (map b_id l) -> In b l ->
  filter (ofBookmark (b_id b)) (flat_map pick (map Due (map (loadDue st) l)))
  = pick (Due (loadDue st b)).
Proof.
  induction l as [|x l IH]; simpl; intros Hnd Hin; [contradiction |].
  inversion Hnd as [|y l' Hx Hl]; subst.
  rewrite filter_app. destruct Hin as [-> | Hin].
  - rewrite filter_all_true.
    + rewrite filter_all_false; [apply app_nil_r |].
      intros rq Hrq. apply in_flat_map in Hrq.
      destruct Hrq as [r [Hr Hrq]].
      rewrite map_map in Hr. apply in_map_iff in Hr.
      destruct Hr as [b' [<- Hb']].
      apply pick_bookmarkId in Hrq. destruct Hrq as [Hid _].
      unfold ofBookmark. rewrite Hid. apply String.eqb_neq.
      intros E. apply Hx. rewrite <- E. now apply in_map.
    + intros rq Hrq. apply pick_bookmarkId in Hrq.
      unfold ofBookmark. rewrite (proj1 Hrq). apply String.eqb_refl.
  - rewrite filter_all_false; [now apply IH |].
    intros rq Hrq. apply pick_bookmarkId in Hrq. destruct Hrq as [Hid _].
    unfold ofBookmark. rewrite Hid. apply String.eqb_neq.
    intros E. apply Hx. rewrite E. now apply in_map.
Qed.

End DailyReviewFacts.

(** C5, as the code has it.  For a store whose bookmark ids are distinct,
    the daily review set holds: (a) the rows of [getDueBookmarks(5)] in
    order, then the rows of [getWeakestBookmarks(3)] whose id is not among
    them, cut to five, without a repeated id; (b) at most five questions,
    all multiple-choice, where each selected due bookmark contributes its
    first multiple-choice question and nothing when it has none; (c) a
    [totalDue] that is the length of the combined list before it is cut,
    so that it counts the bookmarks that brought no question. *)
Theorem createDailyReviewSet_contents
  (nulls : Store.NullsOrder) (now : Z) (st : Store.t) :
  NoDup (map Store.b_id (Store.bookmarks st)) ->
  let due := RevisionEngine.getDueBookmarks nulls now st 5 in
  let weak := RevisionEngine.getWeakestBookmarks st 3 in
  let added := RevisionSpec.fresh (map RevisionSpec.dueId due) weak in
  let set := RevisionEngine.createDailyReviewSet nulls now st in
  RevisionEngine.rs_bookmarks set
  = firstn 5 (map RevisionEngine.Due due ++ map RevisionEngine.Weak added)
  /\ firstn (length due) (RevisionEngine.rs_bookmarks set)
     = map RevisionEngine.Due due
  /\ (length (RevisionEngine.rs_bookmarks set) <= 5)%nat
  /\ NoDup (map RevisionEngine.rb_id (RevisionEngine.rs_bookmarks set))
  /\ (length (RevisionEngine.rs_questions set) <= 5)%nat
  /\ Forall (fun rq => Store.q_type (RevisionEngine.rq_question rq) = Store.Mcq)
            (RevisionEngine.rs_questions set)
  /\ (forall d, In d due ->
        filter (RevisionSpec.ofBookmark (RevisionSpec.dueId d))
               (RevisionEngine.rs_questions set)
        = match RevisionSpec.mcqOf st (RevisionSpec.dueId d) with
          | q :: _ =>
              [RevisionEngine.mkReviewQuestion q
                 (Store.b_title (RevisionEngine.d_bookmark d))]
          | [] => []
          end)
  /\ RevisionEngine.rs_totalDue set = (length due + length added)%nat
  /\ (length (RevisionEngine.rs_bookmarks set)
      <= RevisionEngine.rs_totalDue set)%nat.
Proof.
  intros Hnd due weak added set.
  assert (Hlen : (length due <= 5)%nat) by apply getDueBookmarks_length.
  assert (Hset : set
                 = RevisionEngine.mkDailyReviewSet
                     (firstn 5 (map RevisionEngine.Due due
                                ++ map RevisionEngine.Weak added))
                     (firstn 5 (flat_map RevisionSpec.pick
                                  (map RevisionEngine.Due due)))
                     (length (map RevisionEngine.Due due
                              ++ map RevisionEngine.Weak added))).
  { unfold set, RevisionEngine.createDailyReviewSet.
    fold due. fold weak. fold RevisionSpec.dueId.
    rewrite fresh_code. fold added.
    change (fun bookmark : RevisionEngine.ReviewBookmark =>
              match RevisionEngine.rb_questions bookmark with
              | Some (q :: _) =>
                  [RevisionEngine.mkReviewQuestion q
                     (Store.b_title (RevisionEngine.rb_bookmark bookmark))]
              | _ => []
              end) with RevisionSpec.pick.
    now rewrite questions_of_combined. }
  assert (Hq : firstn 5 (flat_map RevisionSpec.pick (map RevisionEngine.Due due))
               = flat_map RevisionSpec.pick (map RevisionEngine.Due due)).
  { apply firstn_all2. etransitivity; [apply flat_map_pick_length |].
    now rewrite length_map. }
  rewrite Hset. cbn [RevisionEngine.rs_bookmarks RevisionEngine.rs_questions
                     RevisionEngine.rs_totalDue].
  rewrite Hq.
  split; [reflexivity |]. split; [| split; [| split]].
  - rewrite firstn_firstn, Nat.min_l by exact Hlen.
    rewrite firstn_app, length_map, Nat.sub_diag. simpl.
    rewrite app_nil_r. apply firstn_all2. now rewrite length_map.
  - apply firstn_le_length.
  - rewrite <- firstn_map. apply NoDup_firstn, combined_ids_NoDup.
    + now apply due_ids_NoDup.
    + now apply weak_ids_NoDup.
  - split; [etransitivity; [apply flat_map_pick_length | now rewrite length_map] |].
    split; [| split; [| split]].
    + apply Forall_forall. intros rq Hrq. apply in_flat_map in Hrq.
      destruct Hrq as [r [Hr Hrq]]. unfold due, RevisionEngine.getDueBookmarks in Hr.
      rewrite map_map in Hr. apply in_map_iff in Hr. destruct Hr as [b [<- _]].
      now apply pick_bookmarkId in Hrq.
    + intros d Hd. unfold due, RevisionEngine.getDueBookmarks in *.
      apply in_map_iff in Hd. destruct Hd as [b [<- Hb]].
      change (RevisionSpec.dueId (RevisionEngine.loadDue st b))
        with (Store.b_id b).
      change (RevisionEngine.d_bookmark (RevisionEngine.loadDue st b)) with b.
      rewrite questions_of_one; [apply pick_loadDue | | exact Hb].
      rewrite <- firstn_map. apply NoDup_firstn, NoDup_map_sort.
      now apply NoDup_map_filter.
    + now rewrite length_app, !length_map.
    + rewrite length_firstn. lia.
Qed.


(** The handler of [GET /weakest] is a second implementation: it ranks on
    the five most recent attempts and on the rounded average.  On a
    bookmark with four attempts the two averages differ. *)
Lemma weakest_route_ranks_on_five :
  Forall2 Qeq
    (map RevisionEngine.w_avgRecentScore
         (RevisionEngine.getWeakestBookmarks Examples.st_four 10)) [0%Q]
  /\ Forall2 (fun x y => match x with Some q => q == y | None => False end)%Q
             (map AnalyticsRoutes.wk_avgScore
                  (AnalyticsRoutes.weakest Examples.st_four 10)) [25%Q].
Proof.
  split; vm_compute; repeat constructor.
Qed.

(** A bookmark that was never attempted is due all the same. *)
Lemma never_attempted_is_due :
  In Examples.b_new
     (map RevisionEngine.d_bookmark
          (RevisionEngine.getDueBookmarks Store.postgres 5000
             Examples.st_review 5)).
Proof. simpl. tauto. Qed.

Lemma createDailyReviewSet_contents_witness :
  let st := Examples.st_review in
  let set := RevisionEngine.createDailyReviewSet Store.postgres 5000 st in
  NoDup (map Store.b_id (Store.bookmarks st))
  /\ NoDup (map RevisionEngine.rb_id (RevisionEngine.rs_bookmarks set))
  /\ (length (RevisionEngine.rs_questions set) <= 5)%nat.
Proof.
  intros st set.
  assert (Hnd : NoDup (map Store.b_id (Store.bookmarks st))).
  { repeat (constructor; [simpl; intuition discriminate |]). constructor. }
  split; [exact Hnd |].
  pose proof (createDailyReviewSet_contents Store.postgres 5000 st Hnd) as H.
  cbv zeta in H.
  destruct H as [_ [_ [_ [H1 [H2 _]]]]].
  split; [exact H1 | exact H2].
Defined.

(** C5, as the claim has it, fails: a selected bookmark whose only question
    is a short answer has a question available, and the set holds none for
    it. *)
Lemma createDailyReviewSet_no_fallback_question :
  let set :=
    RevisionEngine.createDailyReviewSet Store.postgres 5000 Examples.st_essay in
  map RevisionEngine.rb_bookmark (RevisionEngine.rs_bookmarks set)
  = [Examples.b_new]
  /\ RevisionEngine.rs_questions set = []
  /\ RevisionSpec.representative
       (RevisionSpec.questionsOf Examples.st_essay (Store.b_id Examples.b_new))
     = Some Examples.q_essay
  /\ ~ RevisionSpec.OneRepresentativeEach Examples.st_essay
         (map RevisionEngine.rb_bookmark (RevisionEngine.rs_bookmarks set))
         (map RevisionEngine.rq_question (RevisionEngine.rs_questions set)).
Proof.
  cbv zeta. split; [reflexivity |]. split; [reflexivity |].
  split; [reflexivity |].
  intros H. specialize (H Examples.b_new (or_introl eq_refl)).
  discriminate H.
Qed.

(** ** Quiz submission *)

Section SubmitFacts.
Import Js Store RevisionEngine Quiz SubmitSpec.

Lemma gradeStep_fold (st : Store.t) (answers : list Answer)
      (acc : list Result) (c : nat) :
  fold_left (gradeStep st) answers (acc, c)
  = (acc ++ flat_map (resultOf st) answers,
     (c + length (filter (judgedCorrect st) answers))%nat).
Proof.
  revert acc c. induction answers as [|a answers IH]; intros acc c; simpl.
  - now rewrite app_nil_r, Nat.add_0_r.
  - unfold resultOf at 1, judgedCorrect at 1.
    destruct (findQuestion st (questionId a)) as [q|]; [| apply IH].
    rewrite IH, <- app_assoc. simpl.
    destruct (checkAnswer q (selectedAnswer a)); simpl; f_equal; lia.
Qed.

Lemma grade_eq (st : Store.t) (answers : list Answer) :
  grade st answers
  = (flat_map (resultOf st) answers,
     length (filter (judgedCorrect st) answers)).
Proof. unfold grade. now rewrite gradeStep_fold. Qed.

Lemma results_length (st : Store.t) (answers : list Answer) :
  length (flat_map (resultOf st) answers) = length (scored st answers).
Proof.
  unfold scored. induction answers as [|a answers IH]; simpl; [reflexivity |].
  rewrite length_app, IH. unfold resultOf, known.
  destruct (findQuestion st (questionId a)); reflexivity.
Qed.

Lemma scored_skipped (st : Store.t) (answers : list Answer) :
  length answers = (length (scored st answers) + skipped st answers)%nat.
Proof.
  unfold scored, skipped. induction answers as [|a answers IH]; simpl;
    [reflexivity |].
  destruct (known st a); simpl; lia.
Qed.

Lemma createUserAnswer_fold (attemptId : string) (results : list Result)
      (st : Store.t) :
  fold_left (fun s result => createUserAnswer s (answerRow attemptId result))
            results st
  = mkStore (categories st) (bookmarks st) (questions st) (quizAttempts st)
            (userAnswers st ++ map (answerRow attemptId) results).
Proof.
  revert st. induction results as [|r results IH]; intros st; simpl.
  - rewrite app_nil_r. now destruct st.
  - rewrite IH. simpl. now rewrite <- app_assoc.
Qed.

(** What an accepted submission writes and replies. *)
Lemma submit_accepted (is_uuid : string -> bool) (tz now : Z)
      (newId : string) (st : Store.t) (body : SubmitBody) (b : Bookmark) :
  submitQuizSchema is_uuid body = true ->
  findBookmark st (bookmarkId body) = Some b ->
  let results := flat_map (resultOf st) (answers body) in
  let correct := length (filter (judgedCorrect st) (answers body)) in
  let score := scoreOf correct (length results) in
  let next := calculateNextReviewDate tz now score in
  submit is_uuid tz now newId st body
  = (mkStore (categories st)
       (map (fun x => if String.eqb (b_id x) (bookmarkId body)
                      then reviewed now next x else x)
            (bookmarks st))
       (questions st)
       (quizAttempts st
        ++ [mkQuizAttempt newId (bookmarkId body) score (length results)
                          (timeTaken body) now])
       (userAnswers st ++ map (answerRow newId) results),
     Json (mkSubmitResponse newId (round2 score) correct (length results)
             (timeTaken body) results
             (filter (fun r => negb (r_isCorrect r)) results) next)).
Proof.
  intros Hschema Hfind results correct score next.
  unfold submit. rewrite Hschema, Hfind, grade_eq. cbn [negb].
  fold results. fold correct. fold score. cbn [a_id].
  change (fun (s : Store.t) (result : Result) =>
            createUserAnswer s
              (mkUserAnswer newId (r_questionId result)
                 (r_selectedAnswer result) (r_isCorrect result)))
    with (fun s result => createUserAnswer s (answerRow newId result)).
  rewrite createUserAnswer_fold.
  unfold updateRevisionSchedule, updateBookmark, findBookmark.
  cbn [bookmarks createQuizAttempt categories questions quizAttempts userAnswers].
  unfold findBookmark in Hfind. rewrite Hfind.
  reflexivity.
Qed.

Lemma find_reviewed (now next : Z) (id : string) (l : list Bookmark) :
  find (fun b => String.eqb (b_id b) id)
       (map (fun x => if String.eqb (b_id x) id then reviewed now next x else x) l)
  = option_map (reviewed now next) (find (fun b => String.eqb (b_id b) id) l).
Proof.
  induction l as [|x l IH]; simpl; [reflexivity |].
  destruct (String.eqb (b_id x) id) eqn:E; simpl; rewrite E; [reflexivity | exact IH].
Qed.

Lemma scoreOf_ratio (correct total : nat) :
  (0 < total)%nat ->
  scoreOf correct total
  = Js.fmul (Js.fdiv (inject_Z (Z.of_nat correct)) (inject_Z (Z.of_nat total)))
            100.
Proof.
  intros H. unfold scoreOf.
  destruct (Nat.ltb_spec 0 total) as [_ | H']; [reflexivity | lia].
Qed.

(** The score is the double [(correct / total) * 100], not the exact
    ratio: 23 right out of 160 is stored as 14.374999999999998, and
    replied as 14.37. *)
Lemma scoreOf_23_of_160 :
  (scoreOf 23 160 == 8092405580431359 # 562949953421312)%Q
  /\ (scoreOf 23 160 < 14375 # 1000)%Q
  /\ (Js.round2 (scoreOf 23 160) < 14375 # 1000)%Q
  /\ (Js.round2 (scoreOf 23 160) == Js.double (1437 # 100))%Q.
Proof.
  repeat split; vm_compute; reflexivity.
Qed.

End SubmitFacts.

(** A rejected submission writes nothing. *)
Lemma submit_rejected (is_uuid : string -> bool) (tz now : Z)
      (newId : string) (st : Store.t) (body : Quiz.SubmitBody) :
  (Quiz.submitQuizSchema is_uuid body = false ->
   Quiz.submit is_uuid tz now newId st body = (st, Quiz.ValidationError))
  /\ (Quiz.submitQuizSchema is_uuid body = true ->
      Store.findBookmark st (Quiz.bookmarkId body) = None ->
      Quiz.submit is_uuid tz now newId st body = (st, Quiz.BookmarkNotFound)).
Proof.
  unfold Quiz.submit. split.
  - intros ->. reflexivity.
  - intros -> ->. reflexivity.
Qed.

(** C6, as the code has it.  A submission without answers, with
    well-formed ids and a bookmark that exists, is accepted: one attempt
    with score 0 over 0 questions is created, no answer is stored, and the
    bookmark is rescheduled as after a score of 0, for 09:00 on the next
    day. *)
Theorem submit_empty_answers
  (is_uuid : string -> bool) (tz now : Z) (newId : string)
  (st : Store.t) (body : Quiz.SubmitBody) (b : Store.Bookmark) :
  Quiz.answers body = [] ->
  Quiz.submitQuizSchema is_uuid body = true ->
  Store.findBookmark st (Quiz.bookmarkId body) = Some b ->
  let st' := fst (Quiz.submit is_uuid tz now newId st body) in
  let reply := snd (Quiz.submit is_uuid tz now newId st body) in
  let next := RevisionEngine.calculateNextReviewDate tz now 0 in
  Store.quizAttempts st'
  = Store.quizAttempts st
    ++ [Store.mkQuizAttempt newId (Quiz.bookmarkId body) 0 0
          (Quiz.timeTaken body) now]
  /\ Store.userAnswers st' = Store.userAnswers st
  /\ Store.findBookmark st' (Quiz.bookmarkId body)
     = Some (SubmitSpec.reviewed now next b)
  /\ Date.localDay tz next = Date.localDay tz now + 1
  /\ Date.localTimeOfDay tz next = Date.MakeTime 9 0 0 0
  /\ exists r, reply = Quiz.Json r
               /\ Quiz.res_total r = 0%nat
               /\ Quiz.res_correct r = 0%nat
               /\ (Quiz.res_score r == 0)%Q
               /\ Quiz.res_nextReviewAt r = next.
Proof.
  intros Hempty Hschema Hfind. cbv zeta.
  rewrite (submit_accepted is_uuid tz now newId st body b Hschema Hfind).
  rewrite Hempty. cbn [fst snd flat_map filter length map Quiz.scoreOf Nat.ltb Nat.leb].
  cbn [Store.quizAttempts Store.userAnswers].
  split; [reflexivity |]. split; [apply app_nil_r |]. split; [| split; [| split]].
  - unfold Store.findBookmark. cbn [Store.bookmarks].
    rewrite find_reviewed. unfold Store.findBookmark in Hfind.
    now rewrite Hfind.
  - apply (calculateNextReviewDate_day1 tz now).
  - apply localTimeOfDay_setHours, nine_oclock.
  - eexists. split; [reflexivity |]. cbn. repeat split; vm_compute; reflexivity.
Qed.

Lemma submit_empty_answers_witness :
  let st := Examples.st_review in
  let body := Examples.body_empty in
  Quiz.answers body = []
  /\ Quiz.submitQuizSchema Examples.uuid_shape body = true
  /\ Store.findBookmark st (Quiz.bookmarkId body) = Some Examples.b_reviewed
  /\ Store.userAnswers
       (fst (Quiz.submit Examples.uuid_shape 0 5000 Examples.id_a4 st body))
     = Store.userAnswers st
  /\ Store.findBookmark
       (fst (Quiz.submit Examples.uuid_shape 0 5000 Examples.id_a4 st body))
       (Quiz.bookmarkId body)
     = Some (SubmitSpec.reviewed 5000
               (RevisionEngine.calculateNextReviewDate 0 5000 0)
               Examples.b_reviewed).
Proof.
  intros st body.
  assert (H1 : Quiz.answers body = []) by reflexivity.
  assert (H2 : Quiz.submitQuizSchema Examples.uuid_shape body = true)
    by reflexivity.
  assert (H3 : Store.findBookmark st (Quiz.bookmarkId body)
               = Some Examples.b_reviewed) by reflexivity.
  split; [exact H1 |]. split; [exact H2 |]. split; [exact H3 |].
  pose proof (submit_empty_answers Examples.uuid_shape 0 5000 Examples.id_a4
                st body Examples.b_reviewed H1 H2 H3) as H.
  cbv zeta in H. destruct H as [_ [Ha [Hb _]]].
  split; [exact Ha | exact Hb].
Defined.

(** C6, as the claim has it, fails: the empty submission is answered with
    a result, an attempt is recorded and the bookmark is rescheduled. *)
Lemma submit_empty_answers_not_rejected :
  let st := Examples.st_review in
  let st' :=
    fst (Quiz.submit Examples.uuid_shape 0 5000 Examples.id_a4 st
           Examples.body_empty) in
  (exists r,
      snd (Quiz.submit Examples.uuid_shape 0 5000 Examples.id_a4 st
             Examples.body_empty) = Quiz.Json r)
  /\ length (Store.quizAttempts st') = S (length (Store.quizAttempts st))
  /\ option_map Store.b_lastReviewedAt (Store.findBookmark st Examples.id_b1)
     = Some (Some 500)
  /\ option_map Store.b_lastReviewedAt (Store.findBookmark st' Examples.id_b1)
     = Some (Some 5000)
  /\ ~ SubmitSpec.RejectsEmpty Examples.uuid_shape 0 5000 Examples.id_a4 st
         Examples.body_empty.
Proof.
  cbv zeta. split; [eexists; vm_compute; reflexivity |].
  split; [reflexivity |]. split; [reflexivity |]. split; [reflexivity |].
  intros H. specialize (H eq_refl). vm_compute in H. discriminate H.
Qed.

(** C7, as the code has it.  An answer whose question is gone is skipped
    and the submission succeeds.  [total] is the number of answers that
    were scored, [correct] the number of those judged correct; the attempt
    is stored over [total] questions with the score [(correct / total) *
    100] as double arithmetic gives it (0 when every answer was skipped)
    and the reply carries [Math.round(score * 100) / 100].  The number of
    submitted answers is [total] plus the number skipped; the reply has no
    field for the latter. *)
Theorem submit_skips_missing_questions
  (is_uuid : string -> bool) (tz now : Z) (newId : string)
  (st : Store.t) (body : Quiz.SubmitBody) (b : Store.Bookmark) :
  Quiz.submitQuizSchema is_uuid body = true ->
  Store.findBookmark st (Quiz.bookmarkId body) = Some b ->
  exists st' r attempt,
    Quiz.submit is_uuid tz now newId st body = (st', Quiz.Json r)
    /\ Store.quizAttempts st' = Store.quizAttempts st ++ [attempt]
    /\ Quiz.res_results r
       = flat_map (SubmitSpec.resultOf st) (Quiz.answers body)
    /\ Quiz.res_total r
       = length (SubmitSpec.scored st (Quiz.answers body))
    /\ Quiz.res_correct r
       = length (filter (SubmitSpec.judgedCorrect st) (Quiz.answers body))
    /\ length (Quiz.answers body)
       = (Quiz.res_total r + SubmitSpec.skipped st (Quiz.answers body))%nat
    /\ Store.a_totalQuestions attempt = Quiz.res_total r
    /\ ((0 < Quiz.res_total r)%nat ->
        Store.a_score attempt
        = Js.fmul (Js.fdiv (inject_Z (Z.of_nat (Quiz.res_correct r)))
                           (inject_Z (Z.of_nat (Quiz.res_total r))))
                  100)
    /\ (Quiz.res_total r = 0%nat -> Store.a_score attempt = 0%Q)
    /\ Quiz.res_score r = Js.round2 (Store.a_score attempt).
Proof.
  intros Hschema Hfind.
  rewrite (submit_accepted is_uuid tz now newId st body b Hschema Hfind).
  cbv zeta. do 3 eexists. split; [reflexivity |].
  cbn [Store.quizAttempts Quiz.res_results Quiz.res_total Quiz.res_correct
       Quiz.res_score Store.a_totalQuestions Store.a_score].
  split; [reflexivity |]. split; [reflexivity |].
  split; [apply results_length |]. split; [reflexivity |].
  split; [rewrite results_length; apply scored_skipped |].
  split; [reflexivity |]. split; [apply scoreOf_ratio |].
  split; [| reflexivity].
  intros E. unfold Quiz.scoreOf. now rewrite E.
Qed.

Lemma submit_skips_missing_questions_witness :
  let st := Examples.st_review in
  let body := Quiz.mkSubmitBody Examples.id_b1 Examples.answers_two_gone 30 in
  Quiz.submitQuizSchema Examples.uuid_shape body = true
  /\ Store.findBookmark st (Quiz.bookmarkId body) = Some Examples.b_reviewed
  /\ SubmitSpec.skipped st (Quiz.answers body) = 2%nat
  /\ exists st' r,
       Quiz.submit Examples.uuid_shape 0 5000 Examples.id_a4 st body
       = (st', Quiz.Json r)
       /\ Quiz.res_total r = 1%nat.
Proof.
  intros st body.
  assert (H1 : Quiz.submitQuizSchema Examples.uuid_shape body = true)
    by reflexivity.
  assert (H2 : Store.findBookmark st (Quiz.bookmarkId body)
               = Some Examples.b_reviewed) by reflexivity.
  split; [exact H1 |]. split; [exact H2 |]. split; [reflexivity |].
  destruct (submit_skips_missing_questions Examples.uuid_shape 0 5000
              Examples.id_a4 st body Examples.b_reviewed H1 H2)
    as [st' [r [attempt [Hs [_ [_ [Ht _]]]]]]].
  exists st', r. split; [exact Hs |]. rewrite Ht. reflexivity.
Defined.

(** C7, as the claim has it, fails: two submissions that skip one and two
    answers receive the same reply, so that no reading of the reply gives
    the number skipped. *)
Lemma submit_reply_hides_skipped :
  let reply_to answers :=
    snd (Quiz.submit Examples.uuid_shape 0 5000 Examples.id_a4
           Examples.st_review
           (Quiz.mkSubmitBody Examples.id_b1 answers 30)) in
  SubmitSpec.skipped Examples.st_review Examples.answers_one_gone = 1%nat
  /\ SubmitSpec.skipped Examples.st_review Examples.answers_two_gone = 2%nat
  /\ reply_to Examples.answers_one_gone = reply_to Examples.answers_two_gone
  /\ ~ SubmitSpec.ReportsSkipped reply_to (SubmitSpec.skipped Examples.st_review).
Proof.
  intros reply_to.
  split; [reflexivity |]. split; [reflexivity |]. split; [reflexivity |].
  intros [reported H].
  assert (E : reply_to Examples.answers_one_gone
              = reply_to Examples.answers_two_gone) by reflexivity.
  destruct (reply_to Examples.answers_one_gone) as [r| | |] eqn:E1;
    try (vm_compute in E1; discriminate E1).
  pose proof (H _ _ E1) as H1. pose proof (H _ _ (eq_sym E)) as H2.
  rewrite H1 in H2. discriminate H2.
Qed.

(** ** Dictionaries *)

Section DictFacts.
Context {K V : Type} (keq : K -> K -> bool).
Hypothesis keq_eq : forall a b, keq a b = true <-> a = b.

Lemma set_fresh (d : Js.dict) (k : K) (v : V) :
  ~ In k (Js.keys d) -> Js.set keq d k v = d ++ [(k, v)].
Proof.
  induction d as [|[k' v'] d IH]; simpl; intros Hk; [reflexivity |].
  destruct (keq k k') eqn:E.
  - apply keq_eq in E. subst. tauto.
  - rewrite IH by tauto. reflexivity.
Qed.

(** Setting keys that are new, one after the other, appends them. *)
Lemma set_fold_fresh {X} (kf : X -> K) (vf : X -> V) (l : list X)
      (d : Js.dict) :
  NoDup (Js.keys d ++ map kf l) ->
  fold_left (fun dd x => Js.set keq dd (kf x) (vf x)) l d
  = d ++ map (fun x => (kf x, vf x)) l.
Proof.
  revert d. induction l as [|x l IH]; intros d Hnd; simpl.
  - now rewrite app_nil_r.
  - simpl in Hnd. pose proof (NoDup_remove_2 _ _ _ Hnd) as Hx.
    rewrite set_fresh by (intros H; apply Hx, in_or_app; now left).
    rewrite IH, <- app_assoc; [reflexivity |].
    unfold Js.keys in *. rewrite map_app. simpl. rewrite <- app_assoc.
    simpl. exact Hnd.
Qed.

Lemma adjust_absent (k : K) (f : V -> V) (d : Js.dict) :
  ~ In k (Js.keys d) -> Js.adjust keq k f d = d.
Proof.
  induction d as [|[k' v'] d IH]; simpl; intros Hk; [reflexivity |].
  destruct (keq k k') eqn:E.
  - apply keq_eq in E. subst. tauto.
  - rewrite IH by tauto. reflexivity.
Qed.

Lemma adjust_keys (k : K) (f : V -> V) (d : Js.dict) :
  Js.keys (Js.adjust keq k f d) = Js.keys d.
Proof.
  unfold Js.keys, Js.adjust. rewrite map_map. apply map_ext.
  intros [k' v']. simpl. now destruct (keq k k').
Qed.

(** Reading a key and writing it back changed, when keys are distinct. *)
Lemma get_set_adjust (k : K) (f : V -> V) (d : Js.dict) :
  NoDup (Js.keys d) ->
  match Js.get keq d k with
  | Some v => Js.set keq d k (f v)
  | None => d
  end = Js.adjust keq k f d.
Proof.
  induction d as [|[k' v'] d IH]; simpl; intros Hnd; [reflexivity |].
  inversion Hnd as [|x l Hk' Hd]; subst.
  destruct (keq k k') eqn:E.
  - apply keq_eq in E. subst. now rewrite adjust_absent.
  - rewrite <- (IH Hd). now destruct (Js.get keq d k).
Qed.

(** A loop that adjusts one key per element adjusts every value by the
    elements of its key. *)
Lemma adjust_fold {X} (kf : X -> K) (upd : V -> X -> V) (l : list X)
      (d : Js.dict) :
  NoDup (Js.keys d) ->
  fold_left
    (fun dd x =>
       match Js.get keq dd (kf x) with
       | Some v => Js.set keq dd (kf x) (upd v x)
       | None => dd
       end) l d
  = map (fun kv =>
           (fst kv,
            fold_left (fun v x => if keq (kf x) (fst kv) then upd v x else v)
                      l (snd kv))) d.
Proof.
  revert d. induction l as [|x l IH]; intros d Hnd; simpl.
  - rewrite <- (map_id d) at 1. apply map_ext. now intros [k v].
  - rewrite (get_set_adjust (kf x) (fun v => upd v x) d Hnd).
    rewrite IH by now rewrite adjust_keys.
    unfold Js.adjust. rewrite map_map. apply map_ext. intros [k v]. simpl.
    now destruct (keq (kf x) k).
Qed.

End DictFacts.

(** ** Sums and averages *)

Section AverageFacts.
Import Js.

Lemma sum_acc (l : list Q) (a : Q) : (fold_left Qplus l a == a + sum l)%Q.
Proof.
  unfold sum. revert a. induction l as [|x l IH]; intros a; simpl.
  - ring.
  - rewrite IH, (IH (0 + x)%Q). ring.
Qed.

Lemma sum_cons (x : Q) (l : list Q) : (sum (x :: l) == x + sum l)%Q.
Proof. unfold sum at 1. simpl. rewrite sum_acc. ring. Qed.

Lemma sum_Permutation (l l' : list Q) :
  Permutation l l' -> (sum l == sum l')%Q.
Proof.
  induction 1 as [| x l l' _ IH | x y l | l l' l'' _ IH1 _ IH2].
  - reflexivity.
  - now rewrite !sum_cons, IH.
  - rewrite !sum_cons. ring.
  - now rewrite IH1.
Qed.

Lemma average_Permutation (l l' : list Q) :
  Permutation l l' -> (average l == average l')%Q.
Proof.
  intros H. unfold average.
  now rewrite (sum_Permutation _ _ H), (Permutation_length H).
Qed.

Lemma filter_Permutation {A} (p : A -> bool) (l l' : list A) :
  Permutation l l' -> Permutation (filter p l) (filter p l').
Proof.
  induction 1 as [| x l l' _ IH | x y l | l l' l'' _ IH1 _ IH2]; simpl.
  - constructor.
  - destruct (p x); [now constructor | exact IH].
  - destruct (p x), (p y); try reflexivity. apply perm_swap.
  - now transitivity (filter p l').
Qed.

End AverageFacts.

(** ** Daily series *)

Section TrendFacts.
Import Js Store Analytics AnalyticsSpec.

Lemma Day_bounds (t : Z) :
  Date.Day t * Date.msPerDay <= t < (Date.Day t + 1) * Date.msPerDay.
Proof.
  unfold Date.Day. pose proof msPerDay_pos as Hpos.
  pose proof (Z.div_mod t Date.msPerDay ltac:(lia)) as H.
  pose proof (Z.mod_pos_bound t Date.msPerDay Hpos). lia.
Qed.

Lemma Day_iff (t d : Z) :
  Date.Day t = d <-> d * Date.msPerDay <= t < (d + 1) * Date.msPerDay.
Proof.
  split.
  - intros <-. apply Day_bounds.
  - intros H. pose proof (Day_bounds t) as Hb. pose proof msPerDay_pos. nia.
Qed.

Lemma isoDate_addDays (tz now i : Z) :
  Date.isoDate (Date.addDays tz now (- i)) = Date.isoDate now - i.
Proof.
  unfold Date.isoDate. rewrite addDays_shift, Day_shift. lia.
Qed.

(** Counting down from [n - 1] and subtracting from [last] walks the
    window upwards. *)
Lemma countdown_window (last : Z) (n : nat) :
  map (fun i => last - i) (countdown (Z.of_nat n)) = window last n.
Proof.
  unfold countdown, window. rewrite Nat2Z.id, map_map.
  revert last. induction n as [|n IH]; intros last; [reflexivity |].
  replace (rev (seq 0 (S n))) with (n :: rev (seq 0 n))
    by (rewrite seq_S, rev_app_distr; reflexivity).
  cbn [seq map]. f_equal; [lia |].
  rewrite <- seq_shift, map_map, (IH last).
  apply map_ext. intros k. lia.
Qed.

Lemma window_NoDup (last : Z) (n : nat) : NoDup (window last n).
Proof.
  unfold window. apply Finite.Injective_map_NoDup; [| apply seq_NoDup].
  intros a b H. lia.
Qed.

Lemma window_In (last : Z) (n : nat) (d : Z) :
  In d (window last n) <-> last - Z.of_nat n < d <= last.
Proof.
  unfold window. rewrite in_map_iff. split.
  - intros [k [<- Hk]]. apply in_seq in Hk. lia.
  - intros H. exists (Z.to_nat (d - (last - Z.of_nat n + 1))). split; [lia |].
    apply in_seq. lia.
Qed.

Lemma window_length (last : Z) (n : nat) : length (window last n) = n.
Proof. unfold window. now rewrite length_map, length_seq. Qed.

(** What the loop over the attempts leaves in the bucket of a day. *)
Lemma bucket_fold (day : Z) (attempts : list QuizAttempt) (b : DayBucket) :
  fold_left
    (fun v a =>
       if Date.isoDate (a_attemptedAt a) =? day
       then mkDayBucket (d_date v) (d_scores v ++ [a_score a]) (S (d_attempts v))
       else v) attempts b
  = mkDayBucket (d_date b) (d_scores b ++ scoresOn day attempts)
                (d_attempts b + length (scoresOn day attempts)).
Proof.
  unfold scoresOn. revert b.
  induction attempts as [|a attempts IH]; intros b; simpl.
  - rewrite app_nil_r, Nat.add_0_r. now destruct b.
  - rewrite IH. destruct (Date.isoDate (a_attemptedAt a) =? day); simpl.
    + rewrite <- app_assoc. simpl. f_equal. lia.
    + reflexivity.
Qed.

(** The entry made of the bucket of a day. *)
Lemma entry_of_scores (day : Z) (st : Store.t) :
  let scores := scoresOn day (byAttemptedAtAsc (quizAttempts st)) in
  mkTrendEntry day
    (if (0 <? length scores)%nat then Some (round2 (mean scores)) else None)
    (length scores)
  = trendEntry st day.
Proof.
  cbv zeta. unfold trendEntry, averageOrNull. cbv zeta. f_equal.
  destruct (scoresOn day (byAttemptedAtAsc (quizAttempts st))) as [|x l];
    [reflexivity |].
  cbn [length Nat.ltb Nat.leb]. now rewrite mean_averageOf.
Qed.

(** No attempt of a day of the window is older than the start date. *)
Lemma window_after_start (tz now days : Z) (t : Z) :
  Date.isoDate now - days < Date.isoDate t ->
  Date.addDays tz now (- days) <= t.
Proof.
  unfold Date.isoDate. rewrite addDays_shift. intros H.
  pose proof (Day_bounds now). pose proof (Day_bounds t).
  pose proof msPerDay_pos. nia.
Qed.

Lemma byAttemptedAtAsc_filter (p : QuizAttempt -> bool) (l : list QuizAttempt) :
  filter p (byAttemptedAtAsc l) = byAttemptedAtAsc (filter p l).
Proof.
  unfold byAttemptedAtAsc. apply filter_sort.
  - intros a b H. apply Z.leb_gt in H. apply Z.leb_le. lia.
  - intros a b c H1 H2. apply Z.leb_le in H1, H2. apply Z.leb_le. lia.
Qed.

(** The rows the query leaves out are older than every day of the
    window. *)
Lemma scores_in_window (tz now days day : Z) (st : Store.t) :
  Date.isoDate now - days < day ->
  scoresOn day
    (byAttemptedAtAsc
       (filter (fun a => Date.addDays tz now (- days) <=? a_attemptedAt a)
               (quizAttempts st)))
  = scoresOn day (byAttemptedAtAsc (quizAttempts st)).
Proof.
  intros Hday. unfold scoresOn. f_equal.
  rewrite !byAttemptedAtAsc_filter. f_equal.
  rewrite filter_filter.
  apply filter_ext_in. intros a _.
  destruct (Z.eqb_spec (Date.isoDate (a_attemptedAt a)) day) as [E | E].
  - rewrite andb_true_r. apply Z.leb_le.
    apply window_after_start. now rewrite E.
  - apply andb_false_r.
Qed.

End TrendFacts.

Section TrendSeries.
Import Js Store Analytics AnalyticsSpec.

(** The performance trend is the window of [days] days that ends today,
    oldest first, each day with its entry. *)
Lemma getPerformanceTrend_window (tz now : Z) (st : Store.t) (days : Z) :
  0 <= days ->
  getPerformanceTrend (Date.fixed tz) now st days
  = map (trendEntry st) (window (Date.isoDate now) (Z.to_nat days)).
Proof.
  intros Hdays. unfold getPerformanceTrend. cbv zeta.
  change (Date.addDaysIn (Date.fixed tz)) with (Date.addDays tz).
  set (attempts := byAttemptedAtAsc _).
  assert (Hkeys : map (fun i => Date.isoDate (Date.addDays tz now (- i)))
                      (countdown days)
                  = window (Date.isoDate now) (Z.to_nat days)).
  { rewrite <- countdown_window, Z2Nat.id by exact Hdays.
    apply map_ext. intros i. apply isoDate_addDays. }
  rewrite (set_fold_fresh Z.eqb Z.eqb_eq
             (fun i => Date.isoDate (Date.addDays tz now (- i)))
             (fun i => mkDayBucket
                         (Date.isoDate (Date.addDays tz now (- i))) [] 0));
    [| simpl; rewrite Hkeys; apply window_NoDup].
  rewrite (adjust_fold Z.eqb Z.eqb_eq
             (fun a => Date.isoDate (a_attemptedAt a))
             (fun day a => mkDayBucket (d_date day)
                             (d_scores day ++ [a_score a])
                             (S (d_attempts day))));
    [| unfold keys; simpl; rewrite map_map; simpl; rewrite Hkeys;
       apply window_NoDup].
  unfold values. simpl. rewrite !map_map. simpl.
  rewrite <- Hkeys, map_map.
  apply map_ext_in. intros i Hi.
  rewrite bucket_fold. simpl.
  unfold attempts. rewrite scores_in_window; [apply entry_of_scores |].
  assert (Hin : In (Date.isoDate (Date.addDays tz now (- i)))
                   (window (Date.isoDate now) (Z.to_nat days))).
  { rewrite <- Hkeys. now apply (in_map (fun i => Date.isoDate (Date.addDays tz now (- i)))). }
  apply window_In in Hin. lia.
Qed.

End TrendSeries.

Section RetentionSeries.
Import Js Store Analytics AnalyticsSpec.

(** The test of the retention loop selects the attempts of one local
    day. *)
Lemma local_day_test (tz now i t : Z) :
  let date := Date.setHours tz (Date.addDays tz now (- i)) 0 0 0 0 in
  (date <=? t) && (t <? Date.addDays tz date 1)
  = (Date.localDay tz t =? Date.localDay tz now - i).
Proof.
  cbv zeta. rewrite (addDays_shift tz _ 1).
  unfold Date.setHours. fold (Date.localDay tz (Date.addDays tz now (- i))).
  rewrite localDay_addDays.
  unfold Date.UTC, Date.MakeDate, Date.MakeTime, Date.localDay, Date.LocalTime.
  pose proof (Day_iff (t + tz) (Date.Day (now + tz) + - i)) as H.
  destruct (Z.eqb_spec (Date.Day (t + tz)) (Date.Day (now + tz) - i)) as [E | E].
  - apply andb_true_iff. rewrite Z.leb_le, Z.ltb_lt.
    assert (E' : Date.Day (t + tz) = Date.Day (now + tz) + - i) by lia.
    apply H in E'. lia.
  - apply andb_false_iff. rewrite Z.leb_gt, Z.ltb_ge.
    destruct (Z_lt_le_dec t
                (((Date.Day (now + tz) + - i) * Date.msPerDay
                  + (0 * Date.msPerHour + 0 * Date.msPerMinute
                     + 0 * Date.msPerSecond + 0)) - tz)) as [L | L];
      [now left | right].
    destruct (Z_lt_le_dec t
                (((Date.Day (now + tz) + - i) * Date.msPerDay
                  + (0 * Date.msPerHour + 0 * Date.msPerMinute
                     + 0 * Date.msPerSecond + 0)) - tz + 1 * Date.msPerDay))
      as [L' | L']; [| exact L'].
    exfalso. apply E.
    assert (E' : Date.Day (t + tz) = Date.Day (now + tz) + - i)
      by (apply H; lia).
    lia.
Qed.

Lemma retention_date (tz now i : Z) :
  Date.setHours tz (Date.addDays tz now (- i)) 0 0 0 0
  = Date.UTC tz (Date.MakeDate (Date.localDay tz now - i) 0).
Proof.
  unfold Date.setHours. fold (Date.localDay tz (Date.addDays tz now (- i))).
  rewrite localDay_addDays. reflexivity.
Qed.

(** The retention series of a category is the window of 30 local days
    that ends today, oldest first, each day with its entry. *)
Lemma getCategoryAnalytics_retention (tz now : Z) (st : Store.t)
      (categoryId : string) (ca : CategoryAnalytics) :
  getCategoryAnalytics (Date.fixed tz) now st categoryId = Some ca ->
  ca_retentionTrend ca
  = map (retentionEntry tz (categoryAttempts st categoryId))
        (window (Date.localDay tz now) 30).
Proof.
  unfold getCategoryAnalytics. remember (countdown 30) as todo eqn:Htodo.
  change (Date.addDaysIn (Date.fixed tz)) with (Date.addDays tz).
  change (Date.setHoursIn (Date.fixed tz)) with (Date.setHours tz).
  destruct (findCategory st categoryId) as [category|]; [| discriminate].
  intros H. injection H as <-. cbn [ca_retentionTrend].
  fold (categoryAttempts st categoryId).
  rewrite <- (countdown_window (Date.localDay tz now) 30), map_map.
  change (Z.of_nat 30) with 30. rewrite <- Htodo.
  apply map_ext. intros i. cbv zeta.
  rewrite (filter_ext _ _ (fun a => local_day_test tz now i (a_attemptedAt a))).
  rewrite retention_date. unfold retentionEntry, scoresOnLocal. cbv zeta.
  rewrite length_map. f_equal.
  destruct (filter _ (categoryAttempts st categoryId)) as [|a l];
    [reflexivity |].
  unfold averageOrNull. cbn [map length Nat.ltb Nat.leb].
  now rewrite mean_averageOf.
Qed.

Lemma trendEntry_null (st : Store.t) (day : Z) :
  NullWhenEmpty (trendEntry st day).
Proof.
  unfold NullWhenEmpty, trendEntry, averageOrNull. cbv zeta.
  cbn [t_attempts t_avgScore].
  destruct (scoresOn day (byAttemptedAtAsc (quizAttempts st)));
    cbn [length]; split; intros H; try reflexivity; discriminate H.
Qed.

Lemma retentionEntry_null (tz : Z) (attempts : list QuizAttempt) (day : Z) :
  NullWhenEmpty (retentionEntry tz attempts day).
Proof.
  unfold NullWhenEmpty, retentionEntry, averageOrNull. cbv zeta.
  cbn [t_attempts t_avgScore].
  destruct (scoresOnLocal tz day attempts);
    cbn [length]; split; intros H; try reflexivity; discriminate H.
Qed.

End RetentionSeries.




(** Where the offset of the zone changes inside the window, two days of
    the loop can fall on one UTC date: the series is then shorter than the
    number of days asked for. *)
Lemma getPerformanceTrend_clock_change :
  Date.isoDate (Date.addDaysIn Examples.zone_spring Examples.after_spring 0)
  = 10
  /\ Date.isoDate
       (Date.addDaysIn Examples.zone_spring Examples.after_spring (- (1)))
     = 10
  /\ length (Analytics.getPerformanceTrend Examples.zone_spring
               Examples.after_spring Examples.st_third 2) = 1%nat.
Proof.
  repeat split; vm_compute; reflexivity.
Qed.

(** ** Reading dictionaries *)

Section DictReadFacts.
Context {K V : Type} (keq : K -> K -> bool).
Hypothesis keq_eq : forall a b, keq a b = true <-> a = b.

Lemma keq_refl (k : K) : keq k k = true.
Proof. now apply keq_eq. Qed.

Lemma keq_neq (a b : K) : a <> b -> keq a b = false.
Proof.
  intros H. destruct (keq a b) eqn:E; [| reflexivity].
  apply keq_eq in E. contradiction.
Qed.

Lemma get_set_same (d : @Js.dict K V) (k : K) (v : V) :
  Js.get keq (Js.set keq d k v) k = Some v.
Proof.
  induction d as [|[k' v'] d IH]; simpl.
  - now rewrite keq_refl.
  - destruct (keq k k') eqn:E; simpl; rewrite E; [reflexivity | exact IH].
Qed.

Lemma get_set_other (d : @Js.dict K V) (k k' : K) (v : V) :
  k <> k' -> Js.get keq (Js.set keq d k v) k' = Js.get keq d k'.
Proof.
  intros Hne. induction d as [|[k0 v0] d IH]; simpl.
  - rewrite keq_neq; [reflexivity | congruence].
  - destruct (keq k k0) eqn:E; simpl.
    + apply keq_eq in E. subst.
      rewrite keq_neq; [reflexivity | congruence].
    + now rewrite IH.
Qed.

Lemma get_In (d : @Js.dict K V) (k : K) (v : V) :
  Js.get keq d k = Some v -> In (k, v) d.
Proof.
  induction d as [|[k' v'] d IH]; simpl; [discriminate |].
  destruct (keq k k') eqn:E.
  - apply keq_eq in E. subst. intros H. injection H as ->. now left.
  - intros H. right. now apply IH.
Qed.

Lemma get_None (d : @Js.dict K V) (k : K) :
  Js.get keq d k = None -> ~ In k (Js.keys d).
Proof.
  induction d as [|[k' v'] d IH]; simpl; [tauto |].
  destruct (keq k k') eqn:E; [discriminate |].
  intros H [H' | H']; [| now apply IH].
  subst. now rewrite keq_refl in E.
Qed.

Lemma In_get (d : @Js.dict K V) (k : K) (v : V) :
  NoDup (Js.keys d) -> In (k, v) d -> Js.get keq d k = Some v.
Proof.
  induction d as [|[k' v'] d IH]; simpl; [tauto |].
  intros Hnd Hin. inversion Hnd as [|x l Hk' Hd]; subst.
  destruct Hin as [Hin | Hin].
  - injection Hin as -> ->. now rewrite keq_refl.
  - rewrite keq_neq; [now apply IH |].
    intros ->. apply Hk'. now apply (in_map fst) in Hin.
Qed.

Lemma set_keys_NoDup (d : @Js.dict K V) (k : K) (v : V) :
  NoDup (Js.keys d) -> NoDup (Js.keys (Js.set keq d k v)).
Proof.
  intros Hnd. destruct (Js.get keq d k) as [v0|] eqn:E.
  - pose proof (get_set_adjust keq keq_eq k (fun _ => v) d Hnd) as H.
    rewrite E in H. rewrite H, adjust_keys. exact Hnd.
  - apply get_None in E. rewrite (set_fresh keq keq_eq) by exact E.
    unfold Js.keys in *. rewrite map_app. simpl.
    apply NoDup_app; [exact Hnd | repeat constructor; tauto |].
    intros x Hx [<- | []]. contradiction.
Qed.

End DictReadFacts.

(** ** Insights *)

Section InsightFacts.
Import Js Store Insights InsightsSpec.

Lemma Qlt_bool_iff (a b : Q) : Qlt_bool a b = true <-> (a < b)%Q.
Proof.
  unfold Qlt_bool. rewrite negb_true_iff. split.
  - intros H. apply Qnot_le_lt. intros L.
    apply Qle_bool_iff in L. congruence.
  - intros H. destruct (Qle_bool b a) eqn:E; [| reflexivity].
    apply Qle_bool_iff in E. exfalso. exact (Qlt_not_le _ _ H E).
Qed.

Lemma collect_scoresAt (st : Store.t) (d : dict) (a : QuizAttempt)
      (name : string) :
  scoresAt (collect st d a) name
  = scoresAt d name
    ++ (if String.eqb (categoryName st a) name then [a_score a] else []).
Proof.
  unfold collect, scoresAt. cbv zeta.
  destruct (String.eqb_spec (categoryName st a) name) as [E | E].
  - subst name.
    destruct (get String.eqb d (categoryName st a)) as [data|] eqn:G.
    + rewrite G, (get_set_same String.eqb String.eqb_eq). reflexivity.
    + rewrite !(get_set_same String.eqb String.eqb_eq). reflexivity.
  - rewrite app_nil_r.
    destruct (get String.eqb d (categoryName st a)) as [data|] eqn:G.
    + rewrite G, (get_set_other String.eqb String.eqb_eq) by exact E.
      reflexivity.
    + rewrite (get_set_same String.eqb String.eqb_eq).
      rewrite !(get_set_other String.eqb String.eqb_eq) by exact E.
      reflexivity.
Qed.

Lemma collect_NoDup (st : Store.t) (d : dict) (a : QuizAttempt) :
  NoDup (keys d) -> NoDup (keys (collect st d a)).
Proof.
  intros H. unfold collect. cbv zeta.
  destruct (get String.eqb d (categoryName st a)) as [data|] eqn:G.
  - rewrite G. now apply (set_keys_NoDup String.eqb String.eqb_eq).
  - rewrite (get_set_same String.eqb String.eqb_eq).
    now do 2 apply (set_keys_NoDup String.eqb String.eqb_eq).
Qed.

Lemma collect_fold_scoresAt (st : Store.t) (l : list QuizAttempt) (d : dict)
      (name : string) :
  scoresAt (fold_left (collect st) l d) name
  = scoresAt d name
    ++ map a_score (filter (fun a => String.eqb (categoryName st a) name) l).
Proof.
  revert d. induction l as [|a l IH]; intros d; simpl.
  - now rewrite app_nil_r.
  - rewrite IH, collect_scoresAt, <- app_assoc.
    now destruct (String.eqb (categoryName st a) name).
Qed.

Lemma collect_fold_NoDup (st : Store.t) (l : list QuizAttempt) (d : dict) :
  NoDup (keys d) -> NoDup (keys (fold_left (collect st) l d)).
Proof.
  revert d. induction l as [|a l IH]; intros d H; simpl; [exact H |].
  now apply IH, collect_NoDup.
Qed.

(** The scores under a name, after the loop over all attempts, are the
    scores of the attempts filed under it, newest first. *)
Lemma categoryStats_scores (st : Store.t) (name : string) :
  scoresAt (fold_left (collect st) (byAttemptedAtDesc (quizAttempts st)) [])
           name
  = scoresOfCategory st name.
Proof. now rewrite collect_fold_scoresAt. Qed.

(** [Object.entries] lists the properties of the object, each once. *)
Lemma In_ownEntries {V} (d : @dict string V) (kv : string * V) :
  In kv (ownEntries d) <-> In kv d.
Proof.
  unfold ownEntries. rewrite in_app_iff, sort_In, !filter_In.
  destruct (isIndex (fst kv)); simpl; intuition congruence.
Qed.

(** The rule on one dictionary. *)
Lemma weakCategories_flagged (d : dict) (name : string) :
  NoDup (keys d) ->
  FlaggedWeak (weakCategories d) name
  <-> ((3 <= length (scoresAt d name))%nat
       /\ (NumberSpec.averageOf (scoresAt d name) < 50)%Q).
Proof.
  intros Hnd. unfold FlaggedWeak, weakCategories. split.
  - intros [i [Hin [_ [_ Hcat]]]]. apply in_flat_map in Hin.
    destruct Hin as [[n data] [Hd Hi]]. cbn beta iota zeta in Hi.
    apply (proj1 (In_ownEntries _ _)) in Hd.
    destruct (Nat.leb_spec 3 (length (cs_scores data))) as [L | L];
      [| contradiction].
    destruct (Qlt_bool (mean (cs_scores data)) 50) eqn:A;
      [| contradiction].
    destruct Hi as [<- | []]. simpl in Hcat. injection Hcat as ->.
    apply (In_get String.eqb String.eqb_eq _ _ _ Hnd) in Hd.
    unfold scoresAt. rewrite Hd, <- mean_averageOf.
    split; [exact L | now apply Qlt_bool_iff].
  - intros [L A]. unfold scoresAt in L, A.
    destruct (get String.eqb d name) as [data|] eqn:G; [| simpl in L; lia].
    exists (mkInsight WeakCategory Critical (mean (cs_scores data))
                      (Some name) None []).
    split; [| repeat split].
    apply in_flat_map. exists (name, data).
    split; [apply (proj2 (In_ownEntries _ _));
            now apply (get_In String.eqb String.eqb_eq) |].
    cbn beta iota zeta.
    destruct (Nat.leb_spec 3 (length (cs_scores data))) as [_ | L']; [| lia].
    rewrite <- mean_averageOf in A.
    apply Qlt_bool_iff in A. rewrite A. now left.
Qed.

Lemma weakCategories_shape (d : dict) (i : Insight) :
  In i (weakCategories d) ->
  i_type i = WeakCategory /\ i_priority i = Critical
  /\ exists name, i_category i = Some name.
Proof.
  unfold weakCategories. intros Hin. apply in_flat_map in Hin.
  destruct Hin as [[n data] [_ Hi]]. cbn beta iota zeta in Hi.
  destruct (3 <=? length (cs_scores data))%nat; [| contradiction].
  destruct (Qlt_bool (mean (cs_scores data)) 50); [| contradiction].
  destruct Hi as [<- | []]. simpl. repeat split. now exists n.
Qed.

(** Closes a goal on a list of at most one insight of another type. *)
Ltac other_type :=
  simpl; intros H;
  repeat (destruct H as [<- | H]; [discriminate |]);
  contradiction.

(** No other rule emits an insight of that type. *)
Lemma weekly_type (tz now : Z) (l : list QuizAttempt) (i : Insight) :
  In i (weekly tz now l) -> i_type i <> WeakCategory.
Proof.
  unfold weekly. cbv zeta.
  repeat match goal with
         | |- context [if ?c then _ else _] => destruct c
         end; other_type.
Qed.

Lemma missed_type (now : Z) (l : list Bookmark) (i : Insight) :
  In i (missed now l) -> i_type i <> WeakCategory.
Proof.
  unfold missed. cbv zeta.
  destruct (0 <? length _)%nat; other_type.
Qed.

Lemma retentionDecay_type (l : list QuizAttempt) (d : dict) (i : Insight) :
  In i (retentionDecay l d) -> i_type i <> WeakCategory.
Proof.
  unfold retentionDecay. intros Hin. apply in_flat_map in Hin.
  destruct Hin as [[n data] [_ Hi]]. cbn beta iota zeta in Hi.
  destruct (5 <=? length (cs_scores data))%nat; [| contradiction].
  destruct (Qlt_bool 15 _); [| contradiction].
  destruct Hi as [<- | []]. discriminate.
Qed.

Lemma questionTypes_type (st : Store.t) (l : list QuizAttempt) (i : Insight) :
  In i (questionTypes st l) -> i_type i <> WeakCategory.
Proof.
  unfold questionTypes. cbv zeta. intros Hin. apply in_flat_map in Hin.
  destruct Hin as [ty [_ Hi]].
  destruct (10 <=? _)%nat; [| contradiction].
  destruct (Qlt_bool _ 50); [| contradiction].
  destruct Hi as [<- | []]. discriminate.
Qed.

Lemma consistent_type (tz now : Z) (l : list QuizAttempt) (i : Insight) :
  In i (consistent tz now l) -> i_type i <> WeakCategory.
Proof.
  unfold consistent. cbv zeta.
  repeat match goal with
         | |- context [if ?c then _ else _] => destruct c
         end; other_type.
Qed.

Lemma studyStreak_type (tz now : Z) (l : list QuizAttempt) (i : Insight) :
  In i (studyStreak tz now l) -> i_type i <> WeakCategory.
Proof.
  unfold studyStreak. cbv zeta.
  destruct (3 <=? _)%nat; other_type.
Qed.

(** The weak-category insights of the result are those of the third
    rule. *)
Lemma generateInsights_weak (tz now : Z) (st : Store.t) (i : Insight) :
  i_type i = WeakCategory ->
  In i (generateInsights tz now st)
  <-> In i (weakCategories
              (fold_left (collect st) (byAttemptedAtDesc (quizAttempts st)) [])).
Proof.
  intros Hty. unfold generateInsights. cbv zeta.
  rewrite sort_In, !in_app_iff. split; [| tauto].
  intros [H | [H | [H | [H | [H | [H | H]]]]]]; trivial; exfalso.
  - exact (weekly_type _ _ _ _ H Hty).
  - exact (missed_type _ _ _ H Hty).
  - exact (retentionDecay_type _ _ _ H Hty).
  - exact (questionTypes_type _ _ _ H Hty).
  - exact (consistent_type _ _ _ _ H Hty).
  - exact (studyStreak_type _ _ _ _ H Hty).
Qed.

(** The rule on the whole engine. *)
Lemma generateInsights_flagged (tz now : Z) (st : Store.t) (name : string) :
  FlaggedWeak (generateInsights tz now st) name
  <-> ((3 <= length (scoresOfCategory st name))%nat
       /\ (NumberSpec.averageOf (scoresOfCategory st name) < 50)%Q).
Proof.
  set (stats := fold_left (collect st) (byAttemptedAtDesc (quizAttempts st)) []).
  assert (Hnd : NoDup (keys stats))
    by (apply collect_fold_NoDup; constructor).
  rewrite <- (categoryStats_scores st name). fold stats.
  rewrite <- (weakCategories_flagged stats name Hnd).
  unfold FlaggedWeak.
  split; intros [i [Hin [Hty H]]]; exists i; (split; [| now split]);
    now apply (generateInsights_weak tz now st i Hty).
Qed.

Lemma byAttemptedAtDesc_filter (p : QuizAttempt -> bool) (l : list QuizAttempt) :
  filter p (byAttemptedAtDesc l) = byAttemptedAtDesc (filter p l).
Proof.
  unfold byAttemptedAtDesc. apply filter_sort.
  - intros a b H. apply Z.leb_gt in H. apply Z.leb_le. lia.
  - intros a b c H1 H2. apply Z.leb_le in H1, H2. apply Z.leb_le. lia.
Qed.

Lemma categoryOfAttempt_In (st : Store.t) (a : QuizAttempt) (c : Category) :
  categoryOfAttempt st a = Some c -> In c (categories st).
Proof.
  unfold categoryOfAttempt, categoryOf, findCategory.
  destruct (findBookmark st (a_bookmarkId a)) as [b|]; [| discriminate].
  destruct (b_categoryId b) as [id|]; [| discriminate].
  intros H. now apply find_some in H.
Qed.

(** The attempts filed under the name of a category that has its name
    to itself are the attempts on its bookmarks. *)
Lemma scoresOfCategory_own (st : Store.t) (c : Category) :
  OwnName st c ->
  scoresOfCategory st (c_name c)
  = map a_score (byAttemptedAtDesc (attemptsOfCategory st c)).
Proof.
  intros [Hne [Hun Hown]]. unfold scoresOfCategory, attemptsOfCategory.
  rewrite <- byAttemptedAtDesc_filter. f_equal. apply filter_ext.
  intros a. unfold categoryName.
  destruct (categoryOfAttempt st a) as [c'|] eqn:E.
  - apply categoryOfAttempt_In in E. specialize (Hown c' E).
    destruct (String.eqb_spec (c_id c') (c_id c)) as [I | I].
    + apply Hown in I. rewrite I.
      destruct (String.eqb_spec (c_name c) "") as [N | _]; [contradiction |].
      apply String.eqb_refl.
    + destruct (String.eqb_spec (c_name c') "") as [N | _].
      * apply String.eqb_neq. congruence.
      * apply String.eqb_neq. intros N. apply I. now apply Hown.
  - apply String.eqb_neq. congruence.
Qed.

End InsightFacts.

(** C9, as the code has it.  The attempts are filed under category names,
    those on a bookmark without category under "Uncategorized".  When the
    engine returns its insights, they hold a critical weak-category
    insight for a name exactly when at least three attempts of the whole
    history are filed under it and the double average of their scores,
    summed from the newest attempt, is strictly below 50.  For a category
    that has its name to itself these are the attempts on its bookmarks, so
    that the category is flagged exactly when it has three attempts or
    more that average below 50.  No other insight is of the weak-category
    type: each one is critical and names what it flags. *)
Theorem generateInsights_weak_category
  (tz now : Z) (st : Store.t) (insights : list Insights.Insight) :
  Insights.generateInsightsOutcome tz now st = Some insights ->
  (forall name,
      InsightsSpec.FlaggedWeak insights name
      <-> ((3 <= length (InsightsSpec.scoresOfCategory st name))%nat
           /\ (NumberSpec.averageOf (InsightsSpec.scoresOfCategory st name)
               < 50)%Q))
  /\ (forall c, In c (Store.categories st) ->
                InsightsSpec.OwnName st c ->
                InsightsSpec.FlagsCategory st insights c)
  /\ (forall i, In i insights ->
                Insights.i_type i = Insights.WeakCategory ->
                Insights.i_priority i = Insights.Critical
                /\ exists n, Insights.i_category i = Some n).
Proof.
  unfold Insights.generateInsightsOutcome.
  destruct (Insights.throws st); [discriminate |].
  intros H. injection H as <-.
  split; [intros name; apply generateInsights_flagged |]. split.
  - intros c _ Hown. unfold InsightsSpec.FlagsCategory.
    rewrite generateInsights_flagged, (scoresOfCategory_own st c Hown).
    rewrite length_map. unfold Store.byAttemptedAtDesc at 1.
    now rewrite sort_length.
  - intros i Hin Hty. apply (generateInsights_weak tz now st i Hty) in Hin.
    apply weakCategories_shape in Hin. tauto.
Qed.

(** The two scenarios of the specification, and a category that averages
    15 over two attempts only. *)
Lemma weak_category_scenarios :
  let insights := Insights.generateInsights 0 1000 Examples.st_insights in
  Insights.generateInsightsOutcome 0 1000 Examples.st_insights = Some insights
  /\ InsightsSpec.scoresOfCategory Examples.st_insights "Botany"
     = [45; 40; 30]%Q
  /\ InsightsSpec.FlaggedWeak insights "Botany"
  /\ InsightsSpec.scoresOfCategory Examples.st_insights "History"
     = [85; 90]%Q
  /\ ~ InsightsSpec.FlaggedWeak insights "History"
  /\ InsightsSpec.scoresOfCategory Examples.st_insights "Maths" = [20; 10]%Q
  /\ ~ InsightsSpec.FlaggedWeak insights "Maths".
Proof.
  cbv zeta. split; [reflexivity |].
  split; [reflexivity |]. split; [| split; [reflexivity |]; split; [| split; [reflexivity |]]].
  - apply generateInsights_flagged. split; [simpl; lia | vm_compute; reflexivity].
  - intros H. apply generateInsights_flagged in H.
    destruct H as [H _]. simpl in H. lia.
  - intros H. apply generateInsights_flagged in H.
    destruct H as [H _]. simpl in H. lia.
Qed.

Lemma generateInsights_weak_category_witness :
  let st := Examples.st_insights in
  let insights := Insights.generateInsights 0 1000 st in
  let botany := Store.mkCategory Examples.id_c1 "Botany" in
  Insights.generateInsightsOutcome 0 1000 st = Some insights
  /\ In botany (Store.categories st)
  /\ InsightsSpec.OwnName st botany
  /\ length (InsightsSpec.attemptsOfCategory st botany) = 3%nat
  /\ InsightsSpec.FlaggedWeak insights "Botany".
Proof.
  cbv zeta.
  assert (H : Insights.generateInsightsOutcome 0 1000 Examples.st_insights
              = Some (Insights.generateInsights 0 1000 Examples.st_insights))
    by reflexivity.
  assert (Hin : In (Store.mkCategory Examples.id_c1 "Botany")
                   (Store.categories Examples.st_insights))
    by (left; reflexivity).
  assert (Hown : InsightsSpec.OwnName Examples.st_insights
                   (Store.mkCategory Examples.id_c1 "Botany")).
  { split; [discriminate |]. split; [discriminate |].
    intros c' [<- | [<- | [<- | []]]]; split; intros E;
      try reflexivity; discriminate E. }
  split; [exact H |]. split; [exact Hin |]. split; [exact Hown |].
  split; [reflexivity |].
  apply (proj1 (proj2 (generateInsights_weak_category 0 1000
                         Examples.st_insights _ H)) _ Hin Hown).
  split; [simpl; lia | vm_compute; reflexivity].
Defined.

(** C9, as the claim has it, fails: a category that the user named
    "Uncategorized" has two attempts and is flagged all the same, on the
    strength of an attempt on a bookmark without category. *)
Lemma generateInsights_flags_by_name :
  let st := Examples.st_named in
  let c := Store.mkCategory Examples.id_c1 "Uncategorized" in
  exists insights,
    Insights.generateInsightsOutcome 0 1000 st = Some insights
    /\ In c (Store.categories st)
    /\ length (InsightsSpec.attemptsOfCategory st c) = 2%nat
    /\ InsightsSpec.FlaggedWeak insights (Store.c_name c)
    /\ ~ InsightsSpec.FlagsCategories st insights.
Proof.
  cbv zeta. eexists. split; [reflexivity |].
  assert (Hflag : InsightsSpec.FlaggedWeak
                    (Insights.generateInsights 0 1000 Examples.st_named)
                    "Uncategorized").
  { apply generateInsights_flagged.
    split; [simpl; lia | vm_compute; reflexivity]. }
  split; [left; reflexivity |]. split; [reflexivity |].
  split; [exact Hflag |].
  intros H.
  specialize (H (Store.mkCategory Examples.id_c1 "Uncategorized")
                (or_introl eq_refl)).
  apply H in Hflag. destruct Hflag as [L _]. simpl in L. lia.
Qed.


(* ================================================================== *)
(** * Part III: further properties of the code                         *)
(* ================================================================== *)

(** ** The evaluator and the form of an answer *)

Section NormaliseFacts.
Import Js.

Lemma isWhiteSpace_toLowerChar (c : ascii) :
  isWhiteSpace (toLowerChar c) = isWhiteSpace c.
Proof. destruct c as [[|] [|] [|] [|] [|] [|] [|] [|]]; reflexivity. Qed.

Lemma trimStart_blank (pad : jsstring) :
  Forall (fun c => isWhiteSpace c = true) pad -> trimStart pad = [].
Proof.
  induction 1 as [|c pad Hc _ IH]; simpl; [reflexivity |].
  now rewrite Hc.
Qed.

Lemma trimStart_pad (pad s : jsstring) :
  Forall (fun c => isWhiteSpace c = true) pad ->
  trimStart (pad ++ s) = trimStart s.
Proof.
  induction 1 as [|c pad Hc _ IH]; simpl; [reflexivity |].
  now rewrite Hc.
Qed.

Lemma trimEnd_pad (s pad : jsstring) :
  Forall (fun c => isWhiteSpace c = true) pad ->
  trimEnd (s ++ pad) = trimEnd s.
Proof.
  intros H. unfold trimEnd. rewrite rev_app_distr, trimStart_pad; [reflexivity |].
  apply Forall_forall. intros c Hc. apply in_rev in Hc.
  revert c Hc. now apply Forall_forall.
Qed.

Lemma trimEnd_nil : trimEnd [] = [].
Proof. reflexivity. Qed.

Lemma trim_pad_end (s pad : jsstring) :
  Forall (fun c => isWhiteSpace c = true) pad ->
  trim (s ++ pad) = trim s.
Proof.
  intros H. unfold trim. induction s as [|c s IH]; simpl.
  - now rewrite (trimStart_blank pad H).
  - destruct (isWhiteSpace c); [exact IH |].
    exact (trimEnd_pad (c :: s) pad H).
Qed.

Lemma trim_pad (pre s post : jsstring) :
  Forall (fun c => isWhiteSpace c = true) pre ->
  Forall (fun c => isWhiteSpace c = true) post ->
  trim (pre ++ s ++ post) = trim s.
Proof.
  intros Hpre Hpost. rewrite app_assoc, (trim_pad_end _ _ Hpost).
  unfold trim. now rewrite (trimStart_pad _ _ Hpre).
Qed.

Lemma toLowerCase_blank (pad : jsstring) :
  Forall (fun c => isWhiteSpace c = true) pad ->
  Forall (fun c => isWhiteSpace c = true) (toLowerCase pad).
Proof.
  intros H. unfold toLowerCase. apply Forall_map.
  eapply Forall_impl; [| exact H].
  intros c Hc. now rewrite isWhiteSpace_toLowerChar.
Qed.

(** White space around a text and the case of its letters do not show
    after lower-casing and trimming. *)
Lemma normalise_pad (pre s s' post : jsstring) :
  Forall (fun c => isWhiteSpace c = true) pre ->
  Forall (fun c => isWhiteSpace c = true) post ->
  toLowerCase s = toLowerCase s' ->
  trim (toLowerCase (pre ++ s ++ post)) = trim (toLowerCase s').
Proof.
  intros Hpre Hpost Hs. unfold toLowerCase in *. rewrite !map_app, Hs.
  apply trim_pad; now apply toLowerCase_blank.
Qed.

Lemma jsstring_eqb_refl (s : jsstring) : jsstring_eqb s s = true.
Proof.
  induction s as [|c s IH]; simpl; [reflexivity |].
  now rewrite Ascii.eqb_refl.
Qed.

Lemma includes_refl (s : jsstring) : includes s s = true.
Proof.
  destruct s as [|c s]; [reflexivity |].
  cbn [includes]. apply orb_true_iff. left.
  apply startsWith_prefix. exists []. now rewrite app_nil_r.
Qed.

End NormaliseFacts.

(** X1.  The verdict on an answer does not depend on white space before or
    after it, nor on the case of its letters. *)
Theorem checkAnswer_padding_and_case
  (question : Store.Question) (pre s s' post : Js.jsstring) :
  Forall (fun c => Js.isWhiteSpace c = true) pre ->
  Forall (fun c => Js.isWhiteSpace c = true) post ->
  Js.toLowerCase s = Js.toLowerCase s' ->
  Quiz.checkAnswer question (pre ++ s ++ post) = Quiz.checkAnswer question s'.
Proof.
  intros Hpre Hpost Hs. unfold Quiz.checkAnswer.
  now rewrite (normalise_pad pre s s' post Hpre Hpost Hs).
Qed.

Lemma checkAnswer_padding_and_case_witness :
  Forall (fun c => Js.isWhiteSpace c = true) (Js.str " ")
  /\ Js.toLowerCase (Js.str "Paris") = Js.toLowerCase (Js.str "paris")
  /\ Quiz.checkAnswer Examples.q_capital (Js.str " " ++ Js.str "Paris" ++ Js.str " ")
     = Quiz.checkAnswer Examples.q_capital (Js.str "paris").
Proof.
  assert (Hpad : Forall (fun c => Js.isWhiteSpace c = true) (Js.str " "))
    by (repeat constructor).
  assert (Hcase : Js.toLowerCase (Js.str "Paris") = Js.toLowerCase (Js.str "paris"))
    by reflexivity.
  split; [exact Hpad |]. split; [exact Hcase |].
  exact (checkAnswer_padding_and_case Examples.q_capital (Js.str " ")
           (Js.str "Paris") (Js.str "paris") (Js.str " ") Hpad Hpad Hcase).
Defined.

Section VerbatimFacts.
Import Js Store Quiz QuizSpec.

(** The verdict on a short or scenario question when every key term is
    matched: the correct answer must have a key term. *)
Lemma checkAnswer_all_matched (question : Question) (selectedAnswer : jsstring) :
  q_type question = Short \/ q_type question = Scenario ->
  (forall w, In w (keyTerms (q_correctAnswer question)) ->
             existsb (fun sw => includes sw w || includes w sw)
                     (tokens selectedAnswer) = true) ->
  checkAnswer question selectedAnswer
  = match keyTerms (q_correctAnswer question) with
    | [] => false
    | _ :: _ => true
    end.
Proof.
  intros Hty Hall.
  assert (Hcode : checkAnswer question selectedAnswer
                  = ge (div_lengths
                          (length (filter
                                     (fun w => existsb
                                                 (fun sw => includes sw w || includes w sw)
                                                 (tokens selectedAnswer))
                                     (keyTerms (q_correctAnswer question))))
                          (length (keyTerms (q_correctAnswer question))))
                       (1 # 2)).
  { unfold checkAnswer. destruct Hty as [-> | ->]; reflexivity. }
  rewrite Hcode, (filter_all_true _ _ Hall).
  destruct (keyTerms (q_correctAnswer question)) as [|w l]; [reflexivity |].
  apply ge_half_div_lengths; [lia |]. split; [discriminate | simpl; lia].
Qed.

End VerbatimFacts.

(** X2.  The stored correct answer, submitted as it is, is judged correct
    on a multiple-choice and on a flashcard question; on a short or
    scenario question it is judged correct exactly when it has a key term
    (a word of more than three characters). *)
Theorem checkAnswer_verbatim (question : Store.Question) :
  Quiz.checkAnswer question (Store.q_correctAnswer question)
  = match Store.q_type question with
    | Store.Mcq | Store.Flashcard => true
    | Store.Short | Store.Scenario =>
        match QuizSpec.keyTerms (Store.q_correctAnswer question) with
        | [] => false
        | _ :: _ => true
        end
    | Store.OtherType => false
    end.
Proof.
  destruct (Store.q_type question) eqn:Hty.
  - unfold Quiz.checkAnswer. rewrite Hty. apply jsstring_eqb_refl.
  - apply checkAnswer_all_matched; [now left |].
    intros w Hw. apply existsb_exists. exists w. split.
    + unfold QuizSpec.keyTerms in Hw. apply filter_In in Hw. tauto.
    + now rewrite includes_refl.
  - apply checkAnswer_all_matched; [now right |].
    intros w Hw. apply existsb_exists. exists w. split.
    + unfold QuizSpec.keyTerms in Hw. apply filter_In in Hw. tauto.
    + now rewrite includes_refl.
  - unfold Quiz.checkAnswer. rewrite Hty, includes_refl. reflexivity.
  - unfold Quiz.checkAnswer. now rewrite Hty.
Qed.

(** X3.  On a short or scenario question, an answer that is blank once
    lower-cased and trimmed is judged correct as soon as the correct
    answer has a key term: its single empty token occurs in every key
    term. *)
Theorem checkAnswer_short_blank
  (question : Store.Question) (selectedAnswer : Js.jsstring) :
  Store.q_type question = Store.Short \/ Store.q_type question = Store.Scenario ->
  Js.trim (Js.toLowerCase selectedAnswer) = [] ->
  Quiz.checkAnswer question selectedAnswer
  = match QuizSpec.keyTerms (Store.q_correctAnswer question) with
    | [] => false
    | _ :: _ => true
    end.
Proof.
  intros Hty Hblank. apply checkAnswer_all_matched; [exact Hty |].
  intros w _. unfold QuizSpec.tokens, QuizSpec.normalise. rewrite Hblank.
  simpl. now rewrite includes_nil, orb_true_r.
Qed.

Lemma checkAnswer_short_blank_witness :
  (Store.q_type Examples.q_essay = Store.Short
   \/ Store.q_type Examples.q_essay = Store.Scenario)
  /\ Js.trim (Js.toLowerCase (Js.str "  ")) = []
  /\ Quiz.checkAnswer Examples.q_essay (Js.str "  ") = true.
Proof.
  assert (Hty : Store.q_type Examples.q_essay = Store.Short
                \/ Store.q_type Examples.q_essay = Store.Scenario)
    by (left; reflexivity).
  assert (Hblank : Js.trim (Js.toLowerCase (Js.str "  ")) = []) by reflexivity.
  split; [exact Hty |]. split; [exact Hblank |].
  exact (checkAnswer_short_blank Examples.q_essay (Js.str "  ") Hty Hblank).
Defined.

(** ** The schedule *)

Section ScheduleFacts.
Import Js Store RevisionEngine ScheduleSpec.

Lemma tierDays_range (score : Q) : 1 <= tierDays score <= 5.
Proof.
  unfold tierDays. destruct (Qle_bool 80 score), (Qle_bool 50 score); lia.
Qed.

Lemma tierDays_mono (s1 s2 : Q) :
  (s1 <= s2)%Q -> tierDays s1 <= tierDays s2.
Proof.
  intros H. unfold tierDays.
  destruct (Qle_bool 80 s1) eqn:A1.
  - apply Qle_bool_iff in A1.
    assert (A2 : Qle_bool 80 s2 = true)
      by (apply Qle_bool_iff; now apply Qle_trans with s1).
    rewrite A2. lia.
  - destruct (Qle_bool 50 s1) eqn:B1.
    + apply Qle_bool_iff in B1.
      assert (B2 : Qle_bool 50 s2 = true)
        by (apply Qle_bool_iff; now apply Qle_trans with s1).
      rewrite B2. destruct (Qle_bool 80 s2); lia.
    + destruct (Qle_bool 80 s2), (Qle_bool 50 s2); lia.
Qed.

(** The time value of the next review. *)
Lemma calculateNextReviewDate_value (tz now : Z) (score : Q) :
  calculateNextReviewDate tz now score
  = (Date.localDay tz now + tierDays score) * Date.msPerDay
    + 9 * Date.msPerHour - tz.
Proof.
  unfold calculateNextReviewDate. cbv zeta. fold (tierDays score).
  unfold Date.setHours.
  fold (Date.localDay tz (Date.addDays tz now (tierDays score))).
  rewrite localDay_addDays.
  unfold Date.UTC, Date.MakeDate, Date.MakeTime. lia.
Qed.

Lemma localDay_bounds (tz now : Z) :
  Date.localDay tz now * Date.msPerDay <= now + tz
  < (Date.localDay tz now + 1) * Date.msPerDay.
Proof. unfold Date.localDay, Date.LocalTime. apply Day_bounds. Qed.

Lemma next_review_later (tz now : Z) (score : Q) :
  now + 9 * Date.msPerHour < calculateNextReviewDate tz now score.
Proof.
  rewrite calculateNextReviewDate_value.
  pose proof (localDay_bounds tz now). pose proof (tierDays_range score).
  pose proof msPerDay_pos. nia.
Qed.

End ScheduleFacts.

(** X4.  The next review always lies in the future, and within six
    days of the attempt. *)
Theorem calculateNextReviewDate_future (tz now : Z) (score : Q) :
  now < RevisionEngine.calculateNextReviewDate tz now score
  /\ RevisionEngine.calculateNextReviewDate tz now score
     <= now + 6 * Date.msPerDay.
Proof.
  rewrite calculateNextReviewDate_value.
  pose proof (localDay_bounds tz now). pose proof (tierDays_range score).
  unfold Date.msPerDay, Date.msPerHour in *. lia.
Qed.

(** X5.  A better score never brings the next review forward. *)
Theorem calculateNextReviewDate_monotone (tz now : Z) (s1 s2 : Q) :
  (s1 <= s2)%Q ->
  RevisionEngine.calculateNextReviewDate tz now s1
  <= RevisionEngine.calculateNextReviewDate tz now s2.
Proof.
  intros H. rewrite !calculateNextReviewDate_value.
  pose proof (tierDays_mono s1 s2 H). pose proof msPerDay_pos. nia.
Qed.

Lemma calculateNextReviewDate_monotone_witness :
  (49 <= 50)%Q
  /\ RevisionEngine.calculateNextReviewDate 0 5000 49
     <= RevisionEngine.calculateNextReviewDate 0 5000 50.
Proof.
  assert (H : (49 <= 50)%Q) by discriminate.
  split; [exact H |].
  exact (calculateNextReviewDate_monotone 0 5000 49 50 H).
Defined.

Section RescheduleFacts.
Import Js Store RevisionEngine.

Lemma due_row_is_due (nulls : NullsOrder) (now : Z) (st : Store.t)
      (limit : nat) (d : DueBookmark) :
  In d (getDueBookmarks nulls now st limit) ->
  In (d_bookmark d) (bookmarks st) /\ dueWhere now (d_bookmark d) = true
  /\ d = loadDue st (d_bookmark d).
Proof.
  unfold getDueBookmarks. intros H. apply in_map_iff in H.
  destruct H as [b [<- Hb]]. apply In_firstn, sort_In, filter_In in Hb.
  simpl. tauto.
Qed.

Lemma reviewed_not_due (tz now : Z) (score : Q) (b : Bookmark) :
  dueWhere now
    (mkBookmark (b_id b) (b_title b) (b_categoryId b) (Some now)
       (Some (calculateNextReviewDate tz now score)) (b_createdAt b))
  = false.
Proof.
  unfold dueWhere, lte, is_null. simpl. rewrite orb_false_r.
  apply Z.leb_gt. pose proof (next_review_later tz now score).
  unfold Date.msPerHour in *. lia.
Qed.

Lemma updateRevisionSchedule_effect_bookmarks (tz now : Z) (st : Store.t)
      (id : string) (score : Q) :
  match updateRevisionSchedule tz now st id score with
  | None => True
  | Some (st', _) =>
      bookmarks st'
      = map (fun b => if String.eqb (b_id b) id
                      then SubmitSpec.reviewed now
                             (calculateNextReviewDate tz now score) b
                      else b)
            (bookmarks st)
  end.
Proof.
  unfold updateRevisionSchedule, updateBookmark.
  destruct (findBookmark st id); [reflexivity | exact I].
Qed.

End RescheduleFacts.

(** X6.  [updateRevisionSchedule] fails exactly when no bookmark has the
    id.  When it succeeds it touches the bookmarks table only: the
    bookmarks of that id are marked as reviewed at [now] and scheduled for
    the computed date, every other bookmark is as it was, and at that time
    [getDueBookmarks] no longer returns a bookmark of that id. *)
Theorem updateRevisionSchedule_effect
  (tz now : Z) (st : Store.t) (id : string) (score : Q) :
  match RevisionEngine.updateRevisionSchedule tz now st id score with
  | None => Store.findBookmark st id = None
  | Some (st', schedule) =>
      Store.findBookmark st id <> None
      /\ RevisionEngine.lastReviewedAt schedule = now
      /\ RevisionEngine.nextReviewAt schedule
         = RevisionEngine.calculateNextReviewDate tz now score
      /\ Store.categories st' = Store.categories st
      /\ Store.questions st' = Store.questions st
      /\ Store.quizAttempts st' = Store.quizAttempts st
      /\ Store.userAnswers st' = Store.userAnswers st
      /\ Store.bookmarks st'
         = map (fun b => if String.eqb (Store.b_id b) id
                         then SubmitSpec.reviewed now
                                (RevisionEngine.calculateNextReviewDate tz now score) b
                         else b)
               (Store.bookmarks st)
      /\ (forall nulls limit d,
             In d (RevisionEngine.getDueBookmarks nulls now st' limit) ->
             Store.b_id (RevisionEngine.d_bookmark d) <> id)
  end.
Proof.
  unfold RevisionEngine.updateRevisionSchedule, RevisionEngine.updateBookmark.
  destruct (Store.findBookmark st id) as [b0|] eqn:Hfind; [| reflexivity].
  split; [discriminate |]. repeat (split; [reflexivity |]).
  intros nulls limit d Hd Hid. apply due_row_is_due in Hd.
  destruct Hd as [Hin [Hdue _]]. cbn [Store.bookmarks] in Hin.
  apply in_map_iff in Hin. destruct Hin as [b [Hb _]].
  destruct (String.eqb_spec (Store.b_id b) id) as [E | E].
  - rewrite <- Hb, reviewed_not_due in Hdue. discriminate.
  - apply E. rewrite <- Hid, <- Hb. reflexivity.
Qed.

Section DueRowFacts.
Import Js Store RevisionEngine RevisionSpec.

Lemma sorted_head_latest (l : list QuizAttempt) (a : QuizAttempt) :
  StronglySorted (fun x y => a_attemptedAt y <= a_attemptedAt x) l ->
  firstn 1 l = [a] ->
  forall x, In x l -> a_attemptedAt x <= a_attemptedAt a.
Proof.
  intros Hs Hhd x Hx. destruct l as [|y l]; [discriminate |].
  simpl in Hhd. injection Hhd as ->.
  inversion Hs as [|y l' _ Hall]; subst.
  destruct Hx as [-> | Hx]; [lia |].
  rewrite Forall_forall in Hall. now apply Hall.
Qed.

End DueRowFacts.

(** X7.  A row of [getDueBookmarks] carries at most five questions, all of
    them multiple-choice questions of its bookmark, and at most one
    attempt, which is an attempt of its bookmark that no other attempt of
    the bookmark is later than; it carries no attempt exactly when the
    bookmark has none. *)
Theorem getDueBookmarks_rows
  (nulls : Store.NullsOrder) (now : Z) (st : Store.t) (limit : nat) :
  Forall
    (fun d =>
       let id := Store.b_id (RevisionEngine.d_bookmark d) in
       (length (RevisionEngine.d_questions d) <= 5)%nat
       /\ Forall (fun q => In q (Store.questions st)
                           /\ Store.q_bookmarkId q = id
                           /\ Store.q_type q = Store.Mcq)
                 (RevisionEngine.d_questions d)
       /\ (length (RevisionEngine.d_quizAttempts d) <= 1)%nat
       /\ (RevisionEngine.d_quizAttempts d = [] <-> Store.attemptsOf st id = [])
       /\ Forall (fun a => In a (Store.attemptsOf st id)
                           /\ forall x, In x (Store.attemptsOf st id) ->
                                        Store.a_attemptedAt x
                                        <= Store.a_attemptedAt a)
                 (RevisionEngine.d_quizAttempts d))
    (RevisionEngine.getDueBookmarks nulls now st limit).
Proof.
  apply Forall_forall. intros d Hd. apply due_row_is_due in Hd.
  destruct Hd as [_ [_ ->]]. cbv zeta.
  set (b := RevisionEngine.d_bookmark d).
  cbn [RevisionEngine.loadDue RevisionEngine.d_bookmark
       RevisionEngine.d_questions RevisionEngine.d_quizAttempts].
  destruct (byAttemptedAtDesc_recent st (Store.b_id b)) as [Hperm Hsorted].
  split; [apply firstn_le_length |]. split; [| split; [apply firstn_le_length |]; split].
  - apply Forall_forall. intros q Hq. apply In_firstn, filter_In in Hq.
    destruct Hq as [Hin Hq]. apply andb_true_iff in Hq. destruct Hq as [H1 H2].
    apply String.eqb_eq in H1. split; [exact Hin |]. split; [exact H1 |].
    destruct (Store.q_type q); try discriminate. reflexivity.
  - split; intros H.
    + destruct (Store.byAttemptedAtDesc (Store.attemptsOf st (Store.b_id b)))
        as [|a l] eqn:E; [| discriminate].
      apply Permutation_nil. now rewrite <- E in *.
    + rewrite H. reflexivity.
  - apply Forall_forall. intros a Ha.
    assert (Hhd : firstn 1 (Store.byAttemptedAtDesc
                              (Store.attemptsOf st (Store.b_id b))) = [a]).
    { destruct (Store.byAttemptedAtDesc (Store.attemptsOf st (Store.b_id b)))
        as [|y l]; [contradiction |].
      simpl in Ha. destruct Ha as [-> | []]. reflexivity. }
    split.
    + apply (Permutation_in _ Hperm). now apply In_firstn in Ha.
    + intros x Hx. apply (sorted_head_latest _ _ Hsorted Hhd).
      apply (Permutation_in _ (Permutation_sym Hperm)). exact Hx.
Qed.

(** X8.  In a daily review set there are no more questions than bookmarks
    and no more than five bookmarks; [totalDue] counts the candidates
    before the cut, weak ones included: the set returns five of them when
    there are more, all of them otherwise, and there are never more than
    eight. *)
Theorem createDailyReviewSet_bounds
  (nulls : Store.NullsOrder) (now : Z) (st : Store.t) :
  let set := RevisionEngine.createDailyReviewSet nulls now st in
  (length (RevisionEngine.rs_questions set)
   <= length (RevisionEngine.rs_bookmarks set))%nat
  /\ length (RevisionEngine.rs_bookmarks set)
     = Nat.min 5 (RevisionEngine.rs_totalDue set)
  /\ (RevisionEngine.rs_totalDue set <= 8)%nat.
Proof.
  cbv zeta. unfold RevisionEngine.createDailyReviewSet.
  cbn [RevisionEngine.rs_questions RevisionEngine.rs_bookmarks
       RevisionEngine.rs_totalDue].
  change (fun bookmark : RevisionEngine.ReviewBookmark =>
            match RevisionEngine.rb_questions bookmark with
            | Some (q :: _) =>
                [RevisionEngine.mkReviewQuestion q
                   (Store.b_title (RevisionEngine.rb_bookmark bookmark))]
            | _ => []
            end) with RevisionSpec.pick.
  split; [| split].
  - rewrite length_firstn.
    etransitivity; [apply Nat.le_min_r | apply flat_map_pick_length].
  - apply length_firstn.
  - rewrite length_app, !length_map.
    pose proof (getDueBookmarks_length nulls now st 5) as Hd.
    assert (Hw : (length (RevisionEngine.getWeakestBookmarks st 3) <= 3)%nat)
      by apply firstn_le_length.
    pose proof (filter_length_le
                  (fun w => negb (existsb
                                    (String.eqb (Store.b_id (RevisionEngine.w_bookmark w)))
                                    (map (fun d => Store.b_id (RevisionEngine.d_bookmark d))
                                         (RevisionEngine.getDueBookmarks nulls now st 5))))
                  (RevisionEngine.getWeakestBookmarks st 3)) as Hf.
    lia.
Qed.

(** ** What a submission leaves behind *)

Section SubmitMoreFacts.
Import Js Store RevisionEngine Quiz SubmitSpec.

(** A reply with a result means that the body passed the schema and that
    the bookmark exists. *)
Lemma submit_Json_inv (is_uuid : string -> bool) (tz now : Z) (newId : string)
      (st st' : Store.t) (body : SubmitBody) (r : SubmitResponse) :
  submit is_uuid tz now newId st body = (st', Json r) ->
  submitQuizSchema is_uuid body = true
  /\ exists b, findBookmark st (bookmarkId body) = Some b.
Proof.
  intros H. destruct (submitQuizSchema is_uuid body) eqn:Hs.
  - split; [reflexivity |].
    destruct (findBookmark st (bookmarkId body)) as [b|] eqn:Hf; [now exists b |].
    destruct (submit_rejected is_uuid tz now newId st body) as [_ Hr].
    rewrite (Hr Hs Hf) in H. discriminate.
  - destruct (submit_rejected is_uuid tz now newId st body) as [Hr _].
    rewrite (Hr Hs) in H. discriminate.
Qed.

Lemma correct_results (st : Store.t) (answers : list Answer) :
  length (filter r_isCorrect (flat_map (resultOf st) answers))
  = length (filter (judgedCorrect st) answers).
Proof.
  induction answers as [|a answers IH]; simpl; [reflexivity |].
  rewrite filter_app, length_app, IH. unfold resultOf, judgedCorrect.
  destruct (findQuestion st (questionId a)) as [q|]; simpl; [| reflexivity].
  destruct (checkAnswer q (selectedAnswer a)); reflexivity.
Qed.

Lemma filter_split_length {A} (p : A -> bool) (l : list A) :
  (length (filter p l) + length (filter (fun x => negb (p x)) l))%nat = length l.
Proof.
  induction l as [|x l IH]; simpl; [reflexivity |].
  destruct (p x); simpl; lia.
Qed.

Lemma scoreOf_range (correct total : nat) :
  (correct <= total)%nat -> (0 <= scoreOf correct total <= 100)%Q.
Proof.
  intros H. unfold scoreOf. destruct (Nat.ltb_spec 0 total) as [Hpos | Hz].
  - now apply percent_count_range.
  - split; discriminate.
Qed.

End SubmitMoreFacts.

(** X9.  In every successful reply to a submission, [correct] does not
    exceed [total], [results] has [total] elements and [weakQuestions] the
    [total - correct] wrong ones; the score, as stored with the one new
    attempt and as replied, lies between 0 and 100. *)
Theorem submit_reply_consistent
  (is_uuid : string -> bool) (tz now : Z) (newId : string)
  (st st' : Store.t) (body : Quiz.SubmitBody) (r : Quiz.SubmitResponse) :
  Quiz.submit is_uuid tz now newId st body = (st', Quiz.Json r) ->
  (Quiz.res_correct r <= Quiz.res_total r)%nat
  /\ length (Quiz.res_results r) = Quiz.res_total r
  /\ Quiz.res_correct r = length (filter Quiz.r_isCorrect (Quiz.res_results r))
  /\ Quiz.res_weakQuestions r
     = filter (fun x => negb (Quiz.r_isCorrect x)) (Quiz.res_results r)
  /\ length (Quiz.res_weakQuestions r)
     = (Quiz.res_total r - Quiz.res_correct r)%nat
  /\ (0 <= Quiz.res_score r <= 100)%Q
  /\ exists attempt,
       Store.quizAttempts st' = Store.quizAttempts st ++ [attempt]
       /\ Store.a_id attempt = newId
       /\ Store.a_bookmarkId attempt = Quiz.bookmarkId body
       /\ Store.a_totalQuestions attempt = Quiz.res_total r
       /\ Store.a_attemptedAt attempt = now
       /\ (0 <= Store.a_score attempt <= 100)%Q.
Proof.
  intros H. destruct (submit_Json_inv _ _ _ _ _ _ _ _ H) as [Hs [b Hb]].
  rewrite (submit_accepted is_uuid tz now newId st body b Hs Hb) in H.
  cbv zeta in H. injection H as <- <-.
  cbn [Quiz.res_correct Quiz.res_total Quiz.res_results Quiz.res_weakQuestions
       Quiz.res_score Store.quizAttempts].
  set (results := flat_map (SubmitSpec.resultOf st) (Quiz.answers body)).
  assert (Hc : length (filter (SubmitSpec.judgedCorrect st) (Quiz.answers body))
               = length (filter Quiz.r_isCorrect results))
    by (symmetry; apply correct_results).
  rewrite Hc.
  pose proof (filter_split_length Quiz.r_isCorrect results) as Hsplit.
  assert (Hle : (length (filter Quiz.r_isCorrect results) <= length results)%nat)
    by apply filter_length_le.
  split; [exact Hle |]. split; [reflexivity |]. split; [reflexivity |].
  split; [reflexivity |]. split; [lia |].
  split; [apply round2_range, scoreOf_range, Hle |].
  eexists. split; [reflexivity |]. cbn.
  repeat (split; [reflexivity |]). apply scoreOf_range, Hle.
Qed.

Lemma submit_reply_consistent_witness :
  exists st' r,
    Quiz.submit Examples.uuid_shape 0 5000 Examples.id_a4 Examples.st_review
                (Quiz.mkSubmitBody Examples.id_b1 Examples.answers_one_gone 30)
    = (st', Quiz.Json r)
    /\ (Quiz.res_correct r <= Quiz.res_total r)%nat.
Proof.
  destruct (Quiz.submit Examples.uuid_shape 0 5000 Examples.id_a4
              Examples.st_review
              (Quiz.mkSubmitBody Examples.id_b1 Examples.answers_one_gone 30))
    as [st' reply] eqn:E.
  destruct reply as [r| | |]; try (vm_compute in E; discriminate E).
  exists st', r. split; [reflexivity |].
  exact (proj1 (submit_reply_consistent Examples.uuid_shape 0 5000
                  Examples.id_a4 Examples.st_review st'
                  (Quiz.mkSubmitBody Examples.id_b1 Examples.answers_one_gone 30)
                  r E)).
Defined.

(** X10.  When the id of the new attempt is not yet used by a stored
    answer, the answers stored under it after a successful submission are
    the rows of [results], in order: as many as the attempt's
    [totalQuestions], [correct] of them marked correct.  The answers of
    every other attempt are as they were. *)
Theorem submit_answers_stored
  (is_uuid : string -> bool) (tz now : Z) (newId : string)
  (st st' : Store.t) (body : Quiz.SubmitBody) (r : Quiz.SubmitResponse) :
  Quiz.submit is_uuid tz now newId st body = (st', Quiz.Json r) ->
  Store.answersOf st newId = [] ->
  Store.answersOf st' newId
  = map (SubmitSpec.answerRow newId) (Quiz.res_results r)
  /\ length (Store.answersOf st' newId) = Quiz.res_total r
  /\ length (filter Store.ua_isCorrect (Store.answersOf st' newId))
     = Quiz.res_correct r
  /\ (forall other, other <> newId ->
                    Store.answersOf st' other = Store.answersOf st other).
Proof.
  intros H Hfresh. destruct (submit_Json_inv _ _ _ _ _ _ _ _ H) as [Hs [b Hb]].
  rewrite (submit_accepted is_uuid tz now newId st body b Hs Hb) in H.
  cbv zeta in H. injection H as <- <-.
  cbn [Quiz.res_results Quiz.res_total Quiz.res_correct].
  set (results := flat_map (SubmitSpec.resultOf st) (Quiz.answers body)).
  assert (Hnew : Store.answersOf
                   (Store.mkStore (Store.categories st)
                      (map (fun x => if String.eqb (Store.b_id x) (Quiz.bookmarkId body)
                                     then SubmitSpec.reviewed now
                                            (RevisionEngine.calculateNextReviewDate tz now
                                               (Quiz.scoreOf
                                                  (length (filter (SubmitSpec.judgedCorrect st)
                                                             (Quiz.answers body)))
                                                  (length results))) x
                                     else x) (Store.bookmarks st))
                      (Store.questions st)
                      (Store.quizAttempts st
                       ++ [Store.mkQuizAttempt newId (Quiz.bookmarkId body)
                             (Quiz.scoreOf
                                (length (filter (SubmitSpec.judgedCorrect st)
                                           (Quiz.answers body)))
                                (length results))
                             (length results) (Quiz.timeTaken body) now])
                      (Store.userAnswers st ++ map (SubmitSpec.answerRow newId) results))
                   newId
                 = map (SubmitSpec.answerRow newId) results).
  { unfold Store.answersOf in *. cbn [Store.userAnswers].
    rewrite filter_app, Hfresh. simpl. apply filter_all_true.
    intros u Hu. apply in_map_iff in Hu. destruct Hu as [x [<- _]].
    apply String.eqb_refl. }
  rewrite Hnew. split; [reflexivity |]. split; [apply length_map |]. split.
  - assert (E : filter Store.ua_isCorrect (map (SubmitSpec.answerRow newId) results)
                = map (SubmitSpec.answerRow newId) (filter Quiz.r_isCorrect results))
      by apply filter_map_swap.
    rewrite E, length_map. apply correct_results.
  - intros other Hne. unfold Store.answersOf. cbn [Store.userAnswers].
    rewrite filter_app, (filter_all_false _ (map _ results)); [apply app_nil_r |].
    intros u Hu. apply in_map_iff in Hu. destruct Hu as [x [<- _]].
    apply String.eqb_neq. simpl. congruence.
Qed.

Lemma submit_answers_stored_witness :
  Store.answersOf Examples.st_review Examples.id_a4 = []
  /\ exists st' r,
       Quiz.submit Examples.uuid_shape 0 5000 Examples.id_a4 Examples.st_review
                   (Quiz.mkSubmitBody Examples.id_b1 Examples.answers_one_gone 30)
       = (st', Quiz.Json r)
       /\ length (Store.answersOf st' Examples.id_a4) = Quiz.res_total r.
Proof.
  assert (Hfresh : Store.answersOf Examples.st_review Examples.id_a4 = [])
    by reflexivity.
  split; [exact Hfresh |].
  destruct (Quiz.submit Examples.uuid_shape 0 5000 Examples.id_a4
              Examples.st_review
              (Quiz.mkSubmitBody Examples.id_b1 Examples.answers_one_gone 30))
    as [st' reply] eqn:E.
  destruct reply as [r| | |]; try (vm_compute in E; discriminate E).
  exists st', r. split; [reflexivity |].
  exact (proj1 (proj2 (submit_answers_stored Examples.uuid_shape 0 5000
                         Examples.id_a4 Examples.st_review st'
                         (Quiz.mkSubmitBody Examples.id_b1
                            Examples.answers_one_gone 30)
                         r E Hfresh))).
Defined.

(** X11.  After a successful submission the bookmark is marked as
    reviewed at [now], its next review is the date of the reply, which is
    later than [now], and at that time [getDueBookmarks] does not return
    it. *)
Theorem submit_reschedules
  (is_uuid : string -> bool) (tz now : Z) (newId : string)
  (st st' : Store.t) (body : Quiz.SubmitBody) (r : Quiz.SubmitResponse) :
  Quiz.submit is_uuid tz now newId st body = (st', Quiz.Json r) ->
  now < Quiz.res_nextReviewAt r
  /\ (exists b, Store.findBookmark st' (Quiz.bookmarkId body) = Some b
                /\ Store.b_lastReviewedAt b = Some now
                /\ Store.b_nextReviewAt b = Some (Quiz.res_nextReviewAt r))
  /\ (forall nulls limit d,
         In d (RevisionEngine.getDueBookmarks nulls now st' limit) ->
         Store.b_id (RevisionEngine.d_bookmark d) <> Quiz.bookmarkId body).
Proof.
  intros H. destruct (submit_Json_inv _ _ _ _ _ _ _ _ H) as [Hs [b Hb]].
  rewrite (submit_accepted is_uuid tz now newId st body b Hs Hb) in H.
  cbv zeta in H. injection H as <- <-. cbn [Quiz.res_nextReviewAt].
  split; [| split].
  - pose proof (next_review_later tz now
                  (Quiz.scoreOf
                     (length (filter (SubmitSpec.judgedCorrect st) (Quiz.answers body)))
                     (length (flat_map (SubmitSpec.resultOf st) (Quiz.answers body)))))
      as Hlater.
    unfold Date.msPerHour in Hlater. lia.
  - eexists. split.
    + unfold Store.findBookmark. cbn [Store.bookmarks]. rewrite find_reviewed.
      unfold Store.findBookmark in Hb. rewrite Hb. reflexivity.
    + split; reflexivity.
  - intros nulls limit d Hd Hid. apply due_row_is_due in Hd.
    destruct Hd as [Hin [Hdue _]]. cbn [Store.bookmarks] in Hin.
    apply in_map_iff in Hin. destruct Hin as [x [Hx _]].
    destruct (String.eqb_spec (Store.b_id x) (Quiz.bookmarkId body)) as [E | E].
    + rewrite <- Hx in Hdue. unfold SubmitSpec.reviewed in Hdue.
      rewrite reviewed_not_due in Hdue. discriminate.
    + apply E. rewrite <- Hid, <- Hx. reflexivity.
Qed.

Lemma submit_reschedules_witness :
  exists st' r,
    Quiz.submit Examples.uuid_shape 0 5000 Examples.id_a4 Examples.st_review
                Examples.body_empty
    = (st', Quiz.Json r)
    /\ 5000 < Quiz.res_nextReviewAt r.
Proof.
  destruct (Quiz.submit Examples.uuid_shape 0 5000 Examples.id_a4
              Examples.st_review Examples.body_empty)
    as [st' reply] eqn:E.
  destruct reply as [r| | |]; try (vm_compute in E; discriminate E).
  exists st', r. split; [reflexivity |].
  exact (proj1 (submit_reschedules Examples.uuid_shape 0 5000 Examples.id_a4
                  Examples.st_review st' Examples.body_empty r E)).
Defined.

(** ** Counting bookmarks *)

Section CountFacts.
Context {A : Type}.

Lemma filter_length_impl (p q : A -> bool) (l : list A) :
  (forall x, In x l -> p x = true -> q x = true) ->
  (length (filter p l) <= length (filter q l))%nat.
Proof.
  induction l as [|x l IH]; simpl; intros H; [lia |].
  assert (IH' : (length (filter p l) <= length (filter q l))%nat)
    by (apply IH; intros y Hy; apply H; now right).
  destruct (p x) eqn:P.
  - rewrite (H x (or_introl eq_refl) P). simpl. lia.
  - destruct (q x); simpl; lia.
Qed.

Lemma filter_length_or (p q r : A -> bool) (l : list A) :
  (forall x, In x l -> p x = true -> q x = true \/ r x = true) ->
  (length (filter p l) <= length (filter q l) + length (filter r l))%nat.
Proof.
  induction l as [|x l IH]; simpl; intros H; [lia |].
  assert (IH' : (length (filter p l)
                 <= length (filter q l) + length (filter r l))%nat)
    by (apply IH; intros y Hy; apply H; now right).
  destruct (p x) eqn:P.
  - destruct (H x (or_introl eq_refl) P) as [E | E]; rewrite E; simpl;
      destruct (q x), (r x); simpl; lia.
  - destruct (q x), (r x); simpl; lia.
Qed.

Lemma filter_length_disjoint (p q : A -> bool) (l : list A) :
  (forall x, In x l -> p x = true -> q x = false) ->
  (length (filter p l) + length (filter q l) <= length l)%nat.
Proof.
  induction l as [|x l IH]; simpl; intros H; [lia |].
  assert (IH' : (length (filter p l) + length (filter q l) <= length l)%nat)
    by (apply IH; intros y Hy; apply H; now right).
  destruct (p x) eqn:P.
  - rewrite (H x (or_introl eq_refl) P). simpl. lia.
  - destruct (q x); simpl; lia.
Qed.

End CountFacts.

Section ReviewCountFacts.
Import Js Store RevisionEngine ReviewStats.

Lemma end_of_today (tz now : Z) : now <= Date.setHours tz now 23 59 59 999.
Proof.
  unfold Date.setHours, Date.UTC, Date.MakeDate, Date.MakeTime.
  fold (Date.localDay tz now). pose proof (localDay_bounds tz now) as H.
  unfold Date.msPerDay, Date.msPerHour, Date.msPerMinute, Date.msPerSecond in *.
  lia.
Qed.

Lemma due_list_length (nulls : NullsOrder) (now : Z) (st : Store.t) (limit : nat) :
  length (getDueBookmarks nulls now st limit)
  = Nat.min limit (length (filter (dueWhere now) (bookmarks st))).
Proof.
  unfold getDueBookmarks. now rewrite length_map, length_firstn, sort_length.
Qed.

End ReviewCountFacts.

(** X12.  The due list and the due count of the global analytics agree:
    [getDueBookmarks] returns as many bookmarks as the analytics count as
    due, cut at the limit. *)
Theorem due_list_matches_due_count
  (nulls : Store.NullsOrder) (tz now : Z) (st : Store.t) (limit : nat) :
  length (RevisionEngine.getDueBookmarks nulls now st limit)
  = Nat.min limit
      (AnalyticsService.dueReviewsCount
         (AnalyticsService.getGlobalAnalytics tz now st)).
Proof. apply due_list_length. Qed.

(** X13.  The counts of [GET /reviews] and the due count of the global
    analytics are ordered: every overdue bookmark is due, every due
    bookmark is either due today or never reviewed, an overdue bookmark is
    due today, and the never-reviewed and the reviewed-this-week bookmarks
    are disjoint parts of the store. *)
Theorem review_counts_ordered (tz now : Z) (st : Store.t) :
  let r := ReviewStats.reviews tz now st in
  let due :=
    AnalyticsService.dueReviewsCount
      (AnalyticsService.getGlobalAnalytics tz now st) in
  (ReviewStats.overdue r <= due)%nat
  /\ (due <= ReviewStats.dueToday r + ReviewStats.neverReviewed r)%nat
  /\ (ReviewStats.overdue r <= ReviewStats.dueToday r)%nat
  /\ (ReviewStats.neverReviewed r + ReviewStats.reviewedThisWeek r
      <= length (Store.bookmarks st))%nat.
Proof.
  cbv zeta. unfold ReviewStats.reviews, AnalyticsService.getGlobalAnalytics.
  cbn [ReviewStats.overdue ReviewStats.dueToday ReviewStats.neverReviewed
       ReviewStats.reviewedThisWeek AnalyticsService.dueReviewsCount].
  unfold ReviewStats.count. pose proof (end_of_today tz now) as Htoday.
  split; [| split; [| split]].
  - apply filter_length_impl. intros b _. unfold ReviewStats.lt,
      RevisionEngine.dueWhere, Store.lte.
    destruct (Store.b_nextReviewAt b) as [t|]; [| discriminate].
    intros H. apply Z.ltb_lt in H. apply orb_true_iff. left.
    apply Z.leb_le. lia.
  - apply filter_length_or. intros b _. unfold RevisionEngine.dueWhere,
      Store.lte, Store.is_null.
    destruct (Store.b_nextReviewAt b) as [t|], (Store.b_lastReviewedAt b) as [l|];
      simpl; rewrite ?orb_false_r; intros H; try discriminate.
    + left. apply Z.leb_le in H. apply Z.leb_le. lia.
    + left. apply Z.leb_le in H. apply Z.leb_le. lia.
    + now right.
  - apply filter_length_impl. intros b _. unfold ReviewStats.lt, Store.lte.
    destruct (Store.b_nextReviewAt b) as [t|]; [| discriminate].
    intros H. apply Z.ltb_lt in H. apply Z.leb_le. lia.
  - apply filter_length_disjoint. intros b _. unfold Store.is_null, ReviewStats.gte.
    destruct (Store.b_lastReviewedAt b); [discriminate | reflexivity].
Qed.

(** ** The rules of the insight engine *)

Section RuleFacts.
Import Js Store Insights.

(** Closes a goal on the members of a list of at most one insight. *)
Ltac one_insight :=
  simpl; intros H;
  repeat (destruct H as [<- | H]; [simpl; tauto |]);
  contradiction.

Lemma weekly_shape (tz now : Z) (l : list QuizAttempt) (i : Insight) :
  In i (weekly tz now l) ->
  (i_type i = Improvement /\ i_priority i = Positive)
  \/ (i_type i = Decline /\ i_priority i = Warning).
Proof.
  unfold weekly. cbv zeta.
  repeat match goal with
         | |- context [if ?c then _ else _] => destruct c
         end; one_insight.
Qed.

Lemma missed_shape (now : Z) (l : list Bookmark) (i : Insight) :
  In i (missed now l) -> i_type i = MissedReviews /\ i_priority i = Warning.
Proof.
  unfold missed. cbv zeta. destruct (0 <? length _)%nat; one_insight.
Qed.

Lemma retentionDecay_shape (l : list QuizAttempt) (d : dict) (i : Insight) :
  In i (retentionDecay l d) ->
  i_type i = RetentionDecay /\ i_priority i = Warning.
Proof.
  unfold retentionDecay. intros Hin. apply in_flat_map in Hin.
  destruct Hin as [[n data] [_ Hi]]. cbn beta iota zeta in Hi.
  destruct (5 <=? length (cs_scores data))%nat; [| contradiction].
  destruct (Qlt_bool 15 _); [| contradiction].
  destruct Hi as [<- | []]. simpl. tauto.
Qed.

Lemma questionTypes_shape (st : Store.t) (l : list QuizAttempt) (i : Insight) :
  In i (questionTypes st l) ->
  i_type i = QuestionTypeWeakness /\ i_priority i = Info.
Proof.
  unfold questionTypes. cbv zeta. intros Hin. apply in_flat_map in Hin.
  destruct Hin as [ty [_ Hi]].
  destruct (10 <=? _)%nat; [| contradiction].
  destruct (Qlt_bool _ 50); [| contradiction].
  destruct Hi as [<- | []]. simpl. tauto.
Qed.

Lemma consistent_shape (tz now : Z) (l : list QuizAttempt) (i : Insight) :
  In i (consistent tz now l) ->
  i_type i = Consistency
  /\ (i_priority i = Positive \/ i_priority i = Warning).
Proof.
  unfold consistent. cbv zeta.
  repeat match goal with
         | |- context [if ?c then _ else _] => destruct c
         end; one_insight.
Qed.

Lemma streakLoop_bound (hasAttempt : Z -> bool) (todo : list Z) (n : nat) :
  (n <= streakLoop hasAttempt todo n <= n + length todo)%nat.
Proof.
  revert n. induction todo as [|i todo IH]; intros n; simpl; [lia |].
  destruct (hasAttempt i).
  - specialize (IH (S n)). lia.
  - destruct (0 <? i); [lia |]. specialize (IH n). lia.
Qed.

Lemma studyStreak_shape (tz now : Z) (l : list QuizAttempt) (i : Insight) :
  In i (studyStreak tz now l) ->
  i_type i = Streak /\ i_priority i = Positive
  /\ exists n, i_metric i = inject_Z (Z.of_nat n) /\ (3 <= n <= 30)%nat.
Proof.
  unfold studyStreak. cbv zeta.
  match goal with
  | |- context [streakLoop ?f ?todo 0] =>
      pose proof (streakLoop_bound f todo 0) as Hb;
      set (n := streakLoop f todo 0) in *
  end.
  rewrite length_map, length_seq in Hb.
  destruct (Nat.leb_spec 3 n) as [H3 | H3]; [| contradiction].
  intros [<- | []]. cbn [i_type i_priority i_metric].
  split; [reflexivity |]. split; [reflexivity |].
  exists n. split; [reflexivity | lia].
Qed.

End RuleFacts.

Section InsightListFacts.
Import Js Store Insights InsightsMore.

Lemma generateInsights_In (tz now : Z) (st : Store.t) (i : Insight) :
  let allAttempts := byAttemptedAtDesc (quizAttempts st) in
  let categoryStats := fold_left (collect st) allAttempts [] in
  In i (generateInsights tz now st)
  <-> In i (weekly tz now allAttempts)
      \/ In i (missed now (bookmarks st))
      \/ In i (weakCategories categoryStats)
      \/ In i (retentionDecay allAttempts categoryStats)
      \/ In i (questionTypes st allAttempts)
      \/ In i (consistent tz now allAttempts)
      \/ In i (studyStreak tz now allAttempts).
Proof.
  cbv zeta. unfold generateInsights. cbv zeta.
  now rewrite sort_In, !in_app_iff.
Qed.

Lemma generateInsights_priorityByType (tz now : Z) (st : Store.t) (i : Insight) :
  In i (generateInsights tz now st) -> priorityByType i.
Proof.
  intros H. apply generateInsights_In in H. cbv zeta in H.
  unfold priorityByType.
  destruct H as [H | [H | [H | [H | [H | [H | H]]]]]].
  - apply weekly_shape in H. destruct H as [[-> H] | [-> H]]; exact H.
  - apply missed_shape in H. destruct H as [-> H]. exact H.
  - apply weakCategories_shape in H. destruct H as [-> [H _]]. exact H.
  - apply retentionDecay_shape in H. destruct H as [-> H]. exact H.
  - apply questionTypes_shape in H. destruct H as [-> H]. exact H.
  - apply consistent_shape in H. destruct H as [-> H]. exact H.
  - apply studyStreak_shape in H. destruct H as [-> [H _]]. exact H.
Qed.

End InsightListFacts.

(** X14.  The insights come out ordered by priority: critical before
    warning before info before positive; and the priority of an insight is
    the one its rule gives to its type. *)
Theorem generateInsights_ordered (tz now : Z) (st : Store.t) :
  StronglySorted
    (fun a b => Insights.priorityOrder (Insights.i_priority a)
                <= Insights.priorityOrder (Insights.i_priority b))
    (Insights.generateInsights tz now st)
  /\ Forall InsightsMore.priorityByType (Insights.generateInsights tz now st).
Proof.
  split.
  - unfold Insights.generateInsights. cbv zeta.
    eapply StronglySorted_impl.
    + intros a b H. apply Z.leb_le. exact H.
    + apply sort_sorted.
      * intros a b H. apply Z.leb_gt in H. apply Z.leb_le. lia.
      * intros a b c H1 H2. apply Z.leb_le in H1, H2. apply Z.leb_le. lia.
  - apply Forall_forall. intros i. apply generateInsights_priorityByType.
Qed.

(** X15.  With no attempt in the store the engine can only report missed
    reviews: it returns at most one insight, of that type. *)
Theorem generateInsights_without_attempts (tz now : Z) (st : Store.t) :
  Store.quizAttempts st = [] ->
  (length (Insights.generateInsights tz now st) <= 1)%nat
  /\ Forall (fun i => Insights.i_type i = Insights.MissedReviews
                      /\ Insights.i_priority i = Insights.Warning)
            (Insights.generateInsights tz now st).
Proof.
  intros Hnone.
  assert (E : Insights.generateInsights tz now st
              = Insights.missed now (Store.bookmarks st)).
  { unfold Insights.generateInsights. rewrite Hnone. cbv zeta.
    unfold Store.byAttemptedAtDesc. cbn [Js.sort fold_right fold_left].
    change (Insights.weekly tz now []) with (@nil Insights.Insight).
    change (Insights.weakCategories []) with (@nil Insights.Insight).
    change (Insights.retentionDecay [] []) with (@nil Insights.Insight).
    change (Insights.questionTypes st []) with (@nil Insights.Insight).
    change (Insights.consistent tz now []) with (@nil Insights.Insight).
    change (Insights.studyStreak tz now []) with (@nil Insights.Insight).
    rewrite !app_nil_r. cbn [app].
    unfold Insights.missed. cbv zeta.
    destruct (0 <? length _)%nat; reflexivity. }
  rewrite E. split.
  - unfold Insights.missed. cbv zeta. destruct (0 <? length _)%nat; simpl; lia.
  - apply Forall_forall. intros i. apply missed_shape.
Qed.

Lemma generateInsights_without_attempts_witness :
  Store.quizAttempts Examples.st_due = []
  /\ (length (Insights.generateInsights 0 5000 Examples.st_due) <= 1)%nat.
Proof.
  assert (H : Store.quizAttempts Examples.st_due = []) by reflexivity.
  split; [exact H |].
  exact (proj1 (generateInsights_without_attempts 0 5000 Examples.st_due H)).
Defined.

Section StreakFacts.
Import Js Store Insights StreakSpec.

Lemma streakLoop_run (studied : Z -> bool) (todo : list Z) (n : nat) :
  Forall (fun i => 0 < i) todo ->
  streakLoop studied todo n = (n + run studied todo)%nat.
Proof.
  intros H. revert n. induction H as [|i todo Hi _ IH]; intros n; simpl; [lia |].
  destruct (studied i).
  - rewrite IH. lia.
  - apply Z.ltb_lt in Hi. rewrite Hi. lia.
Qed.

Lemma run_days_back (studied : Z -> bool) (today : Z) (l : list nat) :
  run (fun i => studied (today - i)) (map Z.of_nat l)
  = run studied (map (fun k => today - Z.of_nat k) l).
Proof. induction l as [|k l IH]; simpl; [reflexivity | now rewrite IH]. Qed.

Lemma streakLoop_from_today (studied : Z -> bool) (rest : list Z) :
  Forall (fun i => 0 < i) rest ->
  streakLoop studied (0 :: rest) 0
  = ((if studied 0%Z then 1 else 0) + run studied rest)%nat.
Proof.
  intros H. cbn [streakLoop]. destruct (studied 0).
  - now rewrite (streakLoop_run _ _ 1 H).
  - replace (0 <? 0) with false by reflexivity.
    now rewrite (streakLoop_run _ _ 0 H).
Qed.

Lemma todo_days : map Z.of_nat (seq 0 30) = 0 :: map Z.of_nat (seq 1 29).
Proof. reflexivity. Qed.

Lemma run_ext (f g : Z -> bool) (l : list Z) :
  (forall d, f d = g d) -> run f l = run g l.
Proof.
  intros H. induction l as [|d l IH]; simpl; [reflexivity |].
  now rewrite H, IH.
Qed.

Lemma run_length (f : Z -> bool) (l : list Z) : (run f l <= length l)%nat.
Proof. induction l as [|d l IH]; simpl; [lia |]. destruct (f d); lia. Qed.

Lemma existsb_sort {A} (leb : A -> A -> bool) (p : A -> bool) (l : list A) :
  existsb p (sort leb l) = existsb p l.
Proof.
  destruct (existsb p l) eqn:E.
  - apply existsb_exists in E. destruct E as [x [Hx Hp]].
    apply existsb_exists. exists x. split; [now apply sort_In | exact Hp].
  - destruct (existsb p (sort leb l)) eqn:E'; [| reflexivity].
    apply existsb_exists in E'. destruct E' as [x [Hx Hp]].
    apply sort_In in Hx.
    assert (existsb p l = true) by (apply existsb_exists; now exists x).
    congruence.
Qed.

(** The day that lies [i] days back is studied. *)
Lemma hasAttempt_studiedOn (tz now : Z) (st : Store.t) (i : Z) :
  existsb (fun a => Date.isoDate (a_attemptedAt a)
                    =? Date.isoDate (Date.addDays tz now (- i)))
          (byAttemptedAtDesc (quizAttempts st))
  = studiedOn st (Date.isoDate now - i).
Proof.
  unfold byAttemptedAtDesc, studiedOn.
  now rewrite existsb_sort, isoDate_addDays.
Qed.

(** The loop of the streak counts the streak as a user reads it. *)
Lemma streak_counted (tz now : Z) (st : Store.t) :
  streakLoop
    (fun i => existsb (fun a => Date.isoDate (a_attemptedAt a)
                                =? Date.isoDate (Date.addDays tz now (- i)))
                      (byAttemptedAtDesc (quizAttempts st)))
    (map Z.of_nat (seq 0 30)) 0
  = streakLength now st.
Proof.
  unfold streakLength, daysBefore. cbv zeta. rewrite todo_days.
  assert (Hpos : Forall (fun i => 0 < i) (map Z.of_nat (seq 1 29))).
  { apply Forall_forall. intros i Hi. apply in_map_iff in Hi.
    destruct Hi as [k [<- Hk]]. apply in_seq in Hk. lia. }
  rewrite (streakLoop_from_today _ _ Hpos).
  rewrite hasAttempt_studiedOn, Z.sub_0_r.
  rewrite (run_ext _ (fun i => studiedOn st (Date.isoDate now - i)))
    by (intros d; apply hasAttempt_studiedOn).
  now rewrite run_days_back.
Qed.

Lemma streakLength_bound (now : Z) (st : Store.t) :
  (streakLength now st <= 30)%nat.
Proof.
  unfold streakLength, daysBefore. cbv zeta.
  pose proof (run_length (studiedOn st)
                (map (fun k => Date.isoDate now - Z.of_nat k) (seq 1 29))) as H.
  rewrite length_map, length_seq in H.
  destruct (studiedOn st (Date.isoDate now)); lia.
Qed.

Lemma studyStreak_eq (tz now : Z) (st : Store.t) :
  studyStreak tz now (byAttemptedAtDesc (quizAttempts st))
  = if (3 <=? streakLength now st)%nat
    then [mkInsight Streak Positive
                    (inject_Z (Z.of_nat (streakLength now st))) None None []]
    else [].
Proof.
  unfold studyStreak. cbv zeta. now rewrite streak_counted.
Qed.

End StreakFacts.

(** X16.  On a server whose zone keeps one offset to UTC, the streak is
    today, when an attempt was made today, plus the unbroken run of days
    with an attempt that ends yesterday, looking back 29 days: a day
    without attempt ends it, except today.  When the engine returns its
    insights, a streak insight is among them exactly when that number is
    at least 3; it carries the number, which never exceeds 30. *)
Theorem generateInsights_streak (tz now : Z) (st : Store.t) :
  (forall insights,
      Insights.generateInsightsOutcome tz now st = Some insights ->
      ((exists i, In i insights /\ Insights.i_type i = Insights.Streak)
       <-> (3 <= StreakSpec.streakLength now st)%nat)
      /\ (forall i, In i insights ->
                    Insights.i_type i = Insights.Streak ->
                    Insights.i_metric i
                    = inject_Z (Z.of_nat (StreakSpec.streakLength now st))))
  /\ (StreakSpec.streakLength now st <= 30)%nat.
Proof.
  split; [| apply streakLength_bound].
  intros insights. unfold Insights.generateInsightsOutcome.
  destruct (Insights.throws st); [discriminate |].
  intros E. injection E as <-.
  assert (Hstreak : forall i,
             In i (Insights.generateInsights tz now st) ->
             Insights.i_type i = Insights.Streak ->
             In i (Insights.studyStreak tz now
                     (Store.byAttemptedAtDesc (Store.quizAttempts st)))).
  { intros i H Hty. apply generateInsights_In in H. cbv zeta in H.
    destruct H as [H | [H | [H | [H | [H | [H | H]]]]]]; trivial; exfalso.
    - apply weekly_shape in H. destruct H as [[E _] | [E _]]; congruence.
    - apply missed_shape in H. destruct H as [E _]. congruence.
    - apply weakCategories_shape in H. destruct H as [E _]. congruence.
    - apply retentionDecay_shape in H. destruct H as [E _]. congruence.
    - apply questionTypes_shape in H. destruct H as [E _]. congruence.
    - apply consistent_shape in H. destruct H as [E _]. congruence. }
  split.
  - split.
    + intros [i [Hin Hty]]. apply (Hstreak i Hin) in Hty.
      rewrite studyStreak_eq in Hty.
      destruct (Nat.leb_spec 3 (StreakSpec.streakLength now st)); [lia | contradiction].
    + intros H.
      exists (Insights.mkInsight Insights.Streak Insights.Positive
                (inject_Z (Z.of_nat (StreakSpec.streakLength now st))) None None []).
      split; [| reflexivity].
      apply generateInsights_In. cbv zeta. do 6 right.
      rewrite studyStreak_eq.
      destruct (Nat.leb_spec 3 (StreakSpec.streakLength now st)); [now left | lia].
  - intros i Hin Hty. apply (Hstreak i Hin) in Hty.
    rewrite studyStreak_eq in Hty.
    destruct (3 <=? StreakSpec.streakLength now st)%nat; [| contradiction].
    destruct Hty as [<- | []]. reflexivity.
Qed.

Lemma generateInsights_streak_witness :
  exists insights,
    Insights.generateInsightsOutcome 0 1000 Examples.st_insights = Some insights
    /\ ((exists i, In i insights /\ Insights.i_type i = Insights.Streak)
        <-> (3 <= StreakSpec.streakLength 1000 Examples.st_insights)%nat).
Proof.
  exists (Insights.generateInsights 0 1000 Examples.st_insights).
  assert (H : Insights.generateInsightsOutcome 0 1000 Examples.st_insights
              = Some (Insights.generateInsights 0 1000 Examples.st_insights))
    by reflexivity.
  split; [exact H |].
  exact (proj1 (proj1 (generateInsights_streak 0 1000 Examples.st_insights)
                  _ H)).
Defined.

(** ** Stores written by the scheduler *)

Section ScheduledFacts.
Import Js Store RevisionEngine Insights InsightsMore.

Lemma reviewed_Scheduled (tz now : Z) (score : Q) (b : Bookmark) :
  Scheduled (SubmitSpec.reviewed now (calculateNextReviewDate tz now score) b).
Proof.
  unfold Scheduled, SubmitSpec.reviewed. simpl.
  pose proof (next_review_later tz now score). unfold Date.msPerHour in *. lia.
Qed.

Lemma reschedule_Scheduled (tz now : Z) (score : Q) (id : string)
      (l : list Bookmark) :
  Forall Scheduled l ->
  Forall Scheduled
    (map (fun b => if String.eqb (b_id b) id
                   then SubmitSpec.reviewed now
                          (calculateNextReviewDate tz now score) b
                   else b) l).
Proof.
  intros H. apply Forall_map. eapply Forall_impl; [| exact H].
  intros b Hb. destruct (String.eqb (b_id b) id); [apply reviewed_Scheduled | exact Hb].
Qed.

Lemma Scheduled_null (b : Bookmark) :
  Scheduled b -> is_null (b_lastReviewedAt b) = is_null (b_nextReviewAt b).
Proof.
  unfold Scheduled.
  destruct (b_lastReviewedAt b), (b_nextReviewAt b); simpl; tauto.
Qed.

Lemma ratio_100 (n : nat) :
  (0 < n)%nat ->
  (fmul (fdiv (inject_Z (Z.of_nat n)) (inject_Z (Z.of_nat n))) 100 == 100)%Q.
Proof.
  intros H. unfold fmul, fdiv.
  assert (E1 : (inject_Z (Z.of_nat n) / inject_Z (Z.of_nat n) == 1)%Q).
  { field. intros E. unfold Qeq in E. simpl in E. lia. }
  rewrite (double_comp _ _ E1).
  assert (E2 : (double 1 * 100 == 100)%Q) by (vm_compute; reflexivity).
  rewrite (double_comp _ _ E2). apply double_100.
Qed.

(** On such a store the test of the missed reviews is the test of the
    overdue bookmarks. *)
Lemma missed_overdue (now : Z) (l : list Bookmark) :
  Forall Scheduled l ->
  filter (fun b => match b_nextReviewAt b with
                   | None => false
                   | Some next =>
                       (next <? now)
                       && match b_lastReviewedAt b with
                          | None => true
                          | Some last => last <? next
                          end
                   end) l
  = filter (fun b => ReviewStats.lt (b_nextReviewAt b) now) l.
Proof.
  intros H. apply filter_ext_in. intros b Hb.
  rewrite Forall_forall in H. specialize (H b Hb). unfold Scheduled in H.
  unfold ReviewStats.lt.
  destruct (b_nextReviewAt b) as [n|], (b_lastReviewedAt b) as [t|];
    try reflexivity; try contradiction.
  apply Z.ltb_lt in H. rewrite H. apply andb_true_r.
Qed.

End ScheduledFacts.

(** X17.  A store in which every bookmark is either never reviewed or
    reviewed and scheduled for a later date stays so under
    [updateRevisionSchedule] and under a quiz submission, whatever its
    outcome; and on such a store the review compliance rate is 100. *)
Theorem scheduled_store_invariant (tz now : Z) (st : Store.t) :
  Forall InsightsMore.Scheduled (Store.bookmarks st) ->
  (forall id score st' schedule,
      RevisionEngine.updateRevisionSchedule tz now st id score
      = Some (st', schedule) ->
      Forall InsightsMore.Scheduled (Store.bookmarks st'))
  /\ (forall is_uuid newId body,
         Forall InsightsMore.Scheduled
                (Store.bookmarks
                   (fst (Quiz.submit is_uuid tz now newId st body))))
  /\ (AnalyticsService.reviewComplianceRate
        (AnalyticsService.getGlobalAnalytics tz now st) == 100)%Q.
Proof.
  intros Hst. split; [| split].
  - intros id score st' schedule H.
    pose proof (updateRevisionSchedule_effect_bookmarks tz now st id score) as E.
    rewrite H in E. rewrite E. now apply reschedule_Scheduled.
  - intros is_uuid newId body.
    destruct (Quiz.submitQuizSchema is_uuid body) eqn:Hs.
    + destruct (Store.findBookmark st (Quiz.bookmarkId body)) as [b|] eqn:Hb.
      * rewrite (submit_accepted is_uuid tz now newId st body b Hs Hb).
        cbv zeta. cbn [fst Store.bookmarks]. now apply reschedule_Scheduled.
      * destruct (submit_rejected is_uuid tz now newId st body) as [_ Hr].
        now rewrite (Hr Hs Hb).
    + destruct (submit_rejected is_uuid tz now newId st body) as [Hr _].
      now rewrite (Hr Hs).
  - unfold AnalyticsService.getGlobalAnalytics.
    cbn [AnalyticsService.reviewComplianceRate].
    assert (E : filter (fun b => negb (Store.is_null (Store.b_lastReviewedAt b)))
                       (Store.bookmarks st)
                = filter (fun b => negb (Store.is_null (Store.b_nextReviewAt b)))
                         (Store.bookmarks st)).
    { apply filter_ext_in. intros b Hb. rewrite Forall_forall in Hst.
      now rewrite (Scheduled_null b (Hst b Hb)). }
    rewrite E.
    destruct (Nat.ltb_spec 0 (length (filter
                                        (fun b => negb (Store.is_null (Store.b_nextReviewAt b)))
                                        (Store.bookmarks st)))) as [Hpos | _].
    + rewrite (round2_comp _ 100 (ratio_100 _ Hpos)). reflexivity.
    + reflexivity.
Qed.

Lemma scheduled_store_invariant_witness :
  Forall InsightsMore.Scheduled (Store.bookmarks Examples.st_review)
  /\ (AnalyticsService.reviewComplianceRate
        (AnalyticsService.getGlobalAnalytics 0 5000 Examples.st_review) == 100)%Q.
Proof.
  assert (H : Forall InsightsMore.Scheduled (Store.bookmarks Examples.st_review)).
  { repeat constructor. }
  split; [exact H |].
  exact (proj2 (proj2 (scheduled_store_invariant 0 5000 Examples.st_review H))).
Defined.

Section MissedFacts.
Import Js Store Insights InsightsMore.

Lemma missed_eq (tz now : Z) (st : Store.t) :
  Forall Scheduled (bookmarks st) ->
  let late := filter (fun b => ReviewStats.lt (b_nextReviewAt b) now)
                     (bookmarks st) in
  missed now (bookmarks st)
  = if (0 <? length late)%nat
    then [mkInsight MissedReviews Warning (inject_Z (Z.of_nat (length late)))
                    None None
                    (map (fun b => (b_id b, b_title b)) (firstn 5 late))]
    else [].
Proof.
  intros H. cbv zeta. unfold missed. cbv zeta.
  now rewrite (missed_overdue now (bookmarks st) H).
Qed.

Lemma missed_only (tz now : Z) (st : Store.t) (i : Insight) :
  In i (generateInsights tz now st) -> i_type i = MissedReviews ->
  In i (missed now (bookmarks st)).
Proof.
  intros H Hty. apply generateInsights_In in H. cbv zeta in H.
  destruct H as [H | [H | [H | [H | [H | [H | H]]]]]]; trivial; exfalso.
  - apply weekly_shape in H. destruct H as [[E _] | [E _]]; congruence.
  - apply weakCategories_shape in H. destruct H as [E _]. congruence.
  - apply retentionDecay_shape in H. destruct H as [E _]. congruence.
  - apply questionTypes_shape in H. destruct H as [E _]. congruence.
  - apply consistent_shape in H. destruct H as [E _]. congruence.
  - apply studyStreak_shape in H. destruct H as [E _]. congruence.
Qed.

End MissedFacts.

(** X18.  On a store written by the scheduler, the missed-reviews insight
    and the overdue count of [GET /reviews] agree: when the engine returns
    its insights, the insight is among them exactly when some bookmark is
    overdue, its metric is the number of overdue bookmarks, and it lists
    the first five of them at most. *)
Theorem missed_reviews_are_overdue (tz now : Z) (st : Store.t)
        (insights : list Insights.Insight) :
  Forall InsightsMore.Scheduled (Store.bookmarks st) ->
  Insights.generateInsightsOutcome tz now st = Some insights ->
  let n := ReviewStats.overdue (ReviewStats.reviews tz now st) in
  ((exists i, In i insights /\ Insights.i_type i = Insights.MissedReviews)
   <-> (0 < n)%nat)
  /\ (forall i, In i insights ->
                Insights.i_type i = Insights.MissedReviews ->
                Insights.i_metric i = inject_Z (Z.of_nat n)
                /\ length (Insights.i_bookmarks i) = Nat.min 5 n).
Proof.
  intros Hst Hout. cbv zeta.
  unfold Insights.generateInsightsOutcome in Hout.
  destruct (Insights.throws st); [discriminate |]. injection Hout as <-.
  pose proof (missed_eq tz now st Hst) as E. cbv zeta in E.
  change (ReviewStats.overdue (ReviewStats.reviews tz now st))
    with (length (filter (fun b => ReviewStats.lt (Store.b_nextReviewAt b) now)
                         (Store.bookmarks st))).
  set (late := filter (fun b => ReviewStats.lt (Store.b_nextReviewAt b) now)
                      (Store.bookmarks st)) in *.
  split.
  - split.
    + intros [i [Hin Hty]]. apply (missed_only tz now st i Hin) in Hty.
      rewrite E in Hty.
      destruct (Nat.ltb_spec 0 (length late)); [lia | contradiction].
    + intros H.
      exists (Insights.mkInsight Insights.MissedReviews Insights.Warning
                (inject_Z (Z.of_nat (length late))) None None
                (map (fun b => (Store.b_id b, Store.b_title b)) (firstn 5 late))).
      split; [| reflexivity].
      apply generateInsights_In. cbv zeta. right. left. rewrite E.
      destruct (Nat.ltb_spec 0 (length late)); [now left | lia].
  - intros i Hin Hty. apply (missed_only tz now st i Hin) in Hty.
    rewrite E in Hty. destruct (0 <? length late)%nat; [| contradiction].
    destruct Hty as [<- | []]. cbn [Insights.i_metric Insights.i_bookmarks].
    split; [reflexivity |]. now rewrite length_map, length_firstn.
Qed.

Lemma missed_reviews_are_overdue_witness :
  let now := 20 * 86400000 in
  let insights := Insights.generateInsights 0 now Examples.st_insights in
  Forall InsightsMore.Scheduled (Store.bookmarks Examples.st_insights)
  /\ Insights.generateInsightsOutcome 0 now Examples.st_insights
     = Some insights
  /\ ((exists i, In i insights /\ Insights.i_type i = Insights.MissedReviews)
      <-> (0 < ReviewStats.overdue
                 (ReviewStats.reviews 0 now Examples.st_insights))%nat).
Proof.
  cbv zeta.
  assert (H : Forall InsightsMore.Scheduled (Store.bookmarks Examples.st_insights)).
  { repeat constructor. }
  assert (Hout : Insights.generateInsightsOutcome 0 (20 * 86400000)
                   Examples.st_insights
                 = Some (Insights.generateInsights 0 (20 * 86400000)
                           Examples.st_insights))
    by reflexivity.
  split; [exact H |]. split; [exact Hout |].
  exact (proj1 (missed_reviews_are_overdue 0 (20 * 86400000)
                  Examples.st_insights _ H Hout)).
Defined.

Section CategoryFacts.
Import Js Store Insights InsightsSpec.

Lemma filter_split_Permutation {A} (p q : A -> bool) (l : list A) :
  (forall x, In x l -> p x = true -> q x = false) ->
  Permutation (filter p l ++ filter q l) (filter (fun x => p x || q x) l).
Proof.
  induction l as [|x l IH]; simpl; intros H; [constructor |].
  assert (IH' : Permutation (filter p l ++ filter q l)
                            (filter (fun x => p x || q x) l))
    by (apply IH; intros y Hy; apply H; now right).
  destruct (p x) eqn:Hp; simpl.
  - rewrite (H x) by (trivial; now left). now constructor.
  - destruct (q x).
    + symmetry. apply Permutation_cons_app. now symmetry.
    + exact IH'.
Qed.

(** The rows of a relation, read through the rows of its owner: each
    owner's rows in turn, or the rows that have an owner. *)
Lemma rows_by_owner {Row Owner} (key : Row -> string) (id : Owner -> string)
      (owners : list Owner) (rows : list Row) :
  NoDup (map id owners) ->
  Permutation
    (flat_map (fun o => filter (fun r => String.eqb (key r) (id o)) rows) owners)
    (filter (fun r => existsb (fun o => String.eqb (key r) (id o)) owners) rows).
Proof.
  induction owners as [|o owners IH]; simpl; intros Hnd.
  - rewrite filter_all_false by reflexivity. constructor.
  - inversion Hnd as [| ? ? Hnotin Hnd']; subst.
    rewrite <- filter_split_Permutation.
    + apply Permutation_app_head. now apply IH.
    + intros r _ Hr. apply String.eqb_eq in Hr.
      destruct (existsb _ owners) eqn:E; [| reflexivity].
      apply existsb_exists in E. destruct E as [o' [Hin Ho']].
      apply String.eqb_eq in Ho'. exfalso. apply Hnotin.
      rewrite <- Hr, Ho'. now apply in_map.
Qed.

Lemma unique_by_id {Row} (id : Row -> string) (rows : list Row) (x y : Row) :
  NoDup (map id rows) -> In x rows -> In y rows -> id x = id y -> x = y.
Proof.
  induction rows as [|r rows IH]; simpl; intros Hnd Hx Hy E; [contradiction |].
  inversion Hnd as [| ? ? Hnotin Hnd']; subst.
  destruct Hx as [-> | Hx], Hy as [-> | Hy]; trivial.
  - exfalso. apply Hnotin. rewrite E. now apply in_map.
  - exfalso. apply Hnotin. rewrite <- E. now apply in_map.
  - now apply IH.
Qed.

Section OneCategory.
Variables (st : Store.t) (categoryId : string) (category : Category).
Hypothesis bookmark_ids : NoDup (map b_id (bookmarks st)).
Hypothesis found : findCategory st categoryId = Some category.
Hypothesis named : c_name category <> ""%string.
Hypothesis not_default : c_name category <> "Uncategorized"%string.
Hypothesis unique_name :
  forall c, In c (categories st) -> c_name c = c_name category ->
            c_id c = c_id category.

Lemma found_id : c_id category = categoryId.
Proof.
  unfold findCategory in found. apply find_some in found.
  now apply String.eqb_eq.
Qed.

Lemma in_category (a : QuizAttempt) :
  existsb (fun b => String.eqb (a_bookmarkId a) (b_id b))
          (Analytics.bookmarksIn st categoryId)
  = String.eqb (categoryName st a) (c_name category).
Proof.
  unfold Analytics.bookmarksIn, categoryName, categoryOfAttempt.
  destruct (existsb _ _) eqn:E.
  - apply existsb_exists in E. destruct E as [b [Hb Hid]].
    apply filter_In in Hb. destruct Hb as [Hb Hcat].
    apply String.eqb_eq in Hid.
    destruct (b_categoryId b) as [cid|] eqn:Hc; [| discriminate].
    apply String.eqb_eq in Hcat. subst cid.
    destruct (findBookmark st (a_bookmarkId a)) as [b'|] eqn:Hf.
    + unfold findBookmark in Hf. apply find_some in Hf.
      destruct Hf as [Hb' Hid']. apply String.eqb_eq in Hid'.
      assert (b' = b)
        by (apply (unique_by_id b_id (bookmarks st)); trivial; congruence).
      subst b'. unfold categoryOf. rewrite Hc, found.
      destruct (String.eqb_spec (c_name category) ""); [contradiction |].
      symmetry. apply String.eqb_refl.
    + exfalso. unfold findBookmark in Hf.
      apply (find_none _ _ Hf b) in Hb.
      rewrite Hid, String.eqb_refl in Hb. discriminate.
  - symmetry. apply String.eqb_neq. intros Hname.
    destruct (findBookmark st (a_bookmarkId a)) as [b|] eqn:Hf;
      [| now symmetry in Hname].
    unfold categoryOf in Hname.
    destruct (b_categoryId b) as [cid|] eqn:Hc; [| now symmetry in Hname].
    destruct (findCategory st cid) as [c|] eqn:Hfc; [| now symmetry in Hname].
    destruct (String.eqb_spec (c_name c) ""); [now symmetry in Hname |].
    unfold findCategory in Hfc. apply find_some in Hfc.
    destruct Hfc as [Hin Hcid]. apply String.eqb_eq in Hcid.
    pose proof (unique_name c Hin Hname) as Hsame. rewrite found_id in Hsame.
    unfold findBookmark in Hf. apply find_some in Hf.
    destruct Hf as [Hb Hid]. apply String.eqb_eq in Hid.
    assert (Hex : existsb (fun b => String.eqb (a_bookmarkId a) (b_id b))
                          (filter (fun b => match b_categoryId b with
                                            | Some c => String.eqb c categoryId
                                            | None => false
                                            end) (bookmarks st)) = true).
    { apply existsb_exists. exists b. split.
      - apply filter_In. split; trivial. rewrite Hc. apply String.eqb_eq.
        congruence.
      - rewrite Hid. apply String.eqb_refl. }
    rewrite Hex in E. discriminate.
Qed.

(** The attempts of the bookmarks of the category are the attempts filed
    under its name. *)
Lemma attemptsIn_scores :
  Permutation (map a_score (ScopedInsights.attemptsIn st categoryId))
              (scoresOfCategory st (c_name category)).
Proof.
  unfold ScopedInsights.attemptsIn, scoresOfCategory, attemptsOf,
    byAttemptedAtDesc.
  apply Permutation_map.
  rewrite (filter_Permutation _ _ _ (sort_Permutation _ (quizAttempts st))).
  rewrite (rows_by_owner a_bookmarkId b_id).
  - rewrite (filter_ext _ _ in_category). reflexivity.
  - unfold Analytics.bookmarksIn.
    apply (NoDup_map_filter b_id). exact bookmark_ids.
Qed.

End OneCategory.

(** When the page of a category says "weak". *)
Lemma getCategoryInsights_weak (st : Store.t) (categoryId : string)
      (category : Category) :
  findCategory st categoryId = Some category ->
  In (ScopedInsights.mkInsight ScopedInsights.WeakCategory Critical)
     (ScopedInsights.getCategoryInsights st categoryId)
  <-> ((1 <= length (ScopedInsights.attemptsIn st categoryId))%nat
       /\ (NumberSpec.averageOf
             (map a_score (ScopedInsights.attemptsIn st categoryId)) < 50)%Q).
Proof.
  intros Hf. unfold ScopedInsights.getCategoryInsights. rewrite Hf. cbv zeta.
  rewrite <- mean_averageOf.
  set (l := ScopedInsights.attemptsIn st categoryId).
  set (avg := mean (map a_score l)).
  destruct (Nat.eqb_spec (length l) 0) as [E | E].
  - split.
    + intros [H | []]. discriminate.
    + intros [H _]. lia.
  - assert (Htrend :
      forall x : list ScopedInsights.Insight,
        In (ScopedInsights.mkInsight ScopedInsights.WeakCategory Critical)
           (x ++ (if (5 <=? length l)%nat
                  then if Qlt_bool
                            (fadd (ScopedInsights.thirdOfSum (lastThree l)) 10)
                            (ScopedInsights.thirdOfSum (firstn 3 l))
                       then [ScopedInsights.mkInsight ScopedInsights.Improving
                                                       Positive]
                       else []
                  else []))
        <-> In (ScopedInsights.mkInsight ScopedInsights.WeakCategory Critical) x).
    { intros x. rewrite in_app_iff. split; [| tauto].
      intros [H | H]; trivial.
      destruct (5 <=? length l)%nat; [| contradiction].
      destruct (Qlt_bool _ _); [| contradiction].
      destruct H as [H | []]. discriminate. }
    rewrite Htrend.
    destruct (Qle_bool 80 avg) eqn:Hhi.
    + apply Qle_bool_iff in Hhi. split.
      * intros [H | []]. discriminate.
      * intros [_ H]. exfalso.
        pose proof (Qle_lt_trans _ _ _ Hhi H) as Habs. discriminate Habs.
    + destruct (Qlt_bool avg 50) eqn:Hlo.
      * apply Qlt_bool_iff in Hlo. split.
        -- intros _. split; [lia | exact Hlo].
        -- intros _. now left.
      * split; [intros [] |].
        intros [_ H]. apply Qlt_bool_iff in H. congruence.
Qed.

End CategoryFacts.

(** X19.  The insights of one category and the insights of the whole
    history read the same attempts.  In a store whose bookmark ids and
    category names are unique, for a category with a name other than
    ["Uncategorized"]: the attempts read through the bookmarks of the
    category are the attempts filed under its name; the category's own
    insights say "weak" exactly when an attempt exists and the double
    average of the scores, bookmark by bookmark, is below 50; and the
    global insights, when the engine returns them, say so exactly when
    there are three attempts and the double average of the same scores,
    newest first, is below 50. *)
Theorem category_insights_agree (tz now : Z) (st : Store.t)
        (categoryId : string) (category : Store.Category) :
  NoDup (map Store.b_id (Store.bookmarks st)) ->
  Store.findCategory st categoryId = Some category ->
  Store.c_name category <> ""%string ->
  Store.c_name category <> "Uncategorized"%string ->
  (forall c, In c (Store.categories st) ->
             Store.c_name c = Store.c_name category ->
             Store.c_id c = Store.c_id category) ->
  let attempts := ScopedInsights.attemptsIn st categoryId in
  let filed := InsightsSpec.scoresOfCategory st (Store.c_name category) in
  let weak := ScopedInsights.mkInsight ScopedInsights.WeakCategory
                                       Insights.Critical in
  Permutation (map Store.a_score attempts) filed
  /\ (In weak (ScopedInsights.getCategoryInsights st categoryId)
      <-> (1 <= length attempts)%nat
          /\ (NumberSpec.averageOf (map Store.a_score attempts) < 50)%Q)
  /\ (forall insights,
        Insights.generateInsightsOutcome tz now st = Some insights ->
        InsightsSpec.FlaggedWeak insights (Store.c_name category)
        <-> (3 <= length attempts)%nat
            /\ (NumberSpec.averageOf filed < 50)%Q).
Proof.
  intros Hnd Hf Hname Hdef Huniq. cbv zeta.
  pose proof (attemptsIn_scores st categoryId category Hnd Hf Hname Hdef Huniq)
    as Hperm.
  pose proof (getCategoryInsights_weak st categoryId category Hf) as Hweak.
  split; [exact Hperm |]. split; [exact Hweak |].
  intros insights. unfold Insights.generateInsightsOutcome.
  destruct (Insights.throws st); [discriminate |].
  intros H. injection H as <-.
  rewrite generateInsights_flagged.
  now rewrite <- (Permutation_length Hperm), length_map.
Qed.

Lemma category_insights_agree_witness :
  InsightsSpec.FlaggedWeak
    (Insights.generateInsights 0 1000 Examples.st_insights) "Botany"
  <-> (3 <= length (ScopedInsights.attemptsIn Examples.st_insights
                                               Examples.id_c1))%nat
      /\ (NumberSpec.averageOf
            (InsightsSpec.scoresOfCategory Examples.st_insights "Botany")
          < 50)%Q.
Proof.
  apply (category_insights_agree 0 1000 Examples.st_insights Examples.id_c1
           (Store.mkCategory Examples.id_c1 "Botany")).
  - repeat constructor; cbn; intuition discriminate.
  - reflexivity.
  - discriminate.
  - discriminate.
  - intros c [<- | [<- | [<- | []]]]; cbn; intros H;
      try reflexivity; discriminate H.
  - reflexivity.
Defined.

Section DailyFacts.
Import Js Store RevisionEngine DailyQuiz DailyQuizSpec.

Lemma seq_iff (a b : string) : String.eqb a b = true <-> a = b.
Proof. apply String.eqb_eq. Qed.

Lemma track_get (d : dict) (key : string) (isCorrect : bool) (k : string) :
  get String.eqb (track d key isCorrect) k
  = if String.eqb key k
    then Some (mkScores (if isCorrect then S (correct (entryOf d k))
                         else correct (entryOf d k))
                        (S (total (entryOf d k))))
    else get String.eqb d k.
Proof.
  unfold track, entryOf. destruct (String.eqb_spec key k) as [-> | Hne].
  - destruct (get String.eqb d k) as [s|] eqn:E.
    + rewrite E. destruct isCorrect.
      * now rewrite !(get_set_same String.eqb seq_iff).
      * now rewrite (get_set_same String.eqb seq_iff).
    + rewrite !(get_set_same String.eqb seq_iff). destruct isCorrect.
      * now rewrite !(get_set_same String.eqb seq_iff).
      * now rewrite (get_set_same String.eqb seq_iff).
  - assert (Hset : forall (dd : @dict string Scores) v,
               get String.eqb (set String.eqb dd key v) k
               = get String.eqb dd k)
      by (intros; now apply (get_set_other String.eqb seq_iff)).
    repeat match goal with
           | |- context [match get String.eqb ?x key with _ => _ end] =>
               destruct (get String.eqb x key)
           | |- context [if isCorrect then _ else _] => destruct isCorrect
           end; now rewrite ?Hset.
Qed.

Lemma track_keys (d : dict) (key : string) (isCorrect : bool) :
  NoDup (keys d) -> NoDup (keys (track d key isCorrect)).
Proof.
  intros H. unfold track.
  repeat match goal with
         | |- context [match get String.eqb ?x key with _ => _ end] =>
             destruct (get String.eqb x key)
         | |- context [if isCorrect then _ else _] => destruct isCorrect
         end;
    repeat apply (set_keys_NoDup String.eqb seq_iff); exact H.
Qed.

Lemma set_length_le (d : @dict string Scores) (k : string) (v : Scores) :
  (length (set String.eqb d k v) <= S (length d))%nat.
Proof.
  induction d as [|[k' v'] d IH]; simpl; [lia |].
  destruct (String.eqb k k'); simpl; lia.
Qed.

Lemma set_length_same (d : @dict string Scores) (k : string) (v s : Scores) :
  get String.eqb d k = Some s -> length (set String.eqb d k v) = length d.
Proof.
  induction d as [|[k' v'] d IH]; simpl; [discriminate |].
  destruct (String.eqb k k'); simpl; [reflexivity |].
  intros Hg. now rewrite (IH Hg).
Qed.

(** A tracked answer adds one key at most. *)
Lemma track_length (d : dict) (key : string) (isCorrect : bool) :
  (length (track d key isCorrect) <= S (length d))%nat.
Proof.
  pose proof (@get_set_same string Scores String.eqb seq_iff) as Hsame.
  unfold track. destruct (get String.eqb d key) as [s|] eqn:E.
  - rewrite E. destruct isCorrect.
    + rewrite Hsame.
      rewrite (set_length_same _ key _ _ (Hsame _ _ _)).
      rewrite (set_length_same _ key _ _ E). lia.
    + rewrite (set_length_same _ key _ _ E). lia.
  - rewrite Hsame. destruct isCorrect.
    + rewrite Hsame.
      rewrite (set_length_same _ key _ _ (Hsame _ _ _)).
      rewrite (set_length_same _ key _ _ (Hsame _ _ _)).
      apply set_length_le.
    + rewrite (set_length_same _ key _ _ (Hsame _ _ _)).
      apply set_length_le.
Qed.

Lemma grade_entries (st : Store.t) (l : list Quiz.Answer) (acc : Graded) :
  (length (g_bookmarkScores (fold_left (gradeStep st) l acc))
   <= length (g_bookmarkScores acc) + length (SubmitSpec.scored st l))%nat.
Proof.
  revert acc. induction l as [|a l IH]; intros acc; simpl; [lia |].
  etransitivity; [apply IH |].
  unfold gradeStep, SubmitSpec.known.
  destruct (findQuestion st (Quiz.questionId a)) as [q|]; [| lia].
  cbn [g_bookmarkScores length].
  pose proof (track_length (g_bookmarkScores acc) (q_bookmarkId q)
                (Quiz.checkAnswer q (Quiz.selectedAnswer a))).
  lia.
Qed.

Lemma grade_keys (st : Store.t) (l : list Quiz.Answer) (acc : Graded) :
  NoDup (keys (g_bookmarkScores acc)) ->
  NoDup (keys (g_bookmarkScores (fold_left (gradeStep st) l acc))).
Proof.
  revert acc. induction l as [|a l IH]; intros acc H; simpl; [exact H |].
  apply IH. unfold gradeStep.
  destruct (findQuestion st (Quiz.questionId a)); [| exact H].
  cbn [g_bookmarkScores]. now apply track_keys.
Qed.

Lemma track_entry (d : dict) (key : string) (isCorrect : bool) (k : string) :
  entryOf (track d key isCorrect) k
  = if String.eqb key k
    then mkScores (if isCorrect then S (correct (entryOf d k))
                   else correct (entryOf d k))
                  (S (total (entryOf d k)))
    else entryOf d k.
Proof.
  unfold entryOf at 1. rewrite track_get.
  now destruct (String.eqb key k).
Qed.

(** What the loop has counted under a key. *)
Lemma grade_get (st : Store.t) (l : list Quiz.Answer) (acc : Graded)
      (k : string) :
  get String.eqb (g_bookmarkScores (fold_left (gradeStep st) l acc)) k
  = match answered st l k with
    | [] => get String.eqb (g_bookmarkScores acc) k
    | given =>
        Some (mkScores
                (correct (entryOf (g_bookmarkScores acc) k)
                 + length (filter (SubmitSpec.judgedCorrect st) given))
                (total (entryOf (g_bookmarkScores acc) k) + length given))
    end.
Proof.
  revert acc. induction l as [|a l IH]; intros acc; [reflexivity |].
  cbn [fold_left]. rewrite IH. clear IH.
  unfold answered. cbn [filter]. fold (answered st l k).
  unfold gradeStep.
  destruct (findQuestion st (Quiz.questionId a)) as [q|] eqn:Hq;
    [| reflexivity].
  assert (Hj : SubmitSpec.judgedCorrect st a
               = Quiz.checkAnswer q (Quiz.selectedAnswer a))
    by (unfold SubmitSpec.judgedCorrect; now rewrite Hq).
  cbn [g_bookmarkScores]. rewrite track_entry, track_get.
  destruct (String.eqb (q_bookmarkId q) k); [| reflexivity].
  destruct (answered st l k) as [|a' given]; cbn [filter]; rewrite Hj;
    destruct (Quiz.checkAnswer q (Quiz.selectedAnswer a));
    cbn [correct total length]; f_equal; f_equal; lia.
Qed.

Lemma grade_scores (st : Store.t) (l : list Quiz.Answer) (k : string) :
  get String.eqb (g_bookmarkScores (grade st l)) k
  = match answered st l k with
    | [] => None
    | given =>
        Some (mkScores (length (filter (SubmitSpec.judgedCorrect st) given))
                       (length given))
    end.
Proof. unfold grade. rewrite grade_get. reflexivity. Qed.

Lemma grade_results (st : Store.t) (l : list Quiz.Answer) (acc : Graded) :
  length (g_results (fold_left (gradeStep st) l acc))
  = (length (g_results acc) + length (SubmitSpec.scored st l))%nat
  /\ g_correctCount (fold_left (gradeStep st) l acc)
     = (g_correctCount acc
        + length (filter (SubmitSpec.judgedCorrect st) l))%nat.
Proof.
  revert acc. induction l as [|a l IH]; intros acc; simpl; [lia |].
  destruct (IH (gradeStep st acc a)) as [-> ->].
  unfold gradeStep, SubmitSpec.known, SubmitSpec.judgedCorrect.
  destruct (findQuestion st (Quiz.questionId a)) as [q|]; [| lia].
  cbn [g_results g_correctCount]. rewrite length_app.
  destruct (Quiz.checkAnswer q (Quiz.selectedAnswer a)); simpl; lia.
Qed.

(** The loop of updates writes to the bookmarks only, and when all are
    made each bookmark is rescheduled on the entry of its id. *)
Lemma reschedule_effect (tz now : Z) (es : list (string * Scores)) :
  forall st,
    let out := reschedule tz now st es in
    categories (fst out) = categories st
    /\ questions (fst out) = questions st
    /\ quizAttempts (fst out) = quizAttempts st
    /\ userAnswers (fst out) = userAnswers st
    /\ map b_id (bookmarks (fst out)) = map b_id (bookmarks st)
    /\ (snd out = true -> NoDup (keys es) ->
        bookmarks (fst out)
        = map (fun b =>
                 match get String.eqb es (b_id b) with
                 | Some s =>
                     SubmitSpec.reviewed now
                       (calculateNextReviewDate tz now (bookmarkScore s)) b
                 | None => b
                 end) (bookmarks st)).
Proof.
  induction es as [|[k s] es IH]; intros st; cbv zeta.
  - cbn. repeat (split; [reflexivity |]). intros _ _.
    now rewrite map_id.
  - cbn [reschedule].
    pose proof (updateRevisionSchedule_effect_bookmarks tz now st k
                  (bookmarkScore s)) as Hb.
    unfold updateRevisionSchedule, updateBookmark in *.
    destruct (findBookmark st k) as [b0|];
      [| cbn; repeat (split; [reflexivity |]); discriminate].
    match goal with
    | |- context [reschedule tz now ?s1 es] => set (st1 := s1) in *
    end.
    specialize (IH st1). cbv zeta in IH.
    destruct IH as [H1 [H2 [H3 [H4 [H5 H6]]]]].
    repeat (split; [assumption |]). split.
    + rewrite H5. unfold st1. cbn [bookmarks]. rewrite map_map.
      apply map_ext. intros b. now destruct (String.eqb (b_id b) k).
    + intros Hok Hnd. cbn [keys map fst] in Hnd.
      inversion Hnd as [| ? ? Hk Hnd']; subst.
      rewrite (H6 Hok Hnd'). unfold st1. cbn [bookmarks]. rewrite map_map.
      apply map_ext. intros b. cbn [get].
      destruct (String.eqb_spec (b_id b) k) as [E | E].
      * assert (Hg : get String.eqb es (b_id b) = None).
        { rewrite E. destruct (get String.eqb es k) eqn:Hg; [| reflexivity].
          exfalso. apply Hk. apply (get_In String.eqb seq_iff) in Hg.
          now apply (in_map fst) in Hg. }
        cbn [SubmitSpec.reviewed b_id]. now rewrite Hg.
      * reflexivity.
Qed.

(** The loop of updates goes through when every key is the id of a
    bookmark. *)
Lemma reschedule_ok (tz now : Z) (es : list (string * Scores)) :
  forall st,
    (forall k, In k (keys es) -> In k (map b_id (bookmarks st))) ->
    snd (reschedule tz now st es) = true.
Proof.
  induction es as [|[k s] es IH]; intros st Hk; [reflexivity |].
  cbn [reschedule]. unfold updateRevisionSchedule, updateBookmark.
  destruct (findBookmark st k) as [b0|] eqn:Hf.
  - apply IH. intros k' Hk'. cbn [bookmarks]. rewrite map_map.
    rewrite (map_ext (fun b => b_id (if String.eqb (b_id b) k
                                     then _ else b)) b_id)
      by (intros b; now destruct (String.eqb (b_id b) k)).
    apply Hk. now right.
  - exfalso. assert (Hin : In k (map b_id (bookmarks st)))
      by (apply Hk; now left).
    apply in_map_iff in Hin. destruct Hin as [b [Hid Hb]].
    unfold findBookmark in Hf. apply (find_none _ _ Hf) in Hb.
    rewrite Hid, String.eqb_refl in Hb. discriminate.
Qed.

Lemma after_eq (tz now : Z) (st : Store.t) (l : list Quiz.Answer)
      (b : Bookmark) :
  match get String.eqb (g_bookmarkScores (grade st l)) (b_id b) with
  | Some s =>
      SubmitSpec.reviewed now
        (calculateNextReviewDate tz now (bookmarkScore s)) b
  | None => b
  end = after tz now st l b.
Proof.
  rewrite grade_scores. unfold after, scoreOn, bookmarkScore.
  destruct (answered st l (b_id b)); reflexivity.
Qed.

(** The bookmarks after a daily review that went through. *)
Lemma daily_effect_bookmarks (is_uuid : string -> bool) (tz now : Z)
      (st : Store.t) (body : DailyBody) :
  match snd (submit is_uuid tz now st body) with
  | Json _ =>
      bookmarks (fst (submit is_uuid tz now st body))
      = map (after tz now st (answers body)) (bookmarks st)
  | _ => True
  end.
Proof.
  unfold submit.
  destruct (submitDailyQuizSchema is_uuid body); cbn [negb]; [| exact I].
  set (g := grade st (answers body)).
  pose proof (reschedule_effect tz now (entries (g_bookmarkScores g)) st) as H.
  cbv zeta in H.
  destruct (reschedule tz now st (entries (g_bookmarkScores g))) as [st' ok].
  cbn [fst snd] in *. destruct ok; cbn [fst snd]; [| exact I].
  destruct H as [_ [_ [_ [_ [_ H]]]]].
  rewrite H; [| reflexivity | apply grade_keys; constructor].
  apply map_ext. intros b. apply (after_eq tz now st (answers body) b).
Qed.

End DailyFacts.

(** X20.  What [POST /daily-review/submit] does to the store.  It writes
    no quiz attempt and no answer, whatever the reply: the daily review
    leaves no trace in the history that the trends, the streak and the
    weakest bookmarks are computed from.  A body the schema refuses
    changes nothing.  On a success each bookmark of which a question was
    answered is marked as reviewed and rescheduled on the score of its own
    questions, every other bookmark is as it was; the reply counts the
    answers to known questions, the right ones among them and gives their
    rounded share. *)
Theorem daily_submit_effect (is_uuid : string -> bool) (tz now : Z)
        (st : Store.t) (body : DailyQuiz.DailyBody) :
  let out := DailyQuiz.submit is_uuid tz now st body in
  Store.categories (fst out) = Store.categories st
  /\ Store.questions (fst out) = Store.questions st
  /\ Store.quizAttempts (fst out) = Store.quizAttempts st
  /\ Store.userAnswers (fst out) = Store.userAnswers st
  /\ match snd out with
     | DailyQuiz.ValidationError =>
         DailyQuiz.submitDailyQuizSchema is_uuid body = false /\ fst out = st
     | DailyQuiz.Failed => True
     | DailyQuiz.Json r =>
         Store.bookmarks (fst out)
         = map (DailyQuizSpec.after tz now st (DailyQuiz.answers body))
               (Store.bookmarks st)
         /\ DailyQuiz.res_total r
            = length (SubmitSpec.scored st (DailyQuiz.answers body))
         /\ DailyQuiz.res_correct r
            = length (filter (SubmitSpec.judgedCorrect st)
                             (DailyQuiz.answers body))
         /\ (DailyQuiz.res_correct r <= DailyQuiz.res_total r)%nat
         /\ DailyQuiz.res_score r
            = Js.round2 (Quiz.scoreOf (DailyQuiz.res_correct r)
                                      (DailyQuiz.res_total r))
         /\ (DailyQuiz.res_bookmarksReviewed r <= DailyQuiz.res_total r)%nat
     end.
Proof.
  cbv zeta. unfold DailyQuiz.submit.
  destruct (DailyQuiz.submitDailyQuizSchema is_uuid body) eqn:Hs;
    cbn [negb]; [| cbn; tauto].
  set (g := DailyQuiz.grade st (DailyQuiz.answers body)).
  pose proof (reschedule_effect tz now
                (Js.entries (DailyQuiz.g_bookmarkScores g)) st) as H.
  cbv zeta in H.
  destruct (DailyQuiz.reschedule tz now st
              (Js.entries (DailyQuiz.g_bookmarkScores g))) as [st' ok].
  cbn [fst snd] in H. destruct H as [H1 [H2 [H3 [H4 [_ H6]]]]].
  destruct ok; cbn [fst snd]; repeat (split; [assumption |]); [| exact I].
  cbn [DailyQuiz.res_total DailyQuiz.res_correct DailyQuiz.res_score
       DailyQuiz.res_bookmarksReviewed].
  assert (Hnd : NoDup (Js.keys (DailyQuiz.g_bookmarkScores g)))
    by (apply grade_keys; constructor).
  destruct (grade_results st (DailyQuiz.answers body)
              (DailyQuiz.mkGraded [] 0 [])) as [Hlen Hcount].
  fold (DailyQuiz.grade st (DailyQuiz.answers body)) in Hlen, Hcount.
  fold g in Hlen, Hcount. cbn in Hlen, Hcount.
  split.
  { rewrite (H6 eq_refl Hnd). apply map_ext. intros b.
    apply (after_eq tz now st (DailyQuiz.answers body) b). }
  split; [exact Hlen |]. split; [exact Hcount |].
  split.
  { rewrite Hlen, Hcount. unfold SubmitSpec.scored.
    apply filter_length_impl. intros a _. unfold SubmitSpec.judgedCorrect,
      SubmitSpec.known.
    now destruct (Store.findQuestion st (Quiz.questionId a)). }
  split; [reflexivity |].
  rewrite Hlen. unfold Js.keys. rewrite length_map.
  pose proof (grade_entries st (DailyQuiz.answers body)
                (DailyQuiz.mkGraded [] 0 [])) as Hgen.
  cbn in Hgen. exact Hgen.
Qed.

Section DailySuccessFacts.
Import Js Store RevisionEngine DailyQuiz DailyQuizSpec.

(** The keys of [bookmarkScores] are the ids with an answered question. *)
Lemma grade_key (st : Store.t) (l : list Quiz.Answer) (k : string) :
  In k (keys (g_bookmarkScores (grade st l))) <-> answered st l k <> [].
Proof.
  pose proof (grade_scores st l k) as Hg. split.
  - intros Hin Hnil. rewrite Hnil in Hg.
    apply (get_None String.eqb seq_iff) in Hg. contradiction.
  - intros Hne. destruct (answered st l k) as [|a given]; [contradiction |].
    apply (get_In String.eqb seq_iff) in Hg.
    apply (in_map fst) in Hg. exact Hg.
Qed.

Lemma answered_bookmark (st : Store.t) (l : list Quiz.Answer) (k : string) :
  (forall q, In q (questions st) ->
             In (q_bookmarkId q) (map b_id (bookmarks st))) ->
  answered st l k <> [] -> In k (map b_id (bookmarks st)).
Proof.
  intros Hfk Hne. destruct (answered st l k) as [|a given] eqn:E;
    [contradiction |].
  assert (Ha : In a (answered st l k)) by (rewrite E; now left).
  unfold answered in Ha. apply filter_In in Ha. destruct Ha as [_ Ha].
  destruct (findQuestion st (Quiz.questionId a)) as [q|] eqn:Hq;
    [| discriminate].
  apply String.eqb_eq in Ha. subst k. apply Hfk.
  unfold findQuestion in Hq. now apply find_some in Hq.
Qed.

Lemma after_id (tz now : Z) (st : Store.t) (l : list Quiz.Answer)
      (b : Bookmark) :
  b_id (after tz now st l b) = b_id b.
Proof. unfold after. now destruct (answered st l (b_id b)). Qed.

(** A daily review that passes the schema, on a store in which every
    question belongs to a bookmark and the ids of bookmarks are distinct. *)
Lemma daily_submit_ok (is_uuid : string -> bool) (tz now : Z)
      (st : Store.t) (body : DailyQuiz.DailyBody) :
  DailyQuiz.submitDailyQuizSchema is_uuid body = true ->
  (forall q, In q (Store.questions st) ->
             In (Store.q_bookmarkId q) (map Store.b_id (Store.bookmarks st))) ->
  NoDup (map Store.b_id (Store.bookmarks st)) ->
  exists r,
    snd (DailyQuiz.submit is_uuid tz now st body) = DailyQuiz.Json r
    /\ DailyQuiz.res_total r
       = length (SubmitSpec.scored st (DailyQuiz.answers body))
    /\ DailyQuiz.res_bookmarksReviewed r
       = length (filter
                   (fun b =>
                      (0 <? length (DailyQuizSpec.answered st
                                      (DailyQuiz.answers body)
                                      (Store.b_id b)))%nat)
                   (Store.bookmarks st))
    /\ (forall b,
           In b (Store.bookmarks (fst (DailyQuiz.submit is_uuid tz now st body))) ->
           (0 <? length (DailyQuizSpec.answered st (DailyQuiz.answers body)
                                                (Store.b_id b)))%nat = true ->
           RevisionEngine.dueWhere now b = false).
Proof.
  intros Hs Hfk Hnd.
  pose proof (daily_effect_bookmarks is_uuid tz now st body) as Hb.
  unfold DailyQuiz.submit in *. rewrite Hs in *. cbn [negb] in *.
  set (g := DailyQuiz.grade st (DailyQuiz.answers body)) in *.
  assert (Hkeys : NoDup (Js.keys (DailyQuiz.g_bookmarkScores g)))
    by (apply grade_keys; constructor).
  pose proof (reschedule_ok tz now
                (Js.entries (DailyQuiz.g_bookmarkScores g)) st) as Hok.
  destruct (DailyQuiz.reschedule tz now st
              (Js.entries (DailyQuiz.g_bookmarkScores g))) as [st' ok].
  cbn [fst snd] in *.
  assert (Hyes : ok = true).
  { apply Hok. intros k Hk.
    apply (answered_bookmark st (DailyQuiz.answers body) k Hfk).
    now apply grade_key. }
  clear Hok. subst ok.
  eexists. split; [reflexivity |].
  cbn [DailyQuiz.res_bookmarksReviewed DailyQuiz.res_total].
  split.
  { destruct (grade_results st (DailyQuiz.answers body)
                (DailyQuiz.mkGraded [] 0 [])) as [Hlen _].
    exact Hlen. }
  split.
  - rewrite <- (length_map Store.b_id (filter _ (Store.bookmarks st))).
    apply Permutation_length. apply NoDup_Permutation; trivial.
    + now apply NoDup_map_filter.
    + intros k. unfold g. rewrite grade_key. split.
      * intros Hne.
        pose proof (answered_bookmark st (DailyQuiz.answers body) k Hfk Hne)
          as Hin.
        apply in_map_iff in Hin. destruct Hin as [b [Hid Hin]]. subst k.
        apply in_map. apply filter_In. split; trivial.
        destruct (DailyQuizSpec.answered st (DailyQuiz.answers body)
                                         (Store.b_id b));
          [contradiction | reflexivity].
      * intros Hin. apply in_map_iff in Hin.
        destruct Hin as [b [Hid Hin]]. subst k.
        apply filter_In in Hin. destruct Hin as [_ Hpos].
        intros Hnil. rewrite Hnil in Hpos. discriminate.
  - intros b Hin Hpos. rewrite Hb in Hin. apply in_map_iff in Hin.
    destruct Hin as [b0 [<- _]]. rewrite after_id in Hpos.
    unfold DailyQuizSpec.after.
    destruct (DailyQuizSpec.answered st (DailyQuiz.answers body)
                                     (Store.b_id b0));
      [discriminate |].
    apply reviewed_not_due.
Qed.

End DailySuccessFacts.

(** X21.  When the daily review goes through.  If the body passes the
    schema, every question belongs to a bookmark of the store and the ids
    of the bookmarks are distinct, the reply is the JSON body and not an
    error; the number of bookmarks it reports as reviewed is the number of
    bookmarks with an answered question; and none of these is due any
    longer at that time. *)
Theorem daily_submit_succeeds (is_uuid : string -> bool) (tz now : Z)
        (st : Store.t) (body : DailyQuiz.DailyBody) :
  DailyQuiz.submitDailyQuizSchema is_uuid body = true ->
  (forall q, In q (Store.questions st) ->
             In (Store.q_bookmarkId q) (map Store.b_id (Store.bookmarks st))) ->
  NoDup (map Store.b_id (Store.bookmarks st)) ->
  let out := DailyQuiz.submit is_uuid tz now st body in
  let touched (b : Store.Bookmark) :=
    (0 <? length (DailyQuizSpec.answered st (DailyQuiz.answers body)
                                         (Store.b_id b)))%nat in
  exists r,
    snd out = DailyQuiz.Json r
    /\ DailyQuiz.res_bookmarksReviewed r
       = length (filter touched (Store.bookmarks st))
    /\ (forall b, In b (Store.bookmarks (fst out)) -> touched b = true ->
                  RevisionEngine.dueWhere now b = false).
Proof.
  intros Hs Hfk Hnd. cbv zeta.
  destruct (daily_submit_ok is_uuid tz now st body Hs Hfk Hnd)
    as [r [Hr [_ [Hcount Hdue]]]].
  exists r. repeat split; assumption.
Qed.

Lemma daily_submit_succeeds_witness :
  exists r,
    snd (DailyQuiz.submit Examples.uuid_shape 0 1000 Examples.st_review
           (DailyQuiz.mkDailyBody Examples.answers_one_gone 30))
    = DailyQuiz.Json r
    /\ DailyQuiz.res_bookmarksReviewed r
       = length
           (filter
              (fun b =>
                 (0 <? length (DailyQuizSpec.answered Examples.st_review
                                 Examples.answers_one_gone (Store.b_id b)))%nat)
              (Store.bookmarks Examples.st_review))
    /\ (forall b,
           In b (Store.bookmarks
                   (fst (DailyQuiz.submit Examples.uuid_shape 0 1000
                           Examples.st_review
                           (DailyQuiz.mkDailyBody Examples.answers_one_gone 30)))) ->
           (0 <? length (DailyQuizSpec.answered Examples.st_review
                           Examples.answers_one_gone (Store.b_id b)))%nat = true ->
           RevisionEngine.dueWhere 1000 b = false).
Proof.
  apply (daily_submit_succeeds Examples.uuid_shape 0 1000 Examples.st_review
           (DailyQuiz.mkDailyBody Examples.answers_one_gone 30)).
  - reflexivity.
  - intros q [<- | [<- | [<- | []]]]; cbn; tauto.
  - repeat constructor; cbn; intuition discriminate.
Defined.

Section QuestionStatFacts.
Import Js Store AnalyticsService BookmarkAnalyticsSpec.

Lemma countAnswer_get (st : Store.t) (d : dict) (u : UserAnswer) (k : string) :
  get String.eqb (countAnswer st d u) k
  = if String.eqb (ua_questionId u) k
    then Some (let e := entryOf st d k in
               if ua_isCorrect u
               then mkQuestionStat (qs_questionId e) (qs_questionText e)
                                   (S (qs_correct e)) (qs_incorrect e)
               else mkQuestionStat (qs_questionId e) (qs_questionText e)
                                   (qs_correct e) (S (qs_incorrect e)))
    else get String.eqb d k.
Proof.
  pose proof (@get_set_same string QuestionStat String.eqb seq_iff) as Hsame.
  unfold countAnswer, entryOf. cbv zeta.
  destruct (String.eqb_spec (ua_questionId u) k) as [-> | Hne].
  - destruct (get String.eqb d k) as [q|] eqn:E.
    + rewrite E. now rewrite Hsame.
    + now rewrite !Hsame.
  - assert (Hset : forall (dd : @dict string QuestionStat) v,
               get String.eqb (set String.eqb dd (ua_questionId u) v) k
               = get String.eqb dd k)
      by (intros; now apply (get_set_other String.eqb seq_iff)).
    repeat match goal with
           | |- context [match get String.eqb ?x (ua_questionId u) with
                         | _ => _ end] =>
               destruct (get String.eqb x (ua_questionId u))
           end; now rewrite ?Hset.
Qed.

Lemma countAnswer_entry (st : Store.t) (d : dict) (u : UserAnswer)
      (k : string) :
  entryOf st (countAnswer st d u) k
  = if String.eqb (ua_questionId u) k
    then (let e := entryOf st d k in
          if ua_isCorrect u
          then mkQuestionStat (qs_questionId e) (qs_questionText e)
                              (S (qs_correct e)) (qs_incorrect e)
          else mkQuestionStat (qs_questionId e) (qs_questionText e)
                              (qs_correct e) (S (qs_incorrect e)))
    else entryOf st d k.
Proof.
  unfold entryOf at 1. rewrite countAnswer_get.
  now destruct (String.eqb (ua_questionId u) k).
Qed.

Lemma countAnswer_keys (st : Store.t) (d : dict) (u : UserAnswer) :
  NoDup (keys d) -> NoDup (keys (countAnswer st d u)).
Proof.
  intros H. unfold countAnswer. cbv zeta.
  repeat match goal with
         | |- context [match get String.eqb ?x (ua_questionId u) with
                       | _ => _ end] =>
             destruct (get String.eqb x (ua_questionId u))
         end;
    repeat apply (set_keys_NoDup String.eqb seq_iff); exact H.
Qed.

Lemma questionStats_keys (st : Store.t) (l : list UserAnswer) (d : dict) :
  NoDup (keys d) -> NoDup (keys (fold_left (countAnswer st) l d)).
Proof.
  revert d. induction l as [|u l IH]; intros d H; simpl; [exact H |].
  apply IH. now apply countAnswer_keys.
Qed.

(** What the loop has counted under a key. *)
Lemma questionStats_get (st : Store.t) (l : list UserAnswer) (d : dict)
      (k : string) :
  get String.eqb (fold_left (countAnswer st) l d) k
  = match answersTo k l with
    | [] => get String.eqb d k
    | given =>
        Some (mkQuestionStat (qs_questionId (entryOf st d k))
                             (qs_questionText (entryOf st d k))
                             (qs_correct (entryOf st d k) + right given)
                             (qs_incorrect (entryOf st d k) + wrong given))
    end.
Proof.
  revert d. induction l as [|u l IH]; intros d; [reflexivity |].
  cbn [fold_left]. rewrite IH. clear IH.
  unfold answersTo. cbn [filter]. fold (answersTo k l).
  rewrite countAnswer_entry, countAnswer_get. cbv zeta.
  destruct (String.eqb (ua_questionId u) k); [| reflexivity].
  unfold right, wrong.
  destruct (answersTo k l) as [|u' given]; cbn [filter];
    destruct (ua_isCorrect u);
    cbn [qs_questionId qs_questionText qs_correct qs_incorrect negb length];
    f_equal; f_equal; lia.
Qed.

(** The entries of [questionStats] after the loop. *)
Lemma questionStats_entry (st : Store.t) (l : list UserAnswer) (k : string)
      (q : QuestionStat) :
  In (k, q) (fold_left (countAnswer st) l [])
  <-> (answersTo k l <> []
       /\ q = mkQuestionStat k (option_map q_questionText (findQuestion st k))
                             (right (answersTo k l)) (wrong (answersTo k l))).
Proof.
  assert (Hnd : NoDup (keys (fold_left (countAnswer st) l [])))
    by (apply questionStats_keys; constructor).
  pose proof (questionStats_get st l [] k) as Hg.
  unfold entryOf in Hg. cbn [get qs_questionId qs_questionText qs_correct
                             qs_incorrect Nat.add] in Hg.
  split.
  - intros Hin. apply (In_get String.eqb seq_iff _ _ _ Hnd) in Hin.
    rewrite Hin in Hg. destruct (answersTo k l); [discriminate |].
    split; [discriminate |]. now injection Hg.
  - intros [Hne ->]. apply (get_In String.eqb seq_iff).
    rewrite Hg. destruct (answersTo k l); [contradiction | reflexivity].
Qed.

Lemma wrong_right (l : list UserAnswer) :
  (right l + wrong l = length l)%nat.
Proof.
  unfold right, wrong. induction l as [|u l IH]; simpl; [reflexivity |].
  destruct (ua_isCorrect u); simpl; lia.
Qed.

(** A rate below one half: wrong more often than right. *)
Lemma rate_below_half (c i : nat) :
  (0 < c + i)%nat ->
  Qlt_bool (fdiv (inject_Z (Z.of_nat c)) (inject_Z (Z.of_nat (c + i)))) (1 # 2)
  = true ->
  (c < i)%nat.
Proof.
  intros Hpos H. apply Qlt_bool_iff in H.
  destruct (Nat.lt_ge_cases c i) as [L | L]; [exact L | exfalso].
  apply (Qlt_not_le _ _ H). apply half_above; lia.
Qed.

Lemma rate_of_wrong (c i : nat) :
  (c < i)%nat -> (Z.of_nat (c + i) <= 2 ^ 53)%Z ->
  Qlt_bool (fdiv (inject_Z (Z.of_nat c)) (inject_Z (Z.of_nat (c + i)))) (1 # 2)
  = true.
Proof.
  intros L Hn. apply Qlt_bool_iff. apply half_below; lia.
Qed.

End QuestionStatFacts.

Section BookmarkReportFacts.
Import Js Store AnalyticsService BookmarkAnalyticsSpec.

Lemma StronglySorted_map {A B} (f : A -> B) (R : B -> B -> Prop)
      (l : list A) :
  StronglySorted (fun x y => R (f x) (f y)) l -> StronglySorted R (map f l).
Proof.
  induction 1 as [|x l _ IH Hx]; simpl; constructor; trivial.
  apply Forall_map. exact Hx.
Qed.

Lemma byAttemptedAtAsc_sorted (l : list QuizAttempt) :
  StronglySorted (fun a b => a_attemptedAt a <= a_attemptedAt b)
                 (byAttemptedAtAsc l).
Proof.
  eapply StronglySorted_impl.
  - intros a b H. apply Z.leb_le. exact H.
  - apply sort_sorted.
    + intros a b H. apply Z.leb_gt in H. apply Z.leb_le. lia.
    + intros a b c H1 H2. apply Z.leb_le in H1, H2. apply Z.leb_le. lia.
Qed.

Lemma byRate_sorted (l : list WeakQuestion) :
  StronglySorted (fun x y => (wq_correctRate x <= wq_correctRate y)%Q)
    (sort (fun a b => Qle_bool (wq_correctRate a) (wq_correctRate b)) l).
Proof.
  eapply StronglySorted_impl.
  - intros a b H. apply Qle_bool_iff. exact H.
  - apply sort_sorted.
    + intros a b H. apply Qle_bool_iff.
      destruct (Qlt_le_dec (wq_correctRate b) (wq_correctRate a)) as [L | L].
      * now apply Qlt_le_weak.
      * apply Qle_bool_iff in L. congruence.
    + intros a b c H1 H2. apply Qle_bool_iff in H1, H2. apply Qle_bool_iff.
      now apply Qle_trans with (wq_correctRate b).
Qed.

Lemma reportOn_eq (st : Store.t) (l : list UserAnswer) (k : string) :
  (let q := mkQuestionStat k (option_map q_questionText (findQuestion st k))
                           (right (answersTo k l)) (wrong (answersTo k l)) in
   mkWeakQuestion q (correctRate q))
  = reportOn st l k.
Proof.
  unfold reportOn, correctRate. cbv zeta. cbn [qs_correct qs_incorrect].
  now rewrite wrong_right.
Qed.

(** The elements of [weakQuestions], before they are sorted. *)
Lemma weak_In (st : Store.t) (l : list UserAnswer) (w : WeakQuestion) :
  In w (filter (fun q => Qlt_bool (wq_correctRate q) (1 # 2))
               (map (fun q => mkWeakQuestion q (correctRate q))
                    (values (fold_left (countAnswer st) l []))))
  <-> (exists k, w = reportOn st l k
                 /\ answersTo k l <> []
                 /\ (wq_correctRate w < 1 # 2)%Q).
Proof.
  rewrite filter_In, in_map_iff. unfold values. split.
  - intros [[q [<- Hq]] Hrate]. apply in_map_iff in Hq.
    destruct Hq as [[k q'] [Hk Hin]]. cbn [snd] in Hk. subst q'.
    apply questionStats_entry in Hin. destruct Hin as [Hne ->].
    exists k. split; [apply reportOn_eq |]. split; [exact Hne |].
    now apply Qlt_bool_iff.
  - intros [k [-> [Hne Hlt]]]. split.
    + eexists. split; [apply reportOn_eq |].
      apply in_map_iff. exists (k, mkQuestionStat k
                                     (option_map q_questionText (findQuestion st k))
                                     (right (answersTo k l))
                                     (wrong (answersTo k l))).
      split; [reflexivity |]. apply questionStats_entry.
      split; [exact Hne | reflexivity].
    + now apply Qlt_bool_iff.
Qed.

(** A rate below one half means wrong more often than right. *)
Lemma reportOn_weak (st : Store.t) (l : list UserAnswer) (k : string) :
  answersTo k l <> [] ->
  (wq_correctRate (reportOn st l k) < 1 # 2)%Q ->
  (right (answersTo k l) < wrong (answersTo k l))%nat.
Proof.
  intros Hne H. unfold reportOn in H. cbv zeta in H. cbn [wq_correctRate] in H.
  rewrite <- (wrong_right (answersTo k l)) in H.
  apply Qlt_bool_iff in H. apply rate_below_half in H; [exact H |].
  rewrite wrong_right. destruct (answersTo k l); [contradiction | simpl; lia].
Qed.

Lemma reportOn_wrong (st : Store.t) (l : list UserAnswer) (k : string) :
  (right (answersTo k l) < wrong (answersTo k l))%nat ->
  (Z.of_nat (length (answersTo k l)) <= 2 ^ 53)%Z ->
  (wq_correctRate (reportOn st l k) < 1 # 2)%Q.
Proof.
  intros Hlt Hn. unfold reportOn. cbv zeta. cbn [wq_correctRate].
  rewrite <- (wrong_right (answersTo k l)).
  apply Qlt_bool_iff, rate_of_wrong; [exact Hlt |].
  now rewrite wrong_right.
Qed.

Lemma weak_ids (st : Store.t) (l : list UserAnswer) :
  NoDup (map idOf
             (filter (fun q => Qlt_bool (wq_correctRate q) (1 # 2))
                     (map (fun q => mkWeakQuestion q (correctRate q))
                          (values (fold_left (countAnswer st) l []))))).
Proof.
  apply (NoDup_map_filter idOf). unfold values. rewrite !map_map.
  assert (Hnd : NoDup (keys (fold_left (countAnswer st) l [])))
    by (apply questionStats_keys; constructor).
  unfold keys in Hnd.
  rewrite (map_ext_in _ fst); [exact Hnd |].
  intros [k q] Hin. apply questionStats_entry in Hin.
  destruct Hin as [_ ->]. reflexivity.
Qed.

End BookmarkReportFacts.

(** X22.  The analytics of a bookmark.  There are none exactly when no
    bookmark has the id.  Otherwise the progression lists the attempts on
    the bookmark from the oldest to the latest, each with its date, score
    and time taken.  The weak questions are the questions answered in
    these attempts whose rate of right answers, a quotient of doubles, is
    below one half: each once, with its text, the counts of its right and
    wrong answers and the rate, from the lowest rate to the highest.
    Every weak question was answered wrong more often than right, and a
    question answered wrong more often than right is weak (as long as the
    number of its answers is an integer that a double holds). *)
Theorem getBookmarkAnalytics_report (now : Z) (st : Store.t)
        (bookmarkId : string) :
  (AnalyticsService.getBookmarkAnalytics now st bookmarkId = None
   <-> Store.findBookmark st bookmarkId = None)
  /\ forall ba,
       AnalyticsService.getBookmarkAnalytics now st bookmarkId = Some ba ->
       let given := BookmarkAnalyticsSpec.answersOn st bookmarkId in
       let weak := AnalyticsService.ba_weakQuestions ba in
       AnalyticsService.ba_id ba = bookmarkId
       /\ AnalyticsService.ba_totalAttempts ba
          = length (Store.attemptsOf st bookmarkId)
       /\ (exists attempts,
              Permutation attempts (Store.attemptsOf st bookmarkId)
              /\ StronglySorted
                   (fun a b => Store.a_attemptedAt a <= Store.a_attemptedAt b)
                   attempts
              /\ AnalyticsService.ba_scoreProgression ba
                 = map BookmarkAnalyticsSpec.progressOf attempts)
       /\ StronglySorted
            (fun x y => (AnalyticsService.wq_correctRate x
                         <= AnalyticsService.wq_correctRate y)%Q) weak
       /\ NoDup (map BookmarkAnalyticsSpec.idOf weak)
       /\ (forall w,
              In w weak
              <-> exists questionId,
                    w = BookmarkAnalyticsSpec.reportOn st given questionId
                    /\ BookmarkAnalyticsSpec.answersTo questionId given <> []
                    /\ (AnalyticsService.wq_correctRate w < 1 # 2)%Q)
       /\ (forall w, In w weak ->
              let to := BookmarkAnalyticsSpec.answersTo
                          (BookmarkAnalyticsSpec.idOf w) given in
              (BookmarkAnalyticsSpec.right to
               < BookmarkAnalyticsSpec.wrong to)%nat)
       /\ (forall questionId,
              let to := BookmarkAnalyticsSpec.answersTo questionId given in
              (BookmarkAnalyticsSpec.right to
               < BookmarkAnalyticsSpec.wrong to)%nat ->
              Z.of_nat (length to) <= 2 ^ 53 ->
              In (BookmarkAnalyticsSpec.reportOn st given questionId) weak).
Proof.
  unfold AnalyticsService.getBookmarkAnalytics.
  destruct (Store.findBookmark st bookmarkId) as [b|] eqn:Hf;
    [| split; [tauto | discriminate]].
  split; [split; discriminate |].
  intros ba Hba. injection Hba as <-.
  assert (Hid : Store.b_id b = bookmarkId).
  { unfold Store.findBookmark in Hf. apply find_some in Hf.
    now apply String.eqb_eq. }
  cbv zeta.
  cbn [AnalyticsService.ba_id AnalyticsService.ba_totalAttempts
       AnalyticsService.ba_scoreProgression AnalyticsService.ba_weakQuestions].
  rewrite Hid.
  fold (BookmarkAnalyticsSpec.answersOn st bookmarkId).
  set (given := BookmarkAnalyticsSpec.answersOn st bookmarkId).
  split; [reflexivity |].
  split; [apply sort_length |].
  split.
  { exists (Store.byAttemptedAtAsc (Store.attemptsOf st bookmarkId)).
    split; [apply sort_Permutation |].
    split; [apply byAttemptedAtAsc_sorted | reflexivity]. }
  split; [apply byRate_sorted |].
  split.
  { eapply Permutation_NoDup; [| apply (weak_ids st given)].
    apply Permutation_map. symmetry. apply sort_Permutation. }
  split; [| split].
  - intros w. rewrite sort_In. apply weak_In.
  - intros w Hw. apply sort_In, weak_In in Hw.
    destruct Hw as [k [-> [Hne Hlt]]]. cbv zeta.
    change (BookmarkAnalyticsSpec.idOf
              (BookmarkAnalyticsSpec.reportOn st given k)) with k.
    now apply (reportOn_weak st).
  - intros k Hlt Hn. apply sort_In, weak_In. exists k.
    split; [reflexivity |]. split.
    + intros E. rewrite E in Hlt. cbn in Hlt. lia.
    + now apply reportOn_wrong.
Qed.

Lemma getBookmarkAnalytics_report_witness :
  exists ba,
    AnalyticsService.getBookmarkAnalytics 5000 Examples.st_review Examples.id_b1
    = Some ba
    /\ AnalyticsService.ba_totalAttempts ba = 2%nat.
Proof.
  destruct (AnalyticsService.getBookmarkAnalytics 5000 Examples.st_review
              Examples.id_b1) as [ba|] eqn:E;
    [| vm_compute in E; discriminate E].
  exists ba. split; [reflexivity |].
  destruct (proj2 (getBookmarkAnalytics_report 5000 Examples.st_review
                     Examples.id_b1) ba E) as [_ [H _]].
  rewrite H. reflexivity.
Defined.

Section BookmarkInsightFacts.
Import Js Store RevisionEngine ScopedInsights.

Lemma next_review_soon (tz now : Z) (score : Q) :
  calculateNextReviewDate tz now score
  <= now + 5 * Date.msPerDay + 9 * Date.msPerHour.
Proof.
  rewrite calculateNextReviewDate_value.
  pose proof (localDay_bounds tz now).
  pose proof (tierDays_range score).
  pose proof msPerDay_pos. nia.
Qed.

(** More than seven whole days: eight days or more. *)
Lemma more_than_a_week (now last : Z) :
  (7 <? (now - last) / (1000 * 60 * 60 * 24)) = true
  <-> 8 * Date.msPerDay <= now - last.
Proof.
  change (1000 * 60 * 60 * 24) with 86400000. unfold Date.msPerDay.
  rewrite Z.ltb_lt. split; intros H.
  - assert (8 <= (now - last) / 86400000) by lia.
    pose proof (Z.mul_div_le (now - last) 86400000 eq_refl). nia.
  - assert (8 <= (now - last) / 86400000); [| lia].
    apply Z.div_le_lower_bound; lia.
Qed.

Lemma byAttemptedAtDesc_nil (l : list QuizAttempt) :
  byAttemptedAtDesc l = [] <-> l = [].
Proof.
  split; intros H.
  - apply length_zero_iff_nil. unfold byAttemptedAtDesc in H.
    now rewrite <- (sort_length (fun a b => a_attemptedAt b <=? a_attemptedAt a) l),
      H.
  - now subst.
Qed.

(** When the insights of a bookmark say "overdue". *)
Lemma getBookmarkInsights_overdue (now : Z) (st : Store.t) (id : string)
      (b : Bookmark) :
  findBookmark st id = Some b ->
  In (mkInsight Overdue Insights.Warning) (getBookmarkInsights now st id)
  <-> (attemptsOf st (b_id b) <> []
       /\ exists last, b_lastReviewedAt b = Some last
                       /\ 8 * Date.msPerDay <= now - last).
Proof.
  intros Hf. unfold getBookmarkInsights. rewrite Hf.
  destruct (byAttemptedAtDesc (attemptsOf st (b_id b))) as [|latest rest] eqn:E.
  - apply (proj1 (byAttemptedAtDesc_nil _)) in E. split.
    + intros [H | []]. discriminate.
    + intros [H _]. exfalso. exact (H E).
  - assert (Hne : attemptsOf st (b_id b) <> []).
    { intros H. apply (proj2 (byAttemptedAtDesc_nil _)) in H. congruence. }
    cbv zeta. rewrite !in_app_iff. split.
    + intros [H | [H | H]].
      * destruct (Qle_bool _ _); [destruct H as [H | []]; discriminate |].
        destruct (Qlt_bool _ _); [destruct H as [H | []]; discriminate |].
        contradiction.
      * split; [exact Hne |].
        destruct (b_lastReviewedAt b) as [last|]; [| contradiction].
        exists last. split; [reflexivity |].
        destruct (7 <? _) eqn:Hw; [| contradiction].
        now apply more_than_a_week.
      * destruct (0 <? _)%nat; [| contradiction].
        destruct H as [H | []]. discriminate.
    + intros [_ [last [Hl Hw]]]. right. left. rewrite Hl.
      apply more_than_a_week in Hw. rewrite Hw. now left.
Qed.

End BookmarkInsightFacts.

(** X23.  The insights of a bookmark.  Without any attempt there is the
    one insight that says so: a bookmark reviewed in daily reviews only is
    never reported as overdue.  With an attempt, the bookmark is reported
    as overdue exactly when its last review lies eight days back or more;
    and a bookmark that the scheduler wrote at its last review is then
    past its planned review, so that the list of due bookmarks selects it
    and the review counts hold it as overdue. *)
Theorem getBookmarkInsights_overdue_is_due (tz now : Z) (st : Store.t)
        (id : string) (b : Store.Bookmark) (last : Z) (score : Q) :
  Store.findBookmark st id = Some b ->
  Store.b_lastReviewedAt b = Some last ->
  Store.b_nextReviewAt b
  = Some (RevisionEngine.calculateNextReviewDate tz last score) ->
  let overdue := ScopedInsights.mkInsight ScopedInsights.Overdue
                                          Insights.Warning in
  (Store.attemptsOf st id = [] ->
   ScopedInsights.getBookmarkInsights now st id
   = [ScopedInsights.mkInsight ScopedInsights.NoAttempts Insights.Info])
  /\ (In overdue (ScopedInsights.getBookmarkInsights now st id)
      <-> Store.attemptsOf st id <> [] /\ 8 * Date.msPerDay <= now - last)
  /\ (In overdue (ScopedInsights.getBookmarkInsights now st id) ->
      RevisionEngine.dueWhere now b = true
      /\ ReviewStats.lt (Store.b_nextReviewAt b) now = true).
Proof.
  intros Hf Hlast Hnext. cbv zeta.
  assert (Hid : Store.b_id b = id).
  { unfold Store.findBookmark in Hf. apply find_some in Hf.
    now apply String.eqb_eq. }
  pose proof (getBookmarkInsights_overdue now st id b Hf) as Hiff.
  rewrite Hid, Hlast in Hiff.
  assert (Hiff' :
    In (ScopedInsights.mkInsight ScopedInsights.Overdue Insights.Warning)
       (ScopedInsights.getBookmarkInsights now st id)
    <-> Store.attemptsOf st id <> [] /\ 8 * Date.msPerDay <= now - last).
  { rewrite Hiff. split.
    - intros [H [l [E Hw]]]. injection E as <-. now split.
    - intros [H Hw]. split; [exact H |]. now exists last. }
  split; [| split; [exact Hiff' |]].
  - intros Hnone. unfold ScopedInsights.getBookmarkInsights.
    rewrite Hf, Hid, Hnone. reflexivity.
  - intros H. apply Hiff' in H. destruct H as [_ Hw].
    pose proof (next_review_soon tz last score) as Hsoon.
    unfold RevisionEngine.dueWhere, Store.lte, ReviewStats.lt.
    rewrite Hnext. unfold Date.msPerDay, Date.msPerHour in *.
    split.
    + apply orb_true_iff. left. apply Z.leb_le. lia.
    + apply Z.ltb_lt. lia.
Qed.

Lemma getBookmarkInsights_overdue_is_due_witness :
  In (ScopedInsights.mkInsight ScopedInsights.Overdue Insights.Warning)
     (ScopedInsights.getBookmarkInsights (10 * 86400000)
        MoreExamples.st_scheduled Examples.id_b1)
  <-> Store.attemptsOf MoreExamples.st_scheduled Examples.id_b1 <> []
      /\ 8 * Date.msPerDay <= 10 * 86400000 - 5000.
Proof.
  exact (proj1 (proj2 (getBookmarkInsights_overdue_is_due 0 (10 * 86400000)
                         MoreExamples.st_scheduled Examples.id_b1
                         MoreExamples.b_scheduled 5000 40
                         eq_refl eq_refl eq_refl))).
Defined.

Section RangeFacts.
Import Js Store AnalyticsService ScoreSpec.

Lemma sum_range (l : list Q) :
  Forall (fun x => (0 <= x <= 100)%Q) l ->
  (0 <= sum l <= 100 * inject_Z (Z.of_nat (length l)))%Q.
Proof.
  induction 1 as [|x l [Hx0 Hx1] _ [IH0 IH1]].
  - split; [apply Qle_refl | discriminate].
  - rewrite sum_cons. split.
    + rewrite <- (Qplus_0_r 0). now apply Qplus_le_compat.
    + cbn [length]. rewrite Nat2Z.inj_succ. unfold Z.succ.
      rewrite inject_Z_plus, Qmult_plus_distr_r, Qplus_comm.
      apply Qplus_le_compat; trivial.
Qed.

Lemma average_range (l : list Q) :
  Forall (fun x => (0 <= x <= 100)%Q) l ->
  (0 <= (if (0 <? length l)%nat then average l else 0) <= 100)%Q.
Proof.
  intros H. destruct (Nat.ltb_spec 0 (length l)) as [Hpos | _];
    [| split; discriminate].
  destruct (sum_range l H) as [H0 H1]. unfold average.
  assert (Hn : (0 < inject_Z (Z.of_nat (length l)))%Q)
    by (rewrite <- (Zlt_Qlt 0); lia).
  split.
  - apply Qle_shift_div_l; [exact Hn |]. now rewrite Qmult_0_l.
  - apply Qle_shift_div_r; [exact Hn | exact H1].
Qed.

Lemma scores_of_filter (keep : QuizAttempt -> bool) (l : list QuizAttempt) :
  Forall (fun a => (0 <= a_score a <= 100)%Q) l ->
  Forall (fun x => (0 <= x <= 100)%Q) (map a_score (filter keep l)).
Proof.
  intros H. apply Forall_map. rewrite Forall_forall in *.
  intros a Ha. apply filter_In in Ha. now apply H.
Qed.

Lemma scores_of_sort (leb : QuizAttempt -> QuizAttempt -> bool)
      (l : list QuizAttempt) :
  Forall (fun a => (0 <= a_score a <= 100)%Q) l ->
  Forall (fun x => (0 <= x <= 100)%Q) (map a_score (sort leb l)).
Proof.
  intros H. apply Forall_map. rewrite Forall_forall in *.
  intros a Ha. apply sort_In in Ha. now apply H.
Qed.

(** What a submission does to the table of attempts. *)
Lemma submit_attempts (is_uuid : string -> bool) (tz now : Z)
      (newId : string) (st : Store.t) (body : Quiz.SubmitBody) :
  let st' := fst (Quiz.submit is_uuid tz now newId st body) in
  quizAttempts st' = quizAttempts st
  \/ exists attempt,
       quizAttempts st' = quizAttempts st ++ [attempt]
       /\ (0 <= a_score attempt <= 100)%Q.
Proof.
  cbv zeta. destruct (Quiz.submitQuizSchema is_uuid body) eqn:Hs.
  - destruct (findBookmark st (Quiz.bookmarkId body)) as [b|] eqn:Hb.
    + rewrite (submit_accepted is_uuid tz now newId st body b Hs Hb).
      cbv zeta. cbn [fst quizAttempts]. right. eexists.
      split; [reflexivity |]. cbn [a_score]. apply scoreOf_range.
      rewrite results_length. unfold SubmitSpec.scored.
      apply filter_length_impl. intros a _.
      unfold SubmitSpec.judgedCorrect, SubmitSpec.known.
      now destruct (findQuestion st (Quiz.questionId a)).
    + destruct (submit_rejected is_uuid tz now newId st body) as [_ Hr].
      rewrite (Hr Hs Hb). now left.
  - destruct (submit_rejected is_uuid tz now newId st body) as [Hr _].
    rewrite (Hr Hs). now left.
Qed.

End RangeFacts.



Section DailyRoundFacts.
Import Js Store RevisionEngine DailyQuiz DailyQuizSpec DailyRoundSpec.

(** A question of a review set is a question of the store. *)
Lemma review_question_stored (nulls : NullsOrder) (now : Z) (st : Store.t)
      (rq : ReviewQuestion) :
  In rq (rs_questions (createDailyReviewSet nulls now st)) ->
  In (rq_question rq) (questions st).
Proof.
  unfold createDailyReviewSet. cbv zeta. cbn [rs_questions].
  intros H. apply In_firstn, in_flat_map in H.
  destruct H as [r [Hr Hrq]]. apply In_firstn in Hr.
  apply in_app_iff in Hr. destruct Hr as [Hr | Hr].
  - apply in_map_iff in Hr. destruct Hr as [d [<- Hd]].
    apply due_row_is_due in Hd. destruct Hd as [_ [_ Hd]].
    cbn [rb_questions] in Hrq. rewrite Hd in Hrq.
    cbn [d_questions loadDue] in Hrq.
    destruct (firstn 5 _) as [|q qs] eqn:E; [contradiction |].
    destruct Hrq as [<- | []]. cbn [rq_question].
    assert (Hq : In q (q :: qs)) by now left.
    rewrite <- E in Hq. apply In_firstn, filter_In in Hq. tauto.
  - apply in_map_iff in Hr. destruct Hr as [w [<- _]]. contradiction.
Qed.

Lemma findQuestion_stored (st : Store.t) (q : Question) :
  NoDup (map q_id (questions st)) -> In q (questions st) ->
  findQuestion st (q_id q) = Some q.
Proof.
  intros Hnd Hq. unfold findQuestion.
  destruct (find _ (questions st)) as [q'|] eqn:Hf.
  - apply find_some in Hf. destruct Hf as [Hin Hid].
    apply String.eqb_eq in Hid. f_equal.
    now apply (unique_by_id q_id (questions st)).
  - apply (find_none _ _ Hf) in Hq. now rewrite String.eqb_refl in Hq.
Qed.

End DailyRoundFacts.

(** X25.  The daily review, end to end.  In a store where ids are valid
    and distinct and every question belongs to a bookmark, take the set
    that [createDailyReviewSet] returns and submit an answer, right or
    wrong, to each of its questions: the submission goes through, every
    answer is scored, and none of the bookmarks a question was taken from
    is returned by [getDueBookmarks] at that time. *)
Theorem daily_review_round (is_uuid : string -> bool)
        (nulls : Store.NullsOrder) (tz now : Z) (st : Store.t)
        (reply : RevisionEngine.ReviewQuestion -> Js.jsstring) (timeTaken : Q) :
  (forall q, In q (Store.questions st) -> is_uuid (Store.q_id q) = true) ->
  (forall q, In q (Store.questions st) ->
             In (Store.q_bookmarkId q) (map Store.b_id (Store.bookmarks st))) ->
  NoDup (map Store.b_id (Store.bookmarks st)) ->
  NoDup (map Store.q_id (Store.questions st)) ->
  (0 <= timeTaken)%Q ->
  let set := RevisionEngine.createDailyReviewSet nulls now st in
  let out := DailyQuiz.submit is_uuid tz now st
               (DailyRoundSpec.answerAll reply set timeTaken) in
  exists r,
    snd out = DailyQuiz.Json r
    /\ DailyQuiz.res_total r = length (RevisionEngine.rs_questions set)
    /\ (forall rq nulls' limit d,
           In rq (RevisionEngine.rs_questions set) ->
           In d (RevisionEngine.getDueBookmarks nulls' now (fst out) limit) ->
           Store.b_id (RevisionEngine.d_bookmark d)
           <> Store.q_bookmarkId (RevisionEngine.rq_question rq)).
Proof.
  intros Huuid Hfk Hnd Hq Htime. cbv zeta.
  set (set_ := RevisionEngine.createDailyReviewSet nulls now st).
  set (body := DailyRoundSpec.answerAll reply set_ timeTaken).
  assert (Hstored : forall rq, In rq (RevisionEngine.rs_questions set_) ->
                               Store.findQuestion st
                                 (Store.q_id (RevisionEngine.rq_question rq))
                               = Some (RevisionEngine.rq_question rq)).
  { intros rq Hrq. apply findQuestion_stored; trivial.
    exact (review_question_stored nulls now st rq Hrq). }
  assert (Hs : DailyQuiz.submitDailyQuizSchema is_uuid body = true).
  { unfold DailyQuiz.submitDailyQuizSchema. apply andb_true_iff. split.
    - apply forallb_forall. intros a Ha.
      unfold body, DailyRoundSpec.answerAll in Ha. cbn [DailyQuiz.answers] in Ha.
      apply in_map_iff in Ha. destruct Ha as [rq [<- Hrq]].
      cbn [Quiz.questionId]. apply Huuid.
      exact (review_question_stored nulls now st rq Hrq).
    - apply Qle_bool_iff. exact Htime. }
  destruct (daily_submit_ok is_uuid tz now st body Hs Hfk Hnd)
    as [r [Hr [Htotal [_ Hdue]]]].
  exists r. split; [exact Hr |]. split.
  - rewrite Htotal. unfold SubmitSpec.scored.
    rewrite filter_all_true.
    + unfold body, DailyRoundSpec.answerAll. cbn [DailyQuiz.answers].
      apply length_map.
    + intros a Ha. unfold body, DailyRoundSpec.answerAll in Ha.
      cbn [DailyQuiz.answers] in Ha.
      apply in_map_iff in Ha. destruct Ha as [rq [<- Hrq]].
      unfold SubmitSpec.known. cbn [Quiz.questionId].
      now rewrite (Hstored rq Hrq).
  - intros rq nulls' limit d Hrq Hd Hid.
    apply due_row_is_due in Hd. destruct Hd as [Hin [Hisdue _]].
    rewrite (Hdue _ Hin) in Hisdue; [discriminate |].
    rewrite Hid.
    assert (Ha : In (Quiz.mkAnswer (Store.q_id (RevisionEngine.rq_question rq))
                                   (reply rq))
                    (DailyQuizSpec.answered st (DailyQuiz.answers body)
                       (Store.q_bookmarkId (RevisionEngine.rq_question rq)))).
    { unfold DailyQuizSpec.answered. apply filter_In. split.
      - unfold body, DailyRoundSpec.answerAll. cbn [DailyQuiz.answers].
        apply in_map_iff. now exists rq.
      - cbn [Quiz.questionId]. rewrite (Hstored rq Hrq).
        apply String.eqb_refl. }
    destruct (DailyQuizSpec.answered st (DailyQuiz.answers body)
                (Store.q_bookmarkId (RevisionEngine.rq_question rq)));
      [contradiction | reflexivity].
Qed.

Lemma daily_review_round_witness :
  exists r,
    snd (DailyQuiz.submit Examples.uuid_shape 0 5000 Examples.st_review
           (DailyRoundSpec.answerAll (fun _ => Js.str "Paris")
              (RevisionEngine.createDailyReviewSet Store.postgres 5000
                                                   Examples.st_review) 30))
    = DailyQuiz.Json r
    /\ DailyQuiz.res_total r
       = length (RevisionEngine.rs_questions
                   (RevisionEngine.createDailyReviewSet Store.postgres 5000
                                                        Examples.st_review)).
Proof.
  destruct (daily_review_round Examples.uuid_shape Store.postgres 0 5000
              Examples.st_review (fun _ => Js.str "Paris") 30)
    as [r [Hr [Ht _]]].
  - intros q [<- | [<- | [<- | []]]]; reflexivity.
  - intros q [<- | [<- | [<- | []]]]; cbn; tauto.
  - repeat constructor; cbn; intuition discriminate.
  - repeat constructor; cbn; intuition discriminate.
  - discriminate.
  - exists r. split; [exact Hr | exact Ht].
Defined.
